(** * Spark parking recommender: the scoring pipeline of [main.py]

    A shallow embedding of the helper functions and of the [/recommend]
    endpoint of [SparkParkingAPI/main.py], and the properties the
    specification states about them.

    Conventions of the embedding.
    - A Python [str] is a [string] of code points below 256. Blanks are the
      characters [str.isspace] accepts among them, digits are [0] to [9], and
      letter case is that of ASCII: [upper] and [lower] leave the letters
      beyond ASCII as they are, so a statement about the letter case of a
      text is a statement about ASCII text.
    - A Python [float] is an IEEE 754 binary64 value, [spec_float] of the
      Standard Library with [prec = 53] and [emax = 1024]; integers are [Z].
    - A raised exception is the [Raise] branch of [result]; [try]/[except]
      is a [match] on it.
    - Code that lives outside the repository is a field of [platform]:
      the pandas time parser, [float()] on text that is not a plain decimal
      numeral, and the C library's [sin], [cos], [asin] and [pow] on finite
      arguments. *)

From Stdlib Require Import ZArith String Ascii List Lia Bool Sorted.
From Stdlib Require Import Floats.SpecFloat.
From stdpp Require Import base gmap strings list sorting.

Local Open Scope Z_scope.

(** ** Text: the [str] methods the source calls *)

Definition code (c : ascii) : nat := nat_of_ascii c.

Definition between (lo hi : nat) (c : ascii) : bool :=
  Nat.leb lo (code c) && Nat.leb (code c) hi.

(** [str.isspace] on the code points below 256: TAB, LF, VT, FF, CR, FS, GS,
    RS, US, space, NEL (U+0085) and the no-break space (U+00A0). *)
Definition is_space (c : ascii) : bool :=
  between 9 13 c || between 28 32 c
  || Nat.eqb (code c) 133 || Nat.eqb (code c) 160.

(** [\d] of the [re] module on ASCII. *)
Definition is_digit (c : ascii) : bool := between 48 57 c.

Definition is_lower (c : ascii) : bool := between 97 122 c.

Definition upper_char (c : ascii) : ascii :=
  if is_lower c then ascii_of_nat (code c - 32) else c.

(** [s.upper()] *)
Fixpoint upper (s : string) : string :=
  match s with
  | EmptyString => EmptyString
  | String c s' => String (upper_char c) (upper s')
  end.

Fixpoint lstrip (s : string) : string :=
  match s with
  | EmptyString => EmptyString
  | String c s' => if is_space c then lstrip s' else s
  end.

Fixpoint rstrip (s : string) : string :=
  match s with
  | EmptyString => EmptyString
  | String c s' =>
      match rstrip s' with
      | EmptyString => if is_space c then EmptyString else String c EmptyString
      | r => String c r
      end
  end.

(** [s.strip()] *)
Definition strip (s : string) : string := rstrip (lstrip s).

(** [s.startswith(p)] *)
Definition startswith (s p : string) : bool := String.prefix p s.

(** [sub in s] *)
Fixpoint contains (sub s : string) : bool :=
  String.prefix sub s ||
  match s with
  | EmptyString => false
  | String _ s' => contains sub s'
  end.

(** [s.replace(",", "")] *)
Fixpoint remove_commas (s : string) : string :=
  match s with
  | EmptyString => EmptyString
  | String c s' =>
      if Ascii.eqb c "," then remove_commas s' else String c (remove_commas s')
  end.

(** The longest run of digits at the head of [s], and what follows it. *)
Fixpoint span_digits (s : string) : string * string :=
  match s with
  | EmptyString => (EmptyString, EmptyString)
  | String c s' =>
      if is_digit c
      then let '(d, r) := span_digits s' in (String c d, r)
      else (EmptyString, s)
  end.

(** Group 1 of the match found at the head of [s] by the pattern
    [(\d+(\.\d+)?)], when [s] starts with a digit: [\d+] is greedy and the
    optional group is taken whenever a dot and a digit follow. *)
Definition match_number_here (s : string) : string :=
  let '(d1, r) := span_digits s in
  match r with
  | String "."%char r' =>
      match span_digits r' with
      | (EmptyString, _) => d1
      | (d2, _) => d1 +:+ String "."%char d2
      end
  | _ => d1
  end.

(** [re.search(r"(\d+(\.\d+)?)", s)]: the leftmost match, hence the one that
    starts at the first digit of [s]; [None] when [s] has no digit. *)
Fixpoint re_search_number (s : string) : option string :=
  match s with
  | EmptyString => None
  | String c s' =>
      if is_digit c then Some (match_number_here s) else re_search_number s'
  end.

(** ** Exceptions *)

Inductive exn : Type :=
| HTTPException (status_code : Z) (detail : string)
| ValueError (msg : string)
| TypeError (msg : string)
| KeyError (key : string)
| OverflowError (msg : string).

(** One of the sixteen digits of a [\x] escape. *)
Definition hex_digit (n : nat) : ascii :=
  match String.get n "0123456789abcdef" with
  | Some c => c
  | None => "0"%char
  end.

Definition single_quote : ascii := "039"%char.
Definition double_quote : ascii := "034"%char.
Definition backslash : ascii := "092"%char.

Fixpoint has_char (c : ascii) (s : string) : bool :=
  match s with
  | EmptyString => false
  | String d s' => Ascii.eqb c d || has_char c s'
  end.

(** What [repr] writes for the character [c] between the quotes [q]: the
    quote and the backslash are escaped, TAB, LF and CR have their letter,
    and a character that is not printable (a control character, U+007F to
    U+00A0, the soft hyphen U+00AD) is written as [\x] and two digits. *)
Definition repr_char (q c : ascii) : string :=
  let n := code c in
  if Ascii.eqb c q || Ascii.eqb c backslash
  then String backslash (String c EmptyString)
  else if Nat.eqb n 9 then String backslash "t"
  else if Nat.eqb n 10 then String backslash "n"
  else if Nat.eqb n 13 then String backslash "r"
  else if Nat.ltb n 32 || (Nat.leb 127 n && Nat.leb n 160) || Nat.eqb n 173
  then String backslash
         (String "x" (String (hex_digit (n / 16)%nat)
                        (String (hex_digit (n mod 16)%nat) EmptyString)))
  else String c EmptyString.

Fixpoint repr_chars (q : ascii) (s : string) : string :=
  match s with
  | EmptyString => EmptyString
  | String c s' => repr_char q c +:+ repr_chars q s'
  end.

(** [repr(s)] of a text: between single quotes, unless the text has a
    single quote and no double quote. *)
Definition repr (s : string) : string :=
  let q :=
    if has_char single_quote s && negb (has_char double_quote s)
    then double_quote else single_quote in
  String q (repr_chars q s +:+ String q EmptyString).

(** [str(e)]; the text of a [KeyError] is the [repr] of its key. *)
Definition exn_str (e : exn) : string :=
  match e with
  | HTTPException _ d => d
  | ValueError m | TypeError m | OverflowError m => m
  | KeyError k => repr k
  end.

Inductive result (A : Type) : Type :=
| Ok (a : A)
| Raise (e : exn).

Arguments Ok {A} a.
Arguments Raise {A} e.

Definition bind {A B : Type} (r : result A) (k : A -> result B) : result B :=
  match r with
  | Ok a => k a
  | Raise e => Raise e
  end.

Notation "x <-! r ;; k" := (bind r (fun x => k))
  (at level 100, r at next level, right associativity).

(** ** Floats: IEEE 754 binary64 *)

Definition float : Type := spec_float.

Definition prec : Z := 53.
Definition emax : Z := 1024.

Definition fadd : float -> float -> float := SFadd prec emax.
Definition fsub : float -> float -> float := SFsub prec emax.
Definition fmul : float -> float -> float := SFmul prec emax.
Definition fdiv : float -> float -> float := SFdiv prec emax.
Definition fsqrt : float -> float := SFsqrt prec emax.

(** The double nearest to the integer [n] (ties to even; infinite when [n]
    is beyond the range). *)
Definition float_of_Z (n : Z) : float := binary_normalize prec emax n 0 false.

Definition pos_zero : float := S754_zero false.
Definition one : float := float_of_Z 1.

Definition is_nan (f : float) : bool :=
  match f with S754_nan => true | _ => false end.

Definition is_inf (f : float) : bool :=
  match f with S754_infinity _ => true | _ => false end.

Definition is_finite (f : float) : bool :=
  match f with S754_zero _ | S754_finite _ _ _ => true | _ => false end.

(** [x < y], [x == y] and [x >= y] on floats: all false on NaN. *)
Definition flt (x y : float) : bool := SFltb x y.
Definition feq (x y : float) : bool := SFeqb x y.
Definition fge (x y : float) : bool := SFleb y x.

(** [float(n)] for an [int]: rounds to nearest, raises when out of range. *)
Definition float_of_int (n : Z) : result float :=
  let f := float_of_Z n in
  if is_inf f then Raise (OverflowError "int too large to convert to float")
  else Ok f.

(** The number a run of decimal digits writes. *)
Definition digit_value (c : ascii) : Z := Z.of_nat (code c - 48).

Fixpoint digits_value_from (acc : Z) (s : string) : Z :=
  match s with
  | EmptyString => acc
  | String c s' => digits_value_from (10 * acc + digit_value c) s'
  end.

Definition digits_value (s : string) : Z := digits_value_from 0 s.

Fixpoint all_digits (s : string) : bool :=
  match s with
  | EmptyString => true
  | String c s' => is_digit c && all_digits s'
  end.

Definition nonempty (s : string) : bool :=
  match s with EmptyString => false | _ => true end.

Fixpoint pow10 (k : nat) : positive :=
  match k with
  | O => 1%positive
  | S k' => (10 * pow10 k')%positive
  end.

(** The double nearest to [n / 10^k], for [n >= 0]: one correctly rounded
    division of the two exact integers. *)
Definition decimal_to_float (n : Z) (k : nat) : float :=
  match n with
  | Zpos p => fdiv (S754_finite false p 0) (S754_finite false (pow10 k) 0)
  | _ => pos_zero
  end.

(** A plain decimal numeral, [digits] or [digits.digits]: its digits read as
    one integer and the number of digits after the dot. *)
Definition plain_decimal (s : string) : option (Z * nat) :=
  let '(d1, r) := span_digits s in
  if nonempty d1 then
    match r with
    | EmptyString => Some (digits_value d1, O)
    | String "."%char d2 =>
        if nonempty d2 && all_digits d2
        then Some (digits_value (d1 +:+ d2), String.length d2)
        else None
    | _ => None
    end
  else None.

(** ** What the embedding takes from outside the repository *)

Record platform : Type := {
  (** [pd.to_datetime(s, errors="coerce")] followed by [.hour]: the hour of
      the parsed timestamp, [None] when pandas answers [NaT] or raises. *)
  to_datetime_hour : string -> option Z;
  (** [float(s)] on a text that is not a plain decimal numeral (signs,
      exponents, blanks, [inf], [nan]); [None] is [ValueError]. *)
  float_of_text : string -> option float;
  (** The C library on finite non-zero arguments: [sin(x)], [cos(x)],
      [asin(x)] for [|x| <= 1], and [pow(x, y)] for [x > 0]. *)
  libm_sin : float -> float;
  libm_cos : float -> float;
  libm_asin : float -> float;
  libm_pow : float -> float -> float
}.

(** ** Values of a record's fields ([Any]) *)

Inductive value : Type :=
| VNone
| VStr (s : string)
| VInt (n : Z)
| VBool (b : bool)
| VFloat (f : float)
| VOther.

(** [isinstance(val, str)] *)
Definition is_str (val : value) : bool :=
  match val with VStr _ => true | _ => false end.

(** [isinstance(val, (int, float))]; [bool] is a subclass of [int]. *)
Definition is_int_or_float (val : value) : bool :=
  match val with VInt _ | VBool _ | VFloat _ => true | _ => false end.

(** [bool(val)] for a number: non-zero; NaN is non-zero. *)
Definition truthy (val : value) : bool :=
  match val with
  | VInt n => negb (n =? 0)
  | VBool b => b
  | VFloat f => negb (feq f pos_zero)
  | _ => false
  end.

(** [np.isnan(val)] for a number. *)
Definition np_isnan (val : value) : bool :=
  match val with VFloat f => is_nan f | _ => false end.

Definition int_of_bool (b : bool) : Z := if b then 1 else 0.

Section Platform.

Variable P : platform.

(** [float(s)] for a text. *)
Definition float_of_str (s : string) : result float :=
  match plain_decimal s with
  | Some (n, k) => Ok (decimal_to_float n k)
  | None =>
      match float_of_text P s with
      | Some f => Ok f
      | None => Raise (ValueError "could not convert string to float")
      end
  end.

(** [float(val)] *)
Definition float_of_value (val : value) : result float :=
  match val with
  | VFloat f => Ok f
  | VInt n => float_of_int n
  | VBool b => Ok (float_of_Z (int_of_bool b))
  | VStr s => float_of_str s
  | VNone | VOther =>
      Raise (TypeError "float() argument must be a string or a real number")
  end.

(** ** The helper functions of the source *)

Definition yn_to_int (val : value) : Z :=
  match
    match val with
    | VStr v =>
        let s := upper (strip v) in
        if startswith s "Y" then Some 1
        else if startswith s "N" then Some 0
        else None
    | _ => None
    end
  with
  | Some r => r
  | None =>
      if is_int_or_float val then int_of_bool (truthy val) else 0
  end.

Definition discount_to_int (val : value) : Z :=
  match val with
  | VStr v =>
      let s := upper (strip v) in
      if contains "EXEMPT" s || contains "DISCOUNT" s || contains "YES" s
      then 1 else 0
  | _ => 0
  end.

Definition rate_to_float (val : value) : result float :=
  if is_int_or_float val then
    if np_isnan val then Ok pos_zero else float_of_value val
  else
    match val with
    | VStr v =>
        match re_search_number (remove_commas v) with
        | Some g => float_of_str g
        | None => Ok pos_zero
        end
    | _ => Ok pos_zero
    end.

Definition parse_hour_from_str (s : value) : option Z :=
  match s with
  | VStr s =>
      let s := strip s in
      if negb (nonempty s) || String.eqb (upper s) "N/A" then None
      else if contains "24/7" s then Some 0
      else to_datetime_hour P s
  | _ => None
  end.

Definition has_247 (val : value) : bool :=
  match val with
  | VStr s => contains "24/7" (upper s)
  | _ => false
  end.

Definition compute_open_now (opening closing : value) (hour : Z) : Z :=
  if has_247 opening then 1
  else if has_247 closing then 1
  else
    let open_h := parse_hour_from_str opening in
    let close_h := parse_hour_from_str closing in
    match open_h, close_h with
    | Some open_h, Some close_h =>
        if open_h =? close_h then 1
        else if open_h <? close_h
        then int_of_bool ((open_h <=? hour) && (hour <? close_h))
        else int_of_bool ((open_h <=? hour) || (hour <? close_h))
    | _, _ => 1
    end.

(** ** The [math] module

    The C functions on the special values are fixed by Annex F of the C
    standard; the wrapper [math_1] of CPython turns a NaN answer to a
    non-NaN argument, and an infinite answer to a finite one, into
    [ValueError]. *)

Definition two : float := float_of_Z 2.

(** [Py_MATH_PI], the literal [3.14159265358979323846]. *)
Definition math_pi : float := decimal_to_float 314159265358979323846 20.

Definition deg_to_rad : float := fdiv math_pi (float_of_Z 180).

(** [math.radians(x)] *)
Definition radians (x : float) : float := fmul x deg_to_rad.

Definition c_sin (x : float) : float :=
  match x with
  | S754_nan | S754_infinity _ => S754_nan
  | S754_zero _ => x
  | S754_finite _ _ _ => libm_sin P x
  end.

Definition c_cos (x : float) : float :=
  match x with
  | S754_nan | S754_infinity _ => S754_nan
  | S754_zero _ => one
  | S754_finite _ _ _ => libm_cos P x
  end.

Definition c_asin (x : float) : float :=
  match x with
  | S754_nan | S754_infinity _ => S754_nan
  | S754_zero _ => x
  | S754_finite _ _ _ =>
      if flt one (SFabs x) then S754_nan else libm_asin P x
  end.

Definition math_1 (func : float -> float) (x : float) : result float :=
  let r := func x in
  if is_nan r && negb (is_nan x) then Raise (ValueError "math domain error")
  else if is_inf r && is_finite x then Raise (ValueError "math domain error")
  else Ok r.

Definition math_sin : float -> result float := math_1 c_sin.
Definition math_cos : float -> result float := math_1 c_cos.
Definition math_asin : float -> result float := math_1 c_asin.
Definition math_sqrt : float -> result float := math_1 fsqrt.

(** [x ** 2] on a float ([float_pow] of CPython with the exponent [2.0]):
    the special values are answered directly, a negative base is negated
    first, and an infinite answer of [pow] is [OverflowError]. *)
Definition float_pow2 (x : float) : result float :=
  match x with
  | S754_nan => Ok S754_nan
  | S754_infinity _ => Ok (S754_infinity false)
  | S754_zero _ => Ok pos_zero
  | S754_finite _ m e =>
      let r := libm_pow P (S754_finite false m e) two in
      if is_inf r
      then Raise (OverflowError "(34, 'Numerical result out of range')")
      else Ok r
  end.

Definition haversine_km (lat1 lon1 lat2 lon2 : float) : result float :=
  let R := float_of_Z 6371 in
  let lat1 := radians lat1 in
  let lon1 := radians lon1 in
  let lat2 := radians lat2 in
  let lon2 := radians lon2 in
  let dlat := fsub lat2 lat1 in
  let dlon := fsub lon2 lon1 in
  s1 <-! math_sin (fdiv dlat two);;
  p1 <-! float_pow2 s1;;
  c1 <-! math_cos lat1;;
  c2 <-! math_cos lat2;;
  s2 <-! math_sin (fdiv dlon two);;
  p2 <-! float_pow2 s2;;
  let a := fadd p1 (fmul (fmul c1 c2) p2) in
  q <-! math_sqrt a;;
  t <-! math_asin q;;
  let c := fmul two t in
  Ok (fmul R c).

End Platform.

(** ** Records, requests and responses *)

(** [p[k]] *)
Definition getitem (p : gmap string value) (k : string) : result value :=
  match p !! k with
  | Some v => Ok v
  | None => Raise (KeyError k)
  end.

(** [p.get(k, d)] *)
Definition dict_get (p : gmap string value) (k : string) (d : value) : value :=
  default d (p !! k).

(** [p.get(k, p.get(k', ""))]: a raw field under its internal name, else
    under its spreadsheet name, else the empty text. *)
Definition raw_field (p : gmap string value) (k k' : string) : value :=
  dict_get p k (dict_get p k' (VStr "")).

Record ParkingRequest : Type := {
  user_lat : float;
  user_lng : float;
  time_of_day : Z;
  day_of_week : option Z
}.

(** An element of a feature row before [np.array]: an [int] or a [float]. *)
Inductive num : Type :=
| NInt (n : Z)
| NFloat (f : float).

(** The display dictionary stored in [parking_info]. *)
Record info : Type := {
  info_index : nat;
  info_name : value;
  info_details : value;
  info_address : value;
  info_link : value;
  info_city : value;
  info_lat : float;
  info_lng : float;
  info_distance_km : float;
  info_open_now : bool;
  info_opening : value;
  info_closing : value;
  info_guards : Z;
  info_cctvs : Z;
  info_initial_rate : float;
  info_pwd_discount : Z;
  info_street_parking : Z
}.

(** [info_with_score]: the display dictionary with its ["score"]. *)
Record scored : Type := {
  entry : info;
  score : float
}.

Record response : Type := {
  user_location : float * float * Z;
  recommendations : list scored
}.

(** [model.predict]: a batch of rows to a batch of scores, or an exception. *)
Definition predictor : Type := list (list float) -> result (list float).

(** ** [list.sort] and slicing *)

Section Sort.

Context {A : Type}.
Variable key : A -> float.

(** One step of the insertion: [x] goes after every element whose key is not
    above its own. *)
Fixpoint insert_by_key (x : A) (l : list A) : list A :=
  match l with
  | [] => [x]
  | y :: l' =>
      if flt (key x) (key y) then x :: y :: l' else y :: insert_by_key x l'
  end.

(** The stable ascending sort on keys compared with [<]. *)
Definition stable_sort (l : list A) : list A :=
  fold_left (fun acc x => insert_by_key x acc) l [].

(** [l.sort(key=key, reverse=reverse)]: with [reverse] the list is reversed,
    sorted ascending and reversed again, which keeps equal keys in their
    original order. The interpreter sorts by merging runs; when [<] orders
    the keys, that is when none of them is NaN, every stable sort returns
    the same list, the one computed here. With a NaN among the keys [<] is
    no order and the list the interpreter returns depends on the runs it
    finds, which differ from one version of it to the next: it is the list
    computed here when no element is below an element listed after it (the
    list is then returned as it is), and it may be another arrangement of
    the same elements otherwise. The order of a sorted list is stated below
    for keys without NaN or for a list of that kind only. *)
Definition list_sort (reverse : bool) (l : list A) : list A :=
  if reverse then rev (stable_sort (rev l)) else stable_sort l.

(** [l[:k]] *)
Definition slice_to (l : list A) (k : Z) : list A :=
  if 0 <=? k then take (Z.to_nat k) l
  else take (length l - Z.to_nat (- k)) l.

End Sort.

(** ** The [/recommend] endpoint *)

(** [np.array(rows, dtype=float)] on one element. *)
Definition np_float (x : num) : float :=
  match x with
  | NInt n => float_of_Z n
  | NFloat f => f
  end.

Definition np_array (rows : list (list num)) : list (list float) :=
  map (map np_float) rows.

Section Recommend.

Variable P : platform.

(** [float(p["lat"])] and [float(p["lng"])], the body of the [try]. *)
Definition coordinates (p : gmap string value) : result (float * float) :=
  lat <-! bind (getitem p "lat") (float_of_value P);;
  lng <-! bind (getitem p "lng") (float_of_value P);;
  Ok (lat, lng).

(** The body of the loop over [PARKINGS] for one record: [None] is
    [continue], taken when the [try] raises. *)
Definition feature_row (req : ParkingRequest) (idx : nat)
    (p : gmap string value) : result (option (list num * info)) :=
  match coordinates p with
  | Raise _ => Ok None
  | Ok (lat, lng) =>
      dist_km <-! haversine_km P (user_lat req) (user_lng req) lat lng;;
      let opening := dict_get p "opening" VNone in
      let closing := dict_get p "closing" VNone in
      let open_now := compute_open_now P opening closing (time_of_day req) in
      let cctvs := yn_to_int (raw_field p "cctvs_raw" "CCTVS") in
      let guards := yn_to_int (raw_field p "guards_raw" "GUARDS") in
      initial_rate <-!
        rate_to_float P (raw_field p "initial_rate_raw" "INITIAL RATE");;
      let pwd_discount :=
        discount_to_int (raw_field p "discount_raw" "PWD/SC DISCOUNT") in
      let street_parking :=
        yn_to_int (raw_field p "street_raw" "STREET PARKING") in
      let row :=
        [ NFloat dist_km; NInt open_now; NInt cctvs; NInt guards;
          NFloat initial_rate; NInt pwd_discount; NInt street_parking ] in
      Ok (Some (row,
        {| info_index := idx;
           info_name := dict_get p "name" VNone;
           info_details := dict_get p "details" VNone;
           info_address := dict_get p "address" VNone;
           info_link := dict_get p "link" VNone;
           info_city := dict_get p "city" VNone;
           info_lat := lat;
           info_lng := lng;
           info_distance_km := dist_km;
           info_open_now := negb (open_now =? 0);
           info_opening := dict_get p "opening" VNone;
           info_closing := dict_get p "closing" VNone;
           info_guards := guards;
           info_cctvs := cctvs;
           info_initial_rate := initial_rate;
           info_pwd_discount := pwd_discount;
           info_street_parking := street_parking |}))
  end.

(** The loop [for idx, p in enumerate(PARKINGS)], from index [idx] on: the
    lists [feature_rows] and [parking_info] it appends to. *)
Fixpoint build_rows (req : ParkingRequest) (idx : nat)
    (ps : list (gmap string value)) : result (list (list num) * list info) :=
  match ps with
  | [] => Ok ([], [])
  | p :: ps' =>
      r <-! feature_row req idx p;;
      rest <-! build_rows req (S idx) ps';;
      Ok (match r with
          | Some (row, i) => (row :: fst rest, i :: snd rest)
          | None => rest
          end)
  end.

(** [zip(parking_info, scores)] with the score attached. *)
Definition attach_scores (parking_info : list info) (scores : list float)
    : list scored :=
  zip_with (fun i s => {| entry := i; score := s |}) parking_info scores.

Definition recommend (model : option predictor)
    (PARKINGS : list (gmap string value))
    (req : ParkingRequest) (top_k : Z) : result response :=
  match model with
  | None => Raise (HTTPException 500 "Model not loaded.")
  | Some model =>
      match PARKINGS with
      | [] => Raise (HTTPException 500 "No parking data loaded from Excel.")
      | _ =>
          built <-! build_rows req 0 PARKINGS;;
          let '(feature_rows, parking_info) := built in
          match feature_rows with
          | [] => Raise (HTTPException 500 "No valid parking rows to score.")
          | _ =>
              let X := np_array feature_rows in
              match model X with
              | Raise e =>
                  Raise (HTTPException 500
                           ("Model prediction failed: " +:+ exn_str e))
              | Ok scores =>
                  let results := attach_scores parking_info scores in
                  let results := list_sort score true results in
                  let results := slice_to results top_k in
                  Ok {| user_location :=
                          (user_lat req, user_lng req, time_of_day req);
                        recommendations := results |}
              end
          end
      end
  end.

End Recommend.

(** ** Text that occurs in a text *)

Definition Occurs (sub s : string) : Prop :=
  exists pre suf : string, s = pre +:+ sub +:+ suf.

Fixpoint all_space (s : string) : bool :=
  match s with
  | EmptyString => true
  | String c s' => is_space c && all_space s'
  end.

Fixpoint no_digit (s : string) : bool :=
  match s with
  | EmptyString => true
  | String c s' => negb (is_digit c) && no_digit s'
  end.

(** [s] does not start with a digit. *)
Definition digit_free_head (s : string) : bool :=
  match s with
  | EmptyString => true
  | String c _ => negb (is_digit c)
  end.

(** ** An instance of the platform, to run the pipeline on concrete inputs

    A reader of clock texts such as [7:00 AM] and [10:00 PM]; no text is a
    float beyond the plain decimals; and the C library of small angles
    ([sin x] is [x], [cos x] is 1, [asin x] is [x], [pow x y] is [x * x]),
    under which the distance between near points is the flat one. *)

Definition clock_hour (s : string) : option Z :=
  let '(d, r) := span_digits s in
  if nonempty d then
    let h := digits_value d in
    let u := upper r in
    let h' :=
      if contains "PM" u then (if h <? 12 then h + 12 else h)
      else if contains "AM" u then (if h =? 12 then 0 else h)
      else h in
    if h' <? 24 then Some h' else None
  else None.

Definition test_platform : platform := {|
  to_datetime_hour := clock_hour;
  float_of_text := fun _ => None;
  libm_sin := fun x => x;
  libm_cos := fun _ => one;
  libm_asin := fun x => x;
  libm_pow := fun x _ => fmul x x
|}.

(** A model that prefers the cheaper facility: the score is the negated
    initial rate (0 when the rate is missing from the row or is NaN). It
    never raises. *)
Definition test_score (row : list float) : float :=
  let r := nth 4 row pos_zero in
  if is_nan r then pos_zero else SFopp r.

Definition test_model : predictor := fun X => Ok (map test_score X).

Definition facility (name : string) (lat lng : Z) (opening closing : string)
    (rate : value) (cctvs : value) : gmap string value :=
  {[ "name" := VStr name;
     "lat" := VInt lat;
     "lng" := VInt lng;
     "opening" := VStr opening;
     "closing" := VStr closing;
     "initial_rate_raw" := rate;
     "cctvs_raw" := cctvs;
     "guards_raw" := VStr "Yes" ]}.

(** Three facilities; the third has a blank CCTV cell, which pandas loads as
    NaN. *)
Definition test_catalog : list (gmap string value) :=
  [ facility "Mall" 14 121 "10:00 AM" "9:00 PM" (VStr "PHP 50.00") (VStr "YES");
    facility "Plaza" 15 120 "24/7" "24/7" (VInt 20) (VStr "no");
    facility "Lot" 14 120 "garbage" "N/A" (VStr "PHP 20.00") (VFloat S754_nan) ].

Definition test_request : ParkingRequest := {|
  user_lat := float_of_Z 14;
  user_lng := float_of_Z 121;
  time_of_day := 23;
  day_of_week := None
|}.

(** A request whose latitude is the float [inf], which the request schema
    accepts for a [float] field. *)
Definition request_at_infinity : ParkingRequest := {|
  user_lat := S754_infinity false;
  user_lng := float_of_Z 121;
  time_of_day := 23;
  day_of_week := None
|}.

(** The answer of the endpoint on the three facilities, for [top_k = 100]. *)
Definition test_response : response :=
  Eval vm_compute in
    match recommend test_platform (Some test_model) test_catalog test_request 100
    with
    | Ok r => r
    | Raise _ => {| user_location := (pos_zero, pos_zero, 0);
                    recommendations := [] |}
    end.

(** A facility known by its coordinates only. *)
Definition bare_facility : gmap string value :=
  {[ "lat" := VInt 14; "lng" := VStr "121.05" ]}.

(** The feature row of a record, from its distance and its rate. *)
Definition row_of (P : platform) (req : ParkingRequest)
    (p : gmap string value) (dist rate : float) : list num :=
  [ NFloat dist;
    NInt (compute_open_now P (dict_get p "opening" VNone)
            (dict_get p "closing" VNone) (time_of_day req));
    NInt (yn_to_int (raw_field p "cctvs_raw" "CCTVS"));
    NInt (yn_to_int (raw_field p "guards_raw" "GUARDS"));
    NFloat rate;
    NInt (discount_to_int (raw_field p "discount_raw" "PWD/SC DISCOUNT"));
    NInt (yn_to_int (raw_field p "street_raw" "STREET PARKING")) ].

(** A scoring function that always raises. *)
Definition failing_model : predictor :=
  fun _ => Raise (ValueError "Input contains NaN.").

(** Characters that [upper] neither changes nor produces. *)
Definition caseless (c : ascii) : bool :=
  negb (is_lower c) && negb (between 65 90 c).

Fixpoint all_caseless (s : string) : bool :=
  match s with
  | EmptyString => true
  | String c s' => caseless c && all_caseless s'
  end.

Definition is_y (d : ascii) : Prop := d = "y"%char \/ d = "Y"%char.
Definition is_n (d : ascii) : Prop := d = "n"%char \/ d = "N"%char.

(** ** The order of floats, read off a key

    Away from NaN, [<] on floats is the lexicographic order of [fkey]. *)

Definition fkey (x : float) : Z * Z * Z :=
  match x with
  | S754_nan | S754_zero _ => (0, 0, 0)
  | S754_infinity true => (-2, 0, 0)
  | S754_infinity false => (2, 0, 0)
  | S754_finite true m e => (-1, - e, - Zpos m)
  | S754_finite false m e => (1, e, Zpos m)
  end.

Definition key_lt (a b : Z * Z * Z) : Prop :=
  a.1.1 < b.1.1 \/
  (a.1.1 = b.1.1 /\ (a.1.2 < b.1.2 \/ (a.1.2 = b.1.2 /\ a.2 < b.2))).

(** ** What a sorted list is

    Keys are numeric when they are not NaN. *)

Section SortSpec.

Context {A : Type}.
Variable key : A -> float.





End SortSpec.

(** The order of the catalog on display records. *)
Definition index_lt (a b : info) : Prop := (info_index a < info_index b)%nat.

(** The ranked list before it is cut to [top_k]. *)
Definition ranked (infos : list info) (scores : list float) : list scored :=
  list_sort score true (attach_scores infos scores).

(** [r] starts with a dot followed by a digit: the optional group of the
    pattern matches at [r]. *)
Definition fraction_head (r : string) : bool :=
  match r with
  | String "."%char (String c _) => is_digit c
  | _ => false
  end.

(** A float that is zero, finite or infinite with the sign [s]: not NaN. *)
Definition signed (s : bool) (f : float) : Prop :=
  match f with
  | S754_zero s' | S754_infinity s' | S754_finite s' _ _ => s' = s
  | S754_nan => False
  end.

(** ** The distance, step by step *)

(** [y] is [x] or its opposite. *)
Definition mirror (x y : float) : Prop := y = SFopp x \/ y = x.

(** [sin(x) ** 2] *)
Definition sin_squared (P : platform) (x : float) : result float :=
  s <-! math_sin P x;; float_pow2 P s.

(** [cos(x) * cos(y)] *)
Definition cos_product (P : platform) (x y : float) : result float :=
  c1 <-! math_cos P x;;
  c2 <-! math_cos P y;;
  Ok (fmul c1 c2).

(** The distance from the two squared sines and the product of cosines. *)
Definition great_circle (P : platform) (p1 cc p2 : float) : result float :=
  let a := fadd p1 (fmul cc p2) in
  q <-! math_sqrt a;;
  t <-! math_asin P q;;
  Ok (fmul (float_of_Z 6371) (fmul two t)).

(** The C library's [sin] is odd on finite arguments. *)
Definition sin_odd (P : platform) : Prop :=
  forall s m e,
    libm_sin P (S754_finite (negb s) m e)
    = SFopp (libm_sin P (S754_finite s m e)).

(** The cosine of a finite argument is a float whose square is finite, as is
    the case of a cosine between -1 and 1. *)
Definition cos_bounded (P : platform) : Prop :=
  forall x, is_finite x = true ->
    exists c, math_cos P x = Ok c /\ is_finite (fmul c c) = true.

(** ** Tactics *)

(** The 256 characters, one by one. *)
Ltac each_char c :=
  destruct c as [[] [] [] [] [] [] [] []].

(** The comparisons met when two finite floats are compared. *)
Ltac float_cases :=
  repeat match goal with
  | |- context [Z.compare ?a ?b] => destruct (Z.compare_spec a b)
  | |- context [Pos.compare_cont Eq ?a ?b] =>
      change (Pos.compare_cont Eq a b) with (Pos.compare a b);
      destruct (Pos.compare_spec a b)
  end.
(** ** Needles that no blank can hide

    A text to look for that neither starts nor ends with a blank is found in
    a trimmed text exactly when it is found in the text. *)

Definition head_solid (n : string) : bool :=
  match n with
  | EmptyString => false
  | String a _ => negb (is_space a)
  end.

Fixpoint ends_solid (n : string) : bool :=
  match n with
  | EmptyString => true
  | String a EmptyString => negb (is_space a)
  | String _ n' => ends_solid n'
  end.

Definition is_a (d : ascii) : Prop := d = "a"%char \/ d = "A"%char.
(** * The routing endpoints: [/eta], [/route] and [/optimize]

    The three endpoints ask a router module first, when one could be
    imported, and the public OSRM server next. What lies outside the
    repository is taken as a parameter: the router module at the signature
    the source documents for it, the HTTP request with its JSON decoding, the
    decimal text of a float that goes into a URL, and the wording of the
    interpreter's error messages. *)

Module Routing.

(** ** What [json.loads] returns *)

#[warnings="-register-all"]
Inductive json : Type :=
| JNull
| JBool (b : bool)
| JInt (n : Z)
| JFloat (f : float)
| JStr (s : string)
| JList (l : list json)
| JObject (m : gmap string json).

(** The operations on a value that can fail: a method call [x.get], an
    index [x[i]], a key [x[k]], an iteration [for w in x] and a conversion
    [float(x)]. *)
Inductive operation : Type :=
| Method (name : string)
| Index (i : nat)
| Key (k : string)
| Iteration
| Conversion.

(** An exception under a routing endpoint. The handlers catch [Exception] as
    a whole and read its text only: an exception is known by its class, the
    operation that failed and the value it was applied to, or, when it comes
    from the libraries that fetch and decode the answer, by its text. *)
Inductive failure : Type :=
| Failure (cls : string) (op : operation) (culprit : json)
| External (text : string).

Inductive outcome (A : Type) : Type :=
| Returned (a : A)
| Raised (e : failure).

Arguments Returned {A} a.
Arguments Raised {A} e.

Definition and_then {A B : Type} (r : outcome A) (k : A -> outcome B)
    : outcome B :=
  match r with
  | Returned a => k a
  | Raised e => Raised e
  end.

Notation "x <-? r ;; k" := (and_then r (fun x => k))
  (at level 100, r at next level, right associativity).

(** A list comprehension whose element expression can raise: the first
    failure ends it. *)
Fixpoint comprehension {A B : Type} (f : A -> outcome B) (l : list A)
    : outcome (list B) :=
  match l with
  | [] => Returned []
  | x :: l' =>
      y <-? f x;;
      ys <-? comprehension f l';;
      Returned (y :: ys)
  end.

(** [bool(x)] *)
Definition truth (x : json) : bool :=
  match x with
  | JNull => false
  | JBool b => b
  | JInt n => negb (n =? 0)
  | JFloat f => negb (feq f pos_zero)
  | JStr s => nonempty s
  | JList l => match l with [] => false | _ => true end
  | JObject m => match map_to_list m with [] => false | _ => true end
  end.

(** [x or d] *)
Definition or_else (x d : json) : json := if truth x then x else d.

(** [x.get(k, d)]: only a dictionary has the method. *)
Definition get (x : json) (k : string) (d : json) : outcome json :=
  match x with
  | JObject m => Returned (default d (m !! k))
  | _ => Raised (Failure "AttributeError" (Method "get") x)
  end.

(** [x[i]] for an integer [i >= 0]. A dictionary decoded from JSON has text
    keys only, so an integer is never one of its keys. *)
Definition item (x : json) (i : nat) : outcome json :=
  match x with
  | JList l =>
      match l !! i with
      | Some y => Returned y
      | None => Raised (Failure "IndexError" (Index i) x)
      end
  | JStr s =>
      match String.get i s with
      | Some c => Returned (JStr (String c EmptyString))
      | None => Raised (Failure "IndexError" (Index i) x)
      end
  | JObject _ => Raised (Failure "KeyError" (Index i) x)
  | _ => Raised (Failure "TypeError" (Index i) x)
  end.

(** [x[k]] for a text [k]. *)
Definition item_key (x : json) (k : string) : outcome json :=
  match x with
  | JObject m =>
      match m !! k with
      | Some y => Returned y
      | None => Raised (Failure "KeyError" (Key k) x)
      end
  | _ => Raised (Failure "TypeError" (Key k) x)
  end.

(** [for w in x]: the elements of a list, the characters of a text, the keys
    of a dictionary (in an order that plays no part below: every key is a
    text). *)
Definition iterate (x : json) : outcome (list json) :=
  match x with
  | JList l => Returned l
  | JStr s =>
      Returned (map (fun c => JStr (String c EmptyString))
                  (list_ascii_of_string s))
  | JObject m => Returned (map (fun kv => JStr (fst kv)) (map_to_list m))
  | _ => Raised (Failure "TypeError" Iteration x)
  end.

(** [float(x) if isinstance(x, (int, float)) else None] *)
Definition float_if_number (x : json) : outcome (option float) :=
  match x with
  | JFloat f => Returned (Some f)
  | JBool b => Returned (Some (float_of_Z (int_of_bool b)))
  | JInt n =>
      match float_of_int n with
      | Ok f => Returned (Some f)
      | Raise _ => Raised (Failure "OverflowError" Conversion x)
      end
  | _ => Returned None
  end.

(** [float(x)] *)
Definition float_of_json (P : platform) (x : json) : outcome float :=
  match x with
  | JFloat f => Returned f
  | JBool b => Returned (float_of_Z (int_of_bool b))
  | JInt n =>
      match float_of_int n with
      | Ok f => Returned f
      | Raise _ => Raised (Failure "OverflowError" Conversion x)
      end
  | JStr s =>
      match float_of_str P s with
      | Ok f => Returned f
      | Raise _ => Raised (Failure "ValueError" Conversion x)
      end
  | _ => Raised (Failure "TypeError" Conversion x)
  end.

(** ** Text *)

Definition is_upper (c : ascii) : bool := between 65 90 c.

Definition lower_char (c : ascii) : ascii :=
  if is_upper c then ascii_of_nat (code c + 32) else c.

(** [s.lower()] *)
Fixpoint lower (s : string) : string :=
  match s with
  | EmptyString => EmptyString
  | String c s' => String (lower_char c) (lower s')
  end.

(** [sep.join(l)] *)
Fixpoint join (sep : string) (l : list string) : string :=
  match l with
  | [] => EmptyString
  | s :: l' =>
      match l' with
      | [] => s
      | _ => s +:+ sep +:+ join sep l'
      end
  end.

(** ** Outside the repository *)

Record network : Type := {
  (** [f"{x}"] for a float [x] *)
  float_str : float -> string;
  (** The request of [_http_get_json]: the URL opened with its header and
      its timeout, the body read, decoded as UTF-8 and parsed by
      [json.loads]. *)
  urlopen_json : string -> outcome json;
  (** [str(e)] for an exception raised by an operation on a value *)
  wording : string -> operation -> json -> string
}.

(** [str(e)] *)
Definition failure_str (N : network) (e : failure) : string :=
  match e with
  | Failure cls op x => wording N cls op x
  | External text => text
  end.

(** The module [router_ml], at the signatures the source documents for it.
    [None] is an exception raised by the call; a duration is any value, and
    a geometry may be [None]. *)
Record router_ml : Type := {
  ml_eta : float * float -> float * float -> string -> option value;
  ml_route :
    float * float -> float * float -> string ->
    option (list (float * float)) ->
    option (option (list (float * float)) * value);
  ml_optimize :
    float * float -> list (float * float) -> float * float -> string ->
    option (option (list (float * float)) *
            option (list (float * float)) * value)
}.

(** ** Requests and answers *)

Record LatLon : Type := {
  lat : float;
  lon : float
}.

Record EtaRequest : Type := {
  eta_origin : LatLon;
  eta_destination : LatLon;
  eta_mode : string;
  departAt : option string
}.

Record RouteRequest : Type := {
  route_origin : LatLon;
  route_destination : LatLon;
  route_mode : string;
  route_stops : option (list LatLon)
}.

Record OptimizeRequest : Type := {
  optimize_origin : LatLon;
  optimize_destination : LatLon;
  optimize_stops : list LatLon;
  optimize_mode : string
}.

(** [{"seconds": ...}] *)
Record EtaAnswer : Type := {
  seconds : option float
}.

(** [{"geometry": ..., "durationSeconds": ...}] *)
Record RouteAnswer : Type := {
  geometry : json;
  durationSeconds : option float
}.

(** [{"ordered": ..., "geometry": ..., "durationSeconds": ...}]; a point of
    [ordered] is its latitude and its longitude. *)
Record OptimizeAnswer : Type := {
  ordered : list (float * float);
  optimize_geometry : json;
  optimize_durationSeconds : option float
}.

(** [(p.lat, p.lon)] *)
Definition pair_of (p : LatLon) : float * float := (lat p, lon p).

(** ** The OSRM helpers *)

Definition _mode_to_osrm (mode : string) : string :=
  let m := lower (if nonempty mode then mode else EmptyString) in
  if String.eqb m "walk" then "walking" else "driving".

Definition _http_get_json (N : network) (url : string) : outcome json :=
  urlopen_json N url.

(** [f"{lon},{lat}"] *)
Definition lon_comma_lat (N : network) (p : float * float) : string :=
  float_str N (snd p) +:+ "," +:+ float_str N (fst p).

Definition route_url (N : network) (profile : string)
    (origin destination : float * float) : string :=
  "https://router.project-osrm.org/route/v1/" +:+ profile +:+ "/"
  +:+ lon_comma_lat N origin +:+ ";" +:+ lon_comma_lat N destination
  +:+ "?overview=full&geometries=geojson".

Definition _osrm_route (N : network) (profile : string)
    (origin destination : float * float) : outcome (json * option float) :=
  let url := route_url N profile origin destination in
  data <-? _http_get_json N url;;
  routes <-? get data "routes" (JList [JObject ∅]);;
  route0 <-? item routes 0;;
  geom <-? get route0 "geometry" (JObject ∅);;
  coords <-? get geom "coordinates" (JList []);;
  routes <-? get data "routes" (JList [JObject ∅]);;
  route0 <-? item routes 0;;
  duration <-? get route0 "duration" JNull;;
  d <-? float_if_number duration;;
  Returned (coords, d).

Definition trip_url (N : network) (profile : string)
    (points : list (float * float)) : string :=
  let coord_str := join ";" (map (lon_comma_lat N) points) in
  "https://router.project-osrm.org/trip/v1/" +:+ profile +:+ "/"
  +:+ coord_str
  +:+ "?source=first&destination=last&roundtrip=false&geometries=geojson".

(** [(w['location'][1], w['location'][0])] *)
Definition waypoint_lat_lon (w : json) : outcome (json * json) :=
  loc <-? item_key w "location";;
  y <-? item loc 1;;
  loc <-? item_key w "location";;
  x <-? item loc 0;;
  Returned (y, x).

Definition _osrm_trip (N : network) (profile : string)
    (points : list (float * float))
    : outcome (json * list (json * json) * option float) :=
  match points with
  | [] => Returned (JList [], [], None)
  | _ =>
      let url := trip_url N profile points in
      data <-? _http_get_json N url;;
      trips <-? get data "trips" JNull;;
      trip <-? item (or_else trips (JList [JNull])) 0;;
      geom <-? get (or_else trip (JObject ∅)) "geometry" (JObject ∅);;
      coords <-? get geom "coordinates" (JList []);;
      duration <-? get (or_else trip (JObject ∅)) "duration" JNull;;
      found <-? get data "waypoints" JNull;;
      let waypoints := or_else found (JList []) in
      ordered <-?
        (if truth waypoints
         then ws <-? iterate waypoints;; comprehension waypoint_lat_lon ws
         else Returned (map (fun p => (JFloat (fst p), JFloat (snd p)))
                          points));;
      d <-? float_if_number duration;;
      Returned (coords, ordered, d)
  end.

(** ** The endpoints *)

(** A comparison [x <= y] of floats: false on NaN. *)
Definition fle (x y : float) : bool := SFleb x y.

(** One point of a router geometry, put as [[lon, lat]]: the pair is swapped
    when its first number can be a latitude and its second a longitude. *)
Definition lon_lat (g : float * float) : json :=
  let a := fst g in
  let b := snd g in
  if fle (float_of_Z (-90)) a && fle a (float_of_Z 90)
     && (fle (float_of_Z (-180)) b && fle b (float_of_Z 180))
  then JList [JFloat b; JFloat a]
  else JList [JFloat a; JFloat b].

(** [isinstance(seconds, (int, float)) and seconds >= 0] *)
Definition usable_seconds (s : value) : bool :=
  match s with
  | VInt n => 0 <=? n
  | VBool _ => true
  | VFloat f => fge f pos_zero
  | _ => false
  end.

(** [float(duration) if duration is not None else None]; [None] of the
    outer option is an exception. *)
Definition optional_float (P : platform) (duration : value)
    : option (option float) :=
  match duration with
  | VNone => Some None
  | _ =>
      match float_of_value P duration with
      | Ok f => Some (Some f)
      | Raise _ => None
      end
  end.

(** The first [try] of [eta]: [Some] is its [return], [None] is falling
    through to OSRM, with or without an exception. *)
Definition eta_router (P : platform) (HAS_ROUTER : option router_ml)
    (origin destination : float * float) (mode : string)
    : option EtaAnswer :=
  match HAS_ROUTER with
  | None => None
  | Some router =>
      match ml_eta router origin destination mode with
      | None => None
      | Some s =>
          if usable_seconds s then
            match float_of_value P s with
            | Ok f => Some {| seconds := Some f |}
            | Raise _ => None
            end
          else None
      end
  end.

Definition eta (P : platform) (N : network) (HAS_ROUTER : option router_ml)
    (req : EtaRequest) : result EtaAnswer :=
  let origin := pair_of (eta_origin req) in
  let destination := pair_of (eta_destination req) in
  let mode := eta_mode req in
  match eta_router P HAS_ROUTER origin destination mode with
  | Some answer => Ok answer
  | None =>
      let profile := _mode_to_osrm mode in
      match _osrm_route N profile origin destination with
      | Returned (_, duration) => Ok {| seconds := duration |}
      | Raised e =>
          Raise (HTTPException 500 ("ETA failed: " +:+ failure_str N e))
      end
  end.

(** The first [try] of [route]. *)
Definition route_router (P : platform) (HAS_ROUTER : option router_ml)
    (origin destination : float * float) (mode : string)
    (stops : list (float * float)) : option RouteAnswer :=
  match HAS_ROUTER with
  | None => None
  | Some router =>
      match ml_route router origin destination mode
              (match stops with [] => None | _ => Some stops end) with
      | None => None
      | Some (geom, duration) =>
          let coords := map lon_lat (default [] geom) in
          match optional_float P duration with
          | Some d =>
              Some {| geometry := JList coords; durationSeconds := d |}
          | None => None
          end
      end
  end.

Definition route (P : platform) (N : network) (HAS_ROUTER : option router_ml)
    (req : RouteRequest) : result RouteAnswer :=
  let origin := pair_of (route_origin req) in
  let destination := pair_of (route_destination req) in
  let stops := map pair_of (default [] (route_stops req)) in
  let mode := route_mode req in
  match route_router P HAS_ROUTER origin destination mode stops with
  | Some answer => Ok answer
  | None =>
      let profile := _mode_to_osrm mode in
      match
        match stops with
        | [] => _osrm_route N profile origin destination
        | _ =>
            let pts := [origin] ++ stops ++ [destination] in
            r <-? _osrm_trip N profile pts;;
            Returned (fst (fst r), snd r)
        end
      with
      | Returned (coords, duration) =>
          Ok {| geometry := coords; durationSeconds := duration |}
      | Raised e =>
          Raise (HTTPException 500 ("Route failed: " +:+ failure_str N e))
      end
  end.

(** The first [try] of [optimize]. *)
Definition optimize_router (P : platform) (HAS_ROUTER : option router_ml)
    (origin : float * float) (stops : list (float * float))
    (destination : float * float) (mode : string) : option OptimizeAnswer :=
  match HAS_ROUTER with
  | None => None
  | Some router =>
      match ml_optimize router origin stops destination mode with
      | None => None
      | Some (ordered_pts, geom, duration) =>
          let ordered_latlon := default [] ordered_pts in
          let coords :=
            match geom with
            | None => None
            | Some g => Some (map lon_lat g)
            end in
          match optional_float P duration with
          | Some d =>
              Some {| ordered := ordered_latlon;
                      optimize_geometry := JList (default [] coords);
                      optimize_durationSeconds := d |}
          | None => None
          end
      end
  end.

(** [{"latitude": float(lat), "longitude": float(lon)}] *)
Definition latitude_longitude (P : platform) (p : json * json)
    : outcome (float * float) :=
  la <-? float_of_json P (fst p);;
  lo <-? float_of_json P (snd p);;
  Returned (la, lo).

Definition optimize (P : platform) (N : network)
    (HAS_ROUTER : option router_ml) (req : OptimizeRequest)
    : result OptimizeAnswer :=
  let origin := pair_of (optimize_origin req) in
  let destination := pair_of (optimize_destination req) in
  let stops := map pair_of (optimize_stops req) in
  let mode := optimize_mode req in
  match optimize_router P HAS_ROUTER origin stops destination mode with
  | Some answer => Ok answer
  | None =>
      let profile := _mode_to_osrm mode in
      let pts := [origin] ++ stops ++ [destination] in
      match
        r <-? _osrm_trip N profile pts;;
        ordered_latlon <-?
          comprehension (latitude_longitude P) (snd (fst r));;
        Returned {| ordered := ordered_latlon;
                    optimize_geometry := fst (fst r);
                    optimize_durationSeconds := snd r |}
      with
      | Returned answer => Ok answer
      | Raised e =>
          Raise (HTTPException 500 ("Optimize failed: " +:+ failure_str N e))
      end
  end.

(** ** Instances, to run the endpoints *)

(** A server that gives the same answer to every request. *)
Definition replies (j : json) : network := {|
  float_str := fun _ => "0.0";
  urlopen_json := fun _ => Returned j;
  wording := fun cls _ _ => cls
|}.

(** A server that cannot be reached. *)
Definition unreachable : network := {|
  float_str := fun _ => "0.0";
  urlopen_json := fun _ => Raised (External "<urlopen error timed out>");
  wording := fun cls _ _ => cls
|}.

Definition manila : LatLon :=
  {| lat := float_of_Z 14; lon := float_of_Z 121 |}.

Definition baguio : LatLon :=
  {| lat := float_of_Z 16; lon := float_of_Z 120 |}.

(** What OSRM answers for a route of 90 seconds. *)
Definition one_route : json :=
  JObject {[ "code" := JStr "Ok";
             "routes" :=
               JList [ JObject {[ "duration" := JInt 90;
                                  "geometry" :=
                                    JObject {[ "coordinates" :=
                                      JList [ JList [JInt 121; JInt 14];
                                              JList [JInt 120; JInt 16] ]
                                    ]} ]} ] ]}.

(** What OSRM answers when it finds no route. *)
Definition no_route : json :=
  JObject {[ "code" := JStr "NoRoute"; "routes" := JList [] ]}.

(** A router that knows one duration. *)
Definition fixed_router (s : value) : router_ml := {|
  ml_eta := fun _ _ _ => Some s;
  ml_route := fun _ _ _ _ => None;
  ml_optimize := fun _ _ _ _ => None
|}.

(** ** Words for the statements below *)

(** The waypoint OSRM reports at the point [p]: its location is
    [[lon, lat]]. *)
Definition waypoint_at (p : float * float) : json :=
  JObject {[ "location" := JList [JFloat (snd p); JFloat (fst p)] ]}.

(** A point of the request, as [_osrm_trip] hands it back. *)
Definition as_json (p : float * float) : json * json :=
  (JFloat (fst p), JFloat (snd p)).

(** A key that is missing, null or an empty list. *)
Definition nothing (x : option json) : Prop :=
  x = None \/ x = Some JNull \/ x = Some (JList []).

(** [-k <= x <= k] *)
Definition within (k : Z) (x : float) : bool :=
  fle (float_of_Z (- k)) x && fle x (float_of_Z k).

End Routing.

(** * Loading the spreadsheet: the names of the columns

    [load_parking_excel] reads every sheet with pandas. What it does to the
    column labels of a sheet is text processing of its own: the labels are
    trimmed and put in upper case, the known ones are renamed, and the sheet
    is given up unless a [lat] and a [lng] column come out. *)

(** [rename_map], by its items. *)
Definition rename_map : list (string * string) :=
  [ ("PARKING NAME", "name");
    ("DETAILS", "details");
    ("ADDRESS", "address");
    ("OPENING", "opening");
    ("CLOSING", "closing");
    ("LINK", "link");
    ("LATITUDE", "lat");
    ("LONGITUDE", "lng");
    ("GUARDS", "guards_raw");
    ("CCTVS", "cctvs_raw");
    ("INITIAL RATE", "initial_rate_raw");
    ("PWD/SC DISCOUNT", "discount_raw");
    ("STREET PARKING", "street_raw") ].

(** [x in columns] *)
Definition has (x : string) (columns : list string) : bool :=
  existsb (String.eqb x) columns.

(** [m.get(k)] for a dictionary given by its items. *)
Fixpoint assoc (k : string) (m : list (string * string)) : option string :=
  match m with
  | [] => None
  | (k', v) :: m' => if String.eqb k k' then Some v else assoc k m'
  end.

(** [[c.strip().upper() for c in df.columns]]; [None] when a label is not a
    text, which has no [strip] ([AttributeError]). *)
Fixpoint upper_columns (columns : list value) : option (list string) :=
  match columns with
  | [] => Some []
  | VStr s :: columns' =>
      match upper_columns columns' with
      | Some r => Some (upper (strip s) :: r)
      | None => None
      end
  | _ :: _ => None
  end.

(** [{k: v for k, v in rename_map.items() if k in df.columns}] *)
Definition actual_map (columns : list string) : list (string * string) :=
  List.filter (fun kv => has (fst kv) columns) rename_map.

(** The labels after [df.rename(columns=m)]: a label that is a key of [m] is
    replaced by its value. *)
Definition rename (m : list (string * string)) (columns : list string)
    : list string :=
  map (fun c => default c (assoc c m)) columns.

(** The labels of a sheet that passes the check of its columns and goes on
    to [dropna]; [None] when the sheet is given up before, by the [except]
    branch (a label is not a text) or by the [continue]. *)
Definition sheet_columns (columns : list value) : option (list string) :=
  match upper_columns columns with
  | None => None
  | Some upper_labels =>
      let renamed := rename (actual_map upper_labels) upper_labels in
      if negb (has "lat" renamed) || negb (has "lng" renamed)
      then None
      else Some renamed
  end.

(** The label a header ends with. *)
Definition label_of (header : string) : string :=
  let c := upper (strip header) in
  default c (assoc c rename_map).

(** ** Words and instances for the feature batch, the ranking and the
    distance *)

(** The record has coordinates that can be read: the loop does not skip
    it. *)
Definition readable (P : platform) (p : gmap string value) : bool :=
  match coordinates P p with
  | Ok _ => true
  | Raise _ => false
  end.






(** * Properties *)

(** ** Text *)

Lemma app_String (c : ascii) (s t : string) :
  String c s +:+ t = String c (s +:+ t).
Proof. reflexivity. Qed.

Lemma prefix_String (c d : ascii) (s t : string) :
  String.prefix (String c s) (String d t)
  = (if Ascii.eqb c d then String.prefix s t else false).
Proof.
  simpl. destruct (ascii_dec c d) as [->|Hne].
  - now rewrite Ascii.eqb_refl.
  - destruct (Ascii.eqb_spec c d); [contradiction | reflexivity].
Qed.

Lemma prefix_Occurs (sub s : string) :
  String.prefix sub s = true <-> exists suf, s = sub +:+ suf.
Proof.
  revert s. induction sub as [|c sub IH]; intros s.
  - split; [intros _; now exists s | intros _; now destruct s].
  - destruct s as [|d s].
    + split; [discriminate | intros [suf H]; discriminate].
    + rewrite prefix_String. destruct (Ascii.eqb_spec c d) as [->|Hne].
      * rewrite IH. split; intros [suf H]; exists suf.
        -- now rewrite app_String, H.
        -- rewrite app_String in H. now injection H.
      * split; [discriminate | intros [suf H]].
        rewrite app_String in H. injection H as H _. now symmetry in H.
Qed.

Lemma contains_Occurs (sub s : string) :
  contains sub s = true <-> Occurs sub s.
Proof.
  unfold Occurs. induction s as [|d s IH].
  - cbn [contains]. rewrite orb_false_r, prefix_Occurs. split.
    + intros [suf H]. now exists EmptyString, suf.
    + intros [[|c pre] [suf H]]; [now exists suf | discriminate].
  - change (contains sub (String d s))
      with (String.prefix sub (String d s) || contains sub s).
    rewrite orb_true_iff, prefix_Occurs, IH. split.
    + intros [[suf H] | (pre & suf & H)].
      * now exists EmptyString, suf.
      * exists (String d pre), suf. now rewrite app_String, H.
    + intros ([|c pre] & suf & H).
      * left. now exists suf.
      * right. rewrite app_String in H. injection H as _ H.
        now exists pre, suf.
Qed.


Lemma upper_char_caseless (c d : ascii) :
  caseless c = true -> Ascii.eqb c (upper_char d) = Ascii.eqb c d.
Proof.
  intros Hc. unfold upper_char. destruct (is_lower d) eqn:Hd; [|reflexivity].
  assert (Hup : between 65 90 (ascii_of_nat (code d - 32)) = true).
  { clear Hc c. revert Hd. each_char d; vm_compute; congruence. }
  unfold caseless in Hc. apply andb_true_iff in Hc as [H1 H2].
  apply negb_true_iff in H1, H2.
  destruct (Ascii.eqb_spec c (ascii_of_nat (code d - 32))) as [E|_];
    destruct (Ascii.eqb_spec c d) as [E'|_]; congruence.
Qed.

Lemma prefix_upper (sub s : string) :
  all_caseless sub = true ->
  String.prefix sub (upper s) = String.prefix sub s.
Proof.
  revert s. induction sub as [|c sub IH]; intros s H; [now destruct s|].
  simpl in H. apply andb_true_iff in H as [Hc Hs].
  destruct s as [|d s]; [reflexivity|].
  cbn [upper]. rewrite !prefix_String, upper_char_caseless, IH by assumption.
  reflexivity.
Qed.

Lemma contains_upper (sub s : string) :
  all_caseless sub = true -> contains sub (upper s) = contains sub s.
Proof.
  intros H. induction s as [|d s IH].
  - reflexivity.
  - change (upper (String d s)) with (String (upper_char d) (upper s)).
    change (contains sub (String (upper_char d) (upper s)))
      with (String.prefix sub (upper (String d s)) || contains sub (upper s)).
    rewrite (prefix_upper _ _ H), IH. reflexivity.
Qed.

Lemma lstrip_split (s : string) :
  exists ws, s = ws +:+ lstrip s /\ all_space ws = true.
Proof.
  induction s as [|c s (ws & E & H)].
  - now exists EmptyString.
  - simpl. destruct (is_space c) eqn:Hc.
    + exists (String c ws). simpl. rewrite Hc, H. now rewrite E at 1.
    + now exists EmptyString.
Qed.

Lemma lstrip_app (ws s : string) :
  all_space ws = true -> lstrip (ws +:+ s) = lstrip s.
Proof.
  induction ws as [|c ws IH]; [reflexivity|]. simpl.
  intros H. apply andb_true_iff in H as [-> H]. auto.
Qed.

Lemma lstrip_head (c : ascii) (s : string) :
  is_space c = false -> lstrip (String c s) = String c s.
Proof. intros H. simpl. now rewrite H. Qed.

Lemma rstrip_head (c : ascii) (s : string) :
  is_space c = false -> exists r, rstrip (String c s) = String c r.
Proof.
  intros H. simpl. destruct (rstrip s); rewrite ?H; eauto.
Qed.

Lemma lstrip_blank (s : string) :
  all_space s = true -> lstrip s = EmptyString.
Proof.
  induction s as [|c s IH]; [reflexivity|]. simpl.
  intros H. apply andb_true_iff in H as [-> H]. auto.
Qed.

Lemma lstrip_not_space (s t : string) (d : ascii) :
  lstrip s = String d t -> is_space d = false.
Proof.
  induction s as [|c s IH]; [discriminate|]. simpl.
  destruct (is_space c) eqn:Hc; [assumption|]. congruence.
Qed.

(** The first character of [strip s] is the first character of [s] that is
    not a blank. *)
Lemma strip_head (s : string) (c : ascii) :
  (exists r, strip s = String c r) <->
  (exists ws rest, s = ws +:+ String c rest /\ all_space ws = true
                   /\ is_space c = false).
Proof.
  unfold strip. split.
  - intros [r Hr]. destruct (lstrip_split s) as (ws & E & Hws).
    destruct (lstrip s) as [|d t] eqn:Hl; [discriminate|].
    pose proof (lstrip_not_space _ _ _ Hl) as Hd.
    destruct (rstrip_head d t Hd) as [r' Hr']. rewrite Hr' in Hr.
    injection Hr as -> _. now exists ws, t.
  - intros (ws & rest & -> & Hws & Hc).
    rewrite lstrip_app, lstrip_head by assumption. now apply rstrip_head.
Qed.

Lemma strip_empty (s : string) :
  strip s = EmptyString <-> all_space s = true.
Proof.
  unfold strip. split.
  - intros H. destruct (lstrip_split s) as (ws & E & Hws).
    destruct (lstrip s) as [|d t] eqn:Hl.
    + rewrite E. clear E. induction ws as [|c ws IH]; [reflexivity|].
      simpl in *. apply andb_true_iff in Hws as [-> Hws]. auto.
    + pose proof (lstrip_not_space _ _ _ Hl) as Hd.
      destruct (rstrip_head d t Hd) as [r' Hr']. congruence.
  - intros H. now rewrite lstrip_blank.
Qed.

(** ** The yes/no normalizer *)

Lemma startswith_char (s : string) (c : ascii) :
  startswith s (String c EmptyString) = true <-> exists r, s = String c r.
Proof.
  unfold startswith. rewrite prefix_Occurs. split; intros [r H]; now exists r.
Qed.

Lemma upper_head (s : string) (c : ascii) :
  (exists r, upper s = String c r) <->
  (exists d r, s = String d r /\ upper_char d = c).
Proof.
  split.
  - intros [r H]. destruct s as [|d s]; [discriminate|]. simpl in H.
    injection H as H _. now exists d, s.
  - intros (d & r & -> & <-). simpl. eauto.
Qed.

Lemma upper_char_Y (d : ascii) :
  upper_char d = "Y"%char <-> d = "y"%char \/ d = "Y"%char.
Proof.
  split; [|intros [->| ->]; reflexivity].
  each_char d; vm_compute; intros H; try discriminate H; auto.
Qed.

Lemma upper_char_N (d : ascii) :
  upper_char d = "N"%char <-> d = "n"%char \/ d = "N"%char.
Proof.
  split; [|intros [->| ->]; reflexivity].
  each_char d; vm_compute; intros H; try discriminate H; auto.
Qed.

(** The text, once stripped and upper-cased, starts with the capital [C]
    exactly when its first character that is not a blank is one of [cs]. *)
Lemma leading_letter (s : string) (C : ascii) (ok : ascii -> Prop) :
  (forall d, upper_char d = C <-> ok d) ->
  (forall d, ok d -> is_space d = false) ->
  startswith (upper (strip s)) (String C EmptyString) = true <->
  exists ws d rest, s = ws +:+ String d rest /\ all_space ws = true /\ ok d.
Proof.
  intros Hup Hsp. rewrite startswith_char, upper_head. split.
  - intros (d & r & Hs & Hd).
    destruct (proj1 (strip_head s d) (ex_intro _ r Hs)) as (ws & rest & E & Hws & _).
    exists ws, d, rest. repeat split; try assumption. now apply Hup.
  - intros (ws & d & rest & E & Hws & Hd).
    destruct (proj2 (strip_head s d)) as [r Hr].
    { exists ws, rest. repeat split; auto. }
    exists d, r. split; [assumption | now apply Hup].
Qed.


Lemma yn_to_int_str (s : string) :
  yn_to_int (VStr s) =
  if startswith (upper (strip s)) "Y" then 1 else 0.
Proof.
  unfold yn_to_int. destruct (startswith (upper (strip s)) "Y"); [reflexivity|].
  now destruct (startswith (upper (strip s)) "N").
Qed.

(** Claim C5. [yn_to_int] (the spec's [yesno_to_bit]) always answers 0 or 1. A text
    is trimmed and upper-cased: a leading [Y] gives 1, which happens exactly
    when the first character that is not a blank is [y] or [Y] (the blanks
    are the characters [str.strip] removes, the no-break space and NEL
    among them); a leading [N], and any other text, gives 0. A number gives 1 when it is truthy
    (non-zero; NaN counts as non-zero) and 0 otherwise. [None] and any other
    object give 0. In particular ["Yes"] gives 1, ["no"] gives 0, the empty
    text gives 0, [None] gives 0 and the integer 1 gives 1. *)
Theorem yn_to_int_bit :
  (forall val, yn_to_int val = 0 \/ yn_to_int val = 1) /\
  (forall s, startswith (upper (strip s)) "Y" = true ->
             yn_to_int (VStr s) = 1) /\
  (forall s, startswith (upper (strip s)) "N" = true ->
             yn_to_int (VStr s) = 0) /\
  (forall s, yn_to_int (VStr s) = 1 <->
             exists ws d rest,
               s = ws +:+ String d rest /\ all_space ws = true /\ is_y d) /\
  (forall n, yn_to_int (VInt n) = if n =? 0 then 0 else 1) /\
  (forall b, yn_to_int (VBool b) = if b then 1 else 0) /\
  (forall f, yn_to_int (VFloat f) = if feq f pos_zero then 0 else 1) /\
  yn_to_int VNone = 0 /\
  yn_to_int VOther = 0 /\
  yn_to_int (VStr "Yes") = 1 /\
  yn_to_int (VStr "no") = 0 /\
  yn_to_int (VStr "") = 0 /\
  yn_to_int (VInt 1) = 1.
Proof.
  assert (HY : forall s, yn_to_int (VStr s) = 1 <->
                         startswith (upper (strip s)) "Y" = true).
  { intros s. rewrite yn_to_int_str.
    destruct (startswith (upper (strip s)) "Y"); split; congruence. }
  split.
  { intros [ |s|n|b|f| ]; try (left; reflexivity).
    - rewrite yn_to_int_str. destruct (startswith _ _); auto.
    - unfold yn_to_int; simpl. destruct (n =? 0); auto.
    - destruct b; auto.
    - unfold yn_to_int; simpl. destruct (feq f pos_zero); auto. }
  split. { intros s. apply HY. }
  split.
  { intros s H. unfold yn_to_int.
    destruct (startswith (upper (strip s)) "Y") eqn:E; [|now rewrite H].
    apply startswith_char in E as [r E]. apply startswith_char in H as [r' H].
    congruence. }
  split.
  { intros s. rewrite HY.
    apply (leading_letter s "Y" is_y upper_char_Y).
    intros d [->| ->]; reflexivity. }
  split. { intros n. unfold yn_to_int; simpl. now destruct (n =? 0). }
  split. { intros b. now destruct b. }
  split. { intros f. unfold yn_to_int; simpl. now destruct (feq f pos_zero). }
  repeat split.
Qed.

Lemma yn_to_int_bit_witness :
  yn_to_int (VStr "  yes, two guards") = 1 /\
  yn_to_int (VStr "None at night") = 0 /\
  yn_to_int (VStr (String "160" (String "133" "Yes"))) = 1.
Proof.
  destruct yn_to_int_bit as (_ & HY & HN & H1 & _).
  split; [apply HY; reflexivity|]. split; [apply HN; reflexivity|].
  apply H1. exists (String "160" (String "133" EmptyString)), "Y"%char, "es".
  split; [reflexivity|]. split; [reflexivity | now right].
Defined.

(** ** The availability evaluator *)

Lemma has_247_Occurs (s : string) :
  has_247 (VStr s) = true <-> Occurs "24/7" s.
Proof.
  unfold has_247. rewrite contains_upper by reflexivity. apply contains_Occurs.
Qed.

Lemma has_247_upper (s : string) :
  Occurs "24/7" (upper s) <-> Occurs "24/7" s.
Proof.
  rewrite <- !contains_Occurs. now rewrite contains_upper.
Qed.

Lemma compute_open_now_parsed (P : platform) (o c : string) (hour a b : Z) :
  ~ Occurs "24/7" o -> ~ Occurs "24/7" c ->
  parse_hour_from_str P (VStr o) = Some a ->
  parse_hour_from_str P (VStr c) = Some b ->
  compute_open_now P (VStr o) (VStr c) hour =
  if a =? b then 1
  else if a <? b then int_of_bool ((a <=? hour) && (hour <? b))
  else int_of_bool ((a <=? hour) || (hour <? b)).
Proof.
  intros Ho Hc Ha Hb. unfold compute_open_now.
  destruct (has_247 (VStr o)) eqn:E1; [now apply has_247_Occurs in E1|].
  destruct (has_247 (VStr c)) eqn:E2; [now apply has_247_Occurs in E2|].
  now rewrite Ha, Hb.
Qed.

(** Claim C1. [compute_open_now] (the spec's [is_open_now]) follows the five steps
    in their order, for every opening text, closing text and hour: (1) when
    either text contains ["24/7"], in any letter case, it answers open;
    (2) otherwise, when [parse_hour_from_str] fails on either text, it
    answers open; (3) otherwise, when the two parsed hours are equal, it
    answers open; (4) when the opening hour is below the closing hour it
    answers open exactly when [opening <= hour < closing]; (5) when the
    opening hour is above the closing hour it answers open exactly when
    [hour >= opening] or [hour < closing]. The answer is always 0 or 1. The
    four examples of the specification hold, those with clock texts for a
    time parser that reads them as pandas does. *)
Theorem compute_open_now_precedence (P : platform) (opening closing : string)
    (hour : Z) :
  let r := compute_open_now P (VStr opening) (VStr closing) hour in
  let open_h := parse_hour_from_str P (VStr opening) in
  let close_h := parse_hour_from_str P (VStr closing) in
  let around_the_clock :=
    Occurs "24/7" (upper opening) \/ Occurs "24/7" (upper closing) in
  (r = 0 \/ r = 1) /\
  (around_the_clock -> r = 1) /\
  (~ around_the_clock -> open_h = None \/ close_h = None -> r = 1) /\
  (forall a b, ~ around_the_clock -> open_h = Some a -> close_h = Some b ->
     (a = b -> r = 1) /\
     (a < b -> (r = 1 <-> a <= hour < b)) /\
     (a > b -> (r = 1 <-> hour >= a \/ hour < b))) /\
  compute_open_now P (VStr "24/7") (VStr "24/7") 3 = 1 /\
  (to_datetime_hour P "7:00 AM" = Some 7 ->
   to_datetime_hour P "10:00 PM" = Some 22 ->
   compute_open_now P (VStr "7:00 AM") (VStr "10:00 PM") 23 = 0) /\
  (to_datetime_hour P "8:00 PM" = Some 20 ->
   to_datetime_hour P "4:00 AM" = Some 4 ->
   compute_open_now P (VStr "8:00 PM") (VStr "4:00 AM") 1 = 1) /\
  (to_datetime_hour P "garbage" = None ->
   compute_open_now P (VStr "garbage") (VStr "also garbage") 12 = 1).
Proof.
  intros r open_h close_h has.
  assert (Hhas : has <-> Occurs "24/7" opening \/ Occurs "24/7" closing).
  { unfold has. now rewrite !has_247_upper. }
  assert (Hbit : r = 0 \/ r = 1).
  { unfold r, compute_open_now.
    destruct (has_247 (VStr opening)); auto.
    destruct (has_247 (VStr closing)); auto.
    destruct (parse_hour_from_str P (VStr opening)) as [a|]; auto.
    destruct (parse_hour_from_str P (VStr closing)) as [b|]; auto.
    destruct (a =? b); auto.
    destruct (a <? b); [destruct (_ && _) | destruct (_ || _)]; auto. }
  split; [exact Hbit|]. split; [|split; [|split]].
  - intros H. apply Hhas in H. unfold r, compute_open_now.
    destruct H as [H|H]; apply has_247_Occurs in H; rewrite H; [reflexivity|].
    now destruct (has_247 (VStr opening)).
  - intros _ H. unfold r, compute_open_now.
    destruct (has_247 (VStr opening)); [reflexivity|].
    destruct (has_247 (VStr closing)); [reflexivity|].
    fold open_h close_h. destruct H as [-> | ->]; [reflexivity|].
    now destruct open_h.
  - intros a b Hno Ha Hb.
    assert (Ho : ~ Occurs "24/7" opening) by (intros H; apply Hno, Hhas; auto).
    assert (Hc : ~ Occurs "24/7" closing) by (intros H; apply Hno, Hhas; auto).
    pose proof (compute_open_now_parsed P _ _ hour a b Ho Hc Ha Hb) as E.
    fold r in E. rewrite E. clear E. split; [|split].
    + intros ->. now rewrite Z.eqb_refl.
    + intros Hlt.
      destruct (Z.eqb_spec a b); [lia|]. destruct (Z.ltb_spec a b); [|lia].
      destruct (Z.leb_spec a hour); destruct (Z.ltb_spec hour b); simpl;
        split; intros; try lia; try discriminate; reflexivity.
    + intros Hgt.
      destruct (Z.eqb_spec a b); [lia|]. destruct (Z.ltb_spec a b); [lia|].
      destruct (Z.leb_spec a hour); destruct (Z.ltb_spec hour b); simpl;
        split; intros; try lia; try discriminate; reflexivity.
  - split; [reflexivity|]. split; [|split].
    + intros H1 H2. unfold compute_open_now, parse_hour_from_str.
      change (strip "7:00 AM") with "7:00 AM"%string.
      change (strip "10:00 PM") with "10:00 PM"%string.
      cbn -[to_datetime_hour]. now rewrite H1, H2.
    + intros H1 H2. unfold compute_open_now, parse_hour_from_str.
      change (strip "8:00 PM") with "8:00 PM"%string.
      change (strip "4:00 AM") with "4:00 AM"%string.
      cbn -[to_datetime_hour]. now rewrite H1, H2.
    + intros H1. unfold compute_open_now, parse_hour_from_str.
      change (strip "garbage") with "garbage"%string.
      cbn -[to_datetime_hour]. now rewrite H1.
Qed.

Lemma compute_open_now_precedence_witness :
  compute_open_now test_platform (VStr "7:00 AM") (VStr "10:00 PM") 23 = 0 /\
  compute_open_now test_platform (VStr "8:00 PM") (VStr "4:00 AM") 1 = 1 /\
  compute_open_now test_platform (VStr "garbage") (VStr "also garbage") 12 = 1 /\
  compute_open_now test_platform (VStr "Open 24/7") (VStr "") 5 = 1 /\
  compute_open_now test_platform (VStr "N/A") (VStr "9 PM") 23 = 1 /\
  (compute_open_now test_platform (VStr "6:00 AM") (VStr "9:00 PM") 20 = 1
   <-> 6 <= 20 < 21).
Proof.
  pose proof (compute_open_now_precedence test_platform "7:00 AM" "10:00 PM" 23)
    as (_ & _ & _ & _ & _ & E2 & E3 & E4).
  split; [apply E2; reflexivity|].
  split; [apply E3; reflexivity|].
  split; [apply E4; reflexivity|].
  split.
  { pose proof (compute_open_now_precedence test_platform "Open 24/7" "" 5)
      as (_ & H & _).
    apply H. left. exists "OPEN "%string, EmptyString. reflexivity. }
  split.
  { pose proof (compute_open_now_precedence test_platform "N/A" "9 PM" 23)
      as (_ & _ & H & _).
    apply H.
    - intros [H'|H']; apply contains_Occurs in H'; discriminate H'.
    - left. reflexivity. }
  pose proof (compute_open_now_precedence test_platform "6:00 AM" "9:00 PM" 20)
    as (_ & _ & _ & H & _).
  apply (H 6 21).
  - intros [H'|H']; apply contains_Occurs in H'; discriminate H'.
  - reflexivity.
  - reflexivity.
  - lia.
Defined.

(** ** The order of floats

    Away from NaN, [<] on floats is a strict weak order. *)




Lemma fge_key (x y : float) :
  is_nan x = false -> is_nan y = false ->
  (fge x y = true <-> ~ key_lt (fkey x) (fkey y)).
Proof.
  unfold fge, SFleb, key_lt.
  destruct x as [[]|[]| |[] m1 e1], y as [[]|[]| |[] m2 e2];
    intros Hx Hy; try discriminate; simpl; float_cases; simpl;
    split; intros; try lia; try discriminate; try reflexivity.
Qed.

(** ** [list.sort] *)

Section SortFacts.

Context {A : Type}.
Variable key : A -> float.

















End SortFacts.

(** ** The loop over the catalog *)


Lemma feature_row_index (P : platform) (req : ParkingRequest) (idx : nat)
    (p : gmap string value) (row : list num) (i : info) :
  feature_row P req idx p = Ok (Some (row, i)) ->
  info_index i = idx /\ length row = 7%nat.
Proof.
  unfold feature_row.
  destruct (coordinates P p) as [[lat lng]|]; [|discriminate].
  destruct (haversine_km P _ _ lat lng) as [d|]; [|discriminate]. simpl.
  destruct (rate_to_float P _) as [r|]; [|discriminate]. simpl.
  intros H. injection H as <- <-. split; reflexivity.
Qed.

Lemma build_rows_facts (P : platform) (req : ParkingRequest)
    (ps : list (gmap string value)) :
  forall (idx : nat) (rows : list (list num)) (infos : list info),
  build_rows P req idx ps = Ok (rows, infos) ->
  length rows = length infos /\
  (length infos <= length ps)%nat /\
  Forall (fun row => length row = 7%nat) rows /\
  Forall (fun i => (idx <= info_index i)%nat) infos /\
  StronglySorted index_lt infos.
Proof.
  induction ps as [|p ps IH]; intros idx rows infos; simpl.
  - intros H. injection H as <- <-. repeat split; auto; constructor.
  - destruct (feature_row P req idx p) as [r|] eqn:Hr; [|discriminate]. simpl.
    destruct (build_rows P req (S idx) ps) as [[rows' infos']|] eqn:Hb;
      [|discriminate]. simpl.
    destruct (IH _ _ _ Hb) as (H1 & H2 & H3 & H4 & H5).
    assert (H4' : Forall (fun i => (idx <= info_index i)%nat) infos').
    { eapply List.Forall_impl; [|exact H4]. simpl. intros; lia. }
    destruct r as [[row i]|]; intros H; injection H as <- <-.
    + destruct (feature_row_index _ _ _ _ _ _ Hr) as [Hi Hlen].
      split; [simpl; congruence|]. split; [simpl; lia|].
      split; [now constructor|]. split; [constructor; [lia | exact H4']|].
      constructor; [exact H5|].
      eapply List.Forall_impl; [|exact H4]. unfold index_lt. simpl. intros; lia.
    + repeat split; auto; lia.
Qed.

Lemma attach_scores_facts (infos : list info) (scores : list float) :
  let l := attach_scores infos scores in
  length l = Nat.min (length infos) (length scores) /\
  (forall x, In x l -> In (entry x) infos /\ In (score x) scores) /\
  (StronglySorted index_lt infos ->
   StronglySorted (fun a b => index_lt (entry a) (entry b)) l).
Proof.
  unfold attach_scores. revert scores.
  assert (Hnil : forall l : list scored, l = [] ->
            length l = 0%nat /\
            (forall x, In x l -> False) /\
            StronglySorted (fun a b => index_lt (entry a) (entry b)) l).
  { intros l ->. repeat split; [intros x [] | constructor]. }
  induction infos as [|i infos IH]; intros scores.
  { destruct (Hnil (zip_with (fun i s => {| entry := i; score := s |}) [] scores))
      as (H1 & H2 & H3); [reflexivity|].
    cbv zeta. split; [exact H1|]. split; [|auto]. intros x Hx. now apply H2 in Hx. }
  destruct scores as [|s scores].
  { cbv zeta. simpl. split; [reflexivity|]. split; [intros x []|].
    intros _. constructor. }
  cbv zeta. simpl.
  destruct (IH scores) as (H1 & H2 & H3).
  split; [congruence|]. split.
  - intros x [<-|Hx]; simpl; [auto|]. destruct (H2 x Hx). auto.
  - intros Hs. apply StronglySorted_cons in Hs as [Hall Hs].
    constructor; [now apply H3|].
    apply List.Forall_forall. intros x Hx. simpl.
    rewrite List.Forall_forall in Hall. apply Hall. now apply H2.
Qed.

(** ** The endpoint, case by case *)


Lemma recommend_Ok (P : platform) (model : option predictor)
    (cat : list (gmap string value)) (req : ParkingRequest) (top_k : Z)
    (resp : response) :
  recommend P model cat req top_k = Ok resp <->
  exists m rows infos scores,
    model = Some m /\ cat <> [] /\
    build_rows P req 0 cat = Ok (rows, infos) /\ rows <> [] /\
    m (np_array rows) = Ok scores /\
    resp = {| user_location := (user_lat req, user_lng req, time_of_day req);
              recommendations := slice_to (ranked infos scores) top_k |}.
Proof.
  unfold recommend, ranked. split.
  - destruct model as [m|]; [|discriminate].
    destruct cat as [|p ps]; [discriminate|].
    destruct (build_rows P req 0 (p :: ps)) as [[rows infos]|]; [|discriminate].
    unfold bind. destruct rows as [|row rows]; [discriminate|].
    destruct (m (np_array (row :: rows))) as [scores|] eqn:Hm; [|discriminate].
    intros H. injection H as <-.
    exists m, (row :: rows), infos, scores. repeat split; congruence.
  - intros (m & rows & infos & scores & -> & Hc & Hb & Hr & Hm & ->).
    destruct cat as [|p ps]; [congruence|]. rewrite Hb. unfold bind.
    destruct rows as [|row rows]; [congruence|]. now rewrite Hm.
Qed.

Lemma recommend_Raise (P : platform) (model : option predictor)
    (cat : list (gmap string value)) (req : ParkingRequest) (top_k : Z)
    (e : exn) :
  recommend P model cat req top_k = Raise e <->
  (model = None /\ e = HTTPException 500 "Model not loaded.") \/
  (model <> None /\ cat = [] /\
   e = HTTPException 500 "No parking data loaded from Excel.") \/
  (model <> None /\ cat <> [] /\ build_rows P req 0 cat = Raise e) \/
  (model <> None /\ cat <> [] /\
   (exists infos, build_rows P req 0 cat = Ok ([], infos)) /\
   e = HTTPException 500 "No valid parking rows to score.") \/
  (exists m rows infos e',
     model = Some m /\ cat <> [] /\
     build_rows P req 0 cat = Ok (rows, infos) /\ rows <> [] /\
     m (np_array rows) = Raise e' /\
     e = HTTPException 500 ("Model prediction failed: " +:+ exn_str e')).
Proof.
  unfold recommend. destruct model as [m|].
  2:{ split; [intros H; injection H as <-; auto|].
      intros [[_ ->]|[(H & _)|[(H & _)|[(H & _)|(m & ? & ? & ? & H & _)]]]];
        congruence. }
  destruct cat as [|p ps].
  { split; [intros H; injection H as <-; right; left; repeat split; congruence|].
    intros [[H _]|[(_ & _ & ->)|[(_ & H & _)|[(_ & H & _)|(? & ? & ? & ? & _ & H & _)]]]];
      congruence. }
  destruct (build_rows P req 0 (p :: ps)) as [[rows infos]|e0] eqn:Hb; unfold bind.
  2:{ split.
      - intros H. injection H as <-. right; right; left. repeat split; congruence.
      - intros [[H _]|[(_ & H & _)|[(_ & _ & H)|[(_ & _ & [? H] & _)|(? & ? & ? & ? & _ & _ & H & _)]]]];
          congruence. }
  destruct rows as [|row rows].
  { split.
    - intros H. injection H as <-. right; right; right; left.
      repeat split; try congruence. now exists infos.
    - intros [[H _]|[(_ & H & _)|[(_ & _ & H)|[(_ & _ & _ & ->)|(? & ? & ? & ? & _ & _ & H & H' & _)]]]];
        congruence. }
  destruct (m (np_array (row :: rows))) as [scores|e'] eqn:Hm.
  - split; [discriminate|].
    intros [[H _]|[(_ & H & _)|[(_ & _ & H)|[(_ & _ & [? H] & _)|(? & ? & ? & ? & H1 & _ & H2 & _ & H3 & _)]]]];
      congruence.
  - split.
    + intros H. injection H as <-. right; right; right; right.
      exists m, (row :: rows), infos, e'. repeat split; congruence.
    + intros [[H _]|[(_ & H & _)|[(_ & _ & H)|[(_ & _ & [? H] & _)|(? & ? & ? & ? & H1 & _ & H2 & _ & H3 & ->)]]]];
        congruence.
Qed.

(** ** The pattern for a rate *)

Lemma app_assoc_string (a b c : string) : (a +:+ b) +:+ c = a +:+ (b +:+ c).
Proof. induction a as [|x a IH]; [reflexivity|]. now rewrite !app_String, IH. Qed.

Lemma span_digits_split (s d r : string) :
  span_digits s = (d, r) ->
  s = d +:+ r /\ all_digits d = true /\ digit_free_head r = true.
Proof.
  revert d r. induction s as [|c s IH]; intros d r; simpl.
  - intros H. injection H as <- <-. auto.
  - destruct (is_digit c) eqn:Hc.
    + destruct (span_digits s) as [d' r'] eqn:E. intros H. injection H as <- <-.
      destruct (IH d' r' eq_refl) as (-> & Hd & Hr). simpl. rewrite Hc. auto.
    + intros H. injection H as <- <-. simpl. now rewrite Hc.
Qed.

Lemma span_digits_app (d r : string) :
  all_digits d = true -> digit_free_head r = true ->
  span_digits (d +:+ r) = (d, r).
Proof.
  intros Hd Hr. induction d as [|c d IH]; simpl.
  - destruct r as [|c r]; [reflexivity|]. simpl in *.
    now destruct (is_digit c).
  - simpl in Hd. apply andb_true_iff in Hd as [Hc Hd].
    now rewrite Hc, (IH Hd).
Qed.

Lemma span_digits_all (d : string) :
  all_digits d = true -> span_digits d = (d, EmptyString).
Proof.
  intros Hd. induction d as [|c d IH]; [reflexivity|]. simpl in *.
  apply andb_true_iff in Hd as [Hc Hd]. now rewrite Hc, (IH Hd).
Qed.

Lemma digit_free_head_dot (r : string) :
  digit_free_head (String "."%char r) = true.
Proof. reflexivity. Qed.

Lemma digits_value_from_nonneg (s : string) (acc : Z) :
  0 <= acc -> 0 <= digits_value_from acc s.
Proof.
  revert acc. induction s as [|c s IH]; intros acc H; simpl; [exact H|].
  apply IH. unfold digit_value. lia.
Qed.

Lemma digits_value_nonneg (s : string) : 0 <= digits_value s.
Proof. apply digits_value_from_nonneg. lia. Qed.

Lemma all_digits_app (a b : string) :
  all_digits (a +:+ b) = all_digits a && all_digits b.
Proof.
  induction a as [|c a IH]; [reflexivity|]. simpl.
  now rewrite IH, andb_assoc.
Qed.

Lemma plain_decimal_int (d : string) :
  nonempty d = true -> all_digits d = true ->
  plain_decimal d = Some (digits_value d, O).
Proof.
  intros Hn Hd. unfold plain_decimal. now rewrite (span_digits_all d Hd), Hn.
Qed.

Lemma plain_decimal_frac (d1 d2 : string) :
  nonempty d1 = true -> all_digits d1 = true ->
  nonempty d2 = true -> all_digits d2 = true ->
  plain_decimal (d1 +:+ String "."%char d2)
  = Some (digits_value (d1 +:+ d2), String.length d2).
Proof.
  intros Hn1 Hd1 Hn2 Hd2. unfold plain_decimal.
  rewrite (span_digits_app d1 _ Hd1 (digit_free_head_dot d2)).
  now rewrite Hn1, Hn2, Hd2.
Qed.

(** What the pattern matches at the head of a text that starts with the
    digits [d1]. *)
Lemma match_number_here_int (d1 rest : string) :
  all_digits d1 = true -> digit_free_head rest = true ->
  fraction_head rest = false ->
  match_number_here (d1 +:+ rest) = d1.
Proof.
  intros Hd Hr Hf. unfold match_number_here.
  rewrite (span_digits_app d1 rest Hd Hr).
  destruct rest as [|c rest]; [reflexivity|].
  destruct (Ascii.eqb_spec c "."%char) as [->|Hc].
  - destruct rest as [|c' rest]; [reflexivity|]. simpl in Hf.
    simpl. now rewrite Hf.
  - destruct c as [[] [] [] [] [] [] [] []]; try reflexivity. now elim Hc.
Qed.

Lemma match_number_here_frac (d1 d2 rest : string) :
  all_digits d1 = true ->
  nonempty d2 = true -> all_digits d2 = true -> digit_free_head rest = true ->
  match_number_here (d1 +:+ String "."%char (d2 +:+ rest))
  = d1 +:+ String "."%char d2.
Proof.
  intros Hd1 Hn2 Hd2 Hr. unfold match_number_here.
  rewrite (span_digits_app d1 _ Hd1 (digit_free_head_dot _)).
  rewrite (span_digits_app d2 rest Hd2 Hr).
  now destruct d2.
Qed.

(** The match is a plain decimal numeral, whatever the text. *)
Lemma match_number_here_plain (s : string) :
  digit_free_head s = false ->
  exists n k, plain_decimal (match_number_here s) = Some (n, k) /\ 0 <= n.
Proof.
  intros Hs. unfold match_number_here.
  destruct (span_digits s) as [d1 r] eqn:E1.
  destruct (span_digits_split s d1 r E1) as (-> & Hd1 & Hr).
  assert (Hn1 : nonempty d1 = true).
  { destruct d1 as [|c d1]; [|reflexivity].
    change (EmptyString +:+ r) with r in Hs. congruence. }
  assert (Hint : exists n k, plain_decimal d1 = Some (n, k) /\ 0 <= n).
  { exists (digits_value d1), O. split; [now apply plain_decimal_int|].
    apply digits_value_nonneg. }
  destruct r as [|c r]; [exact Hint|].
  destruct (Ascii.eqb_spec c "."%char) as [->|Hc].
  2:{ destruct c as [[] [] [] [] [] [] [] []]; try exact Hint. now elim Hc. }
  destruct (span_digits r) as [d2 r'] eqn:E2.
  destruct (span_digits_split r d2 r' E2) as (-> & Hd2 & Hr').
  destruct d2 as [|c2 d2]; [exact Hint|].
  exists (digits_value (d1 +:+ String c2 d2)), (String.length (String c2 d2)).
  split; [now apply plain_decimal_frac | apply digits_value_nonneg].
Qed.

Lemma re_search_number_none (s : string) :
  re_search_number s = None <-> no_digit s = true.
Proof.
  induction s as [|c s IH]; simpl; [tauto|].
  destruct (is_digit c); simpl; [split; discriminate | exact IH].
Qed.

Lemma re_search_number_skip (pre t : string) :
  no_digit pre = true -> digit_free_head t = false ->
  re_search_number (pre +:+ t) = Some (match_number_here t).
Proof.
  intros Hp Ht. induction pre as [|c pre IH]; simpl.
  - destruct t as [|c t]; [discriminate|]. simpl in Ht.
    apply negb_false_iff in Ht. simpl. now rewrite Ht.
  - simpl in Hp. apply andb_true_iff in Hp as [Hc Hp].
    apply negb_true_iff in Hc. rewrite Hc. auto.
Qed.

Lemma re_search_number_plain (s g : string) :
  re_search_number s = Some g ->
  exists n k, plain_decimal g = Some (n, k) /\ 0 <= n.
Proof.
  induction s as [|c s IH]; simpl; [discriminate|].
  destruct (is_digit c) eqn:Hc; [|exact IH].
  intros H. injection H as <-. apply match_number_here_plain.
  simpl. now rewrite Hc.
Qed.

(** ** The sign of a rounded float *)

Lemma shr_1_nonneg (mrs : shr_record) :
  0 <= shr_m mrs -> 0 <= shr_m (shr_1 mrs).
Proof.
  destruct mrs as [m r s]. simpl.
  destruct m as [|[p|p|]|[p|p|]]; simpl; lia.
Qed.

Lemma iter_shr_1_nonneg (p : positive) (mrs : shr_record) :
  0 <= shr_m mrs -> 0 <= shr_m (SpecFloat.iter_pos shr_1 p mrs).
Proof.
  revert mrs. induction p as [p IH|p IH|]; intros mrs H; simpl;
    auto using shr_1_nonneg.
Qed.

Lemma shr_fexp_nonneg (m e : Z) (l : location) :
  0 <= m -> 0 <= shr_m (fst (shr_fexp prec emax m e l)).
Proof.
  intros H. unfold shr_fexp, shr.
  assert (H0 : 0 <= shr_m (shr_record_of_loc m l)).
  { destruct l as [|[]]; exact H. }
  destruct (fexp prec emax (Zdigits2 m + e) - e); simpl; auto.
  now apply iter_shr_1_nonneg.
Qed.

Lemma round_nearest_even_nonneg (m : Z) (l : location) :
  0 <= m -> 0 <= round_nearest_even m l.
Proof.
  intros H. destruct l as [|[]]; simpl; try lia. destruct (Z.even m); lia.
Qed.

Lemma binary_round_aux_signed (sx : bool) (mx ex : Z) (lx : location) :
  0 <= mx -> signed sx (binary_round_aux prec emax sx mx ex lx).
Proof.
  intros H. unfold binary_round_aux.
  pose proof (shr_fexp_nonneg mx ex lx H) as H1.
  destruct (shr_fexp prec emax mx ex lx) as [mrs' e']. simpl in H1.
  pose proof (shr_fexp_nonneg _ e' loc_Exact
                (round_nearest_even_nonneg _ (loc_of_shr_record mrs') H1)) as H2.
  destruct (shr_fexp prec emax _ e' loc_Exact) as [mrs'' e'']. simpl in H2.
  destruct (shr_m mrs'') as [|m|m]; simpl; [reflexivity| |lia].
  destruct (e'' <=? emax - prec); reflexivity.
Qed.

Lemma float_of_Z_signed (n : Z) : signed (n <? 0) (float_of_Z n).
Proof.
  unfold float_of_Z, binary_normalize, binary_round.
  destruct n as [|p|p]; [reflexivity| |].
  - destruct (shl_align p 0 _) as [mz ez].
    now apply (binary_round_aux_signed false).
  - destruct (shl_align p 0 _) as [mz ez].
    now apply (binary_round_aux_signed true).
Qed.

Lemma decimal_to_float_signed (n : Z) (k : nat) :
  signed false (decimal_to_float n k).
Proof.
  unfold decimal_to_float. destruct n as [|p|p]; try reflexivity.
  unfold fdiv, SFdiv, SFdiv_core_binary.
  set (s := 0 - 0 - _).
  set (m' := match s with Z.pos _ => Z.shiftl (Z.pos p) s | 0 => Z.pos p
                        | Z.neg _ => 0 end).
  assert (Hm : 0 <= m').
  { unfold m'. destruct s; try lia. apply Z.shiftl_nonneg. lia. }
  pose proof (Z.div_pos m' (Z.pos (pow10 k)) Hm ltac:(lia)) as Hq.
  unfold Z.div in Hq. destruct (Z.div_eucl m' (Z.pos (pow10 k))) as [q r].
  now apply binary_round_aux_signed.
Qed.

Lemma signed_nonneg (f : float) :
  signed false f -> fge f pos_zero = true /\ flt f pos_zero = false.
Proof. destruct f as [[]|[]| |[] m e]; simpl; intros H; now try discriminate H. Qed.

Lemma signed_neg (f : float) (s : bool) :
  signed s f -> flt f pos_zero = true -> s = true.
Proof. destruct f as [[]|[]| |[] m e]; simpl; intros H; now try discriminate. Qed.

(** ** The rate normalizer *)

Lemma digits_head (d rest : string) :
  nonempty d = true -> all_digits d = true ->
  digit_free_head (d +:+ rest) = false.
Proof.
  destruct d as [|c d]; [discriminate|]. intros _ H. simpl in H.
  apply andb_true_iff in H as [Hc _]. rewrite app_String. simpl.
  now rewrite Hc.
Qed.

Lemma rate_to_float_str (P : platform) (s : string) :
  rate_to_float P (VStr s) =
  match re_search_number (remove_commas s) with
  | Some g =>
      match plain_decimal g with
      | Some (n, k) => Ok (decimal_to_float n k)
      | None => float_of_str P g
      end
  | None => Ok pos_zero
  end.
Proof.
  unfold rate_to_float. simpl. destruct (re_search_number _) as [g|]; [|reflexivity].
  unfold float_of_str. now destruct (plain_decimal g) as [[n k]|].
Qed.

Lemma rate_to_float_str_nonneg (P : platform) (s : string) :
  exists r, rate_to_float P (VStr s) = Ok r /\ signed false r.
Proof.
  rewrite rate_to_float_str.
  destruct (re_search_number (remove_commas s)) as [g|] eqn:E.
  - destruct (re_search_number_plain _ g E) as (n & k & -> & _).
    eexists. split; [reflexivity | apply decimal_to_float_signed].
  - now exists pos_zero.
Qed.

(** Claim C6, as amended. [rate_to_float] (the spec's [rate_to_number]) answers a
    float for every text, every float, every [None] and every integer within
    the range of a float: a number that is not NaN is returned as it is
    (an integer as the float nearest to it), so a negative number comes back
    negative; NaN gives 0.0; a text gives the float of the first run of
    digits, with the digits after a dot that follows it, found once its
    commas are removed, and 0.0 when it has no digit; [None] and any other
    object give 0.0. For a text the answer is never below 0.0, and an answer
    below 0.0 arises from a negative number only. In particular
    ["PHP 20.00"] gives 20.0, the empty text gives 0.0 and the integer 15
    gives 15.0. *)
Theorem rate_to_float_cases (P : platform) :
  (forall f, is_nan f = false -> rate_to_float P (VFloat f) = Ok f) /\
  rate_to_float P (VFloat S754_nan) = Ok pos_zero /\
  (forall n, is_inf (float_of_Z n) = false ->
     rate_to_float P (VInt n) = Ok (float_of_Z n)) /\
  (forall b, rate_to_float P (VBool b) = Ok (float_of_Z (int_of_bool b))) /\
  (forall s pre d1 rest,
     remove_commas s = pre +:+ d1 +:+ rest ->
     no_digit pre = true -> nonempty d1 = true -> all_digits d1 = true ->
     digit_free_head rest = true -> fraction_head rest = false ->
     rate_to_float P (VStr s) = Ok (decimal_to_float (digits_value d1) 0)) /\
  (forall s pre d1 d2 rest,
     remove_commas s = pre +:+ d1 +:+ String "."%char (d2 +:+ rest) ->
     no_digit pre = true -> nonempty d1 = true -> all_digits d1 = true ->
     nonempty d2 = true -> all_digits d2 = true ->
     digit_free_head rest = true ->
     rate_to_float P (VStr s)
     = Ok (decimal_to_float (digits_value (d1 +:+ d2)) (String.length d2))) /\
  (forall s, no_digit (remove_commas s) = true ->
     rate_to_float P (VStr s) = Ok pos_zero) /\
  rate_to_float P VNone = Ok pos_zero /\
  rate_to_float P VOther = Ok pos_zero /\
  (forall s, exists r,
     rate_to_float P (VStr s) = Ok r /\ fge r pos_zero = true) /\
  (forall val r, rate_to_float P val = Ok r -> flt r pos_zero = true ->
     (exists n, val = VInt n /\ n < 0) \/
     (exists f, val = VFloat f /\ flt f pos_zero = true)) /\
  rate_to_float P (VStr "PHP 20.00") = Ok (float_of_Z 20) /\
  rate_to_float P (VStr "") = Ok pos_zero /\
  rate_to_float P (VInt 15) = Ok (float_of_Z 15).
Proof.
  split. { intros f Hf. unfold rate_to_float. simpl. now rewrite Hf. }
  split. { reflexivity. }
  split.
  { intros n Hn. unfold rate_to_float, float_of_value, float_of_int. simpl.
    now rewrite Hn. }
  split. { intros b. reflexivity. }
  split.
  { intros s pre d1 rest E Hp Hn Hd Hr Hf. rewrite rate_to_float_str, E.
    rewrite re_search_number_skip; [|exact Hp|now apply digits_head].
    rewrite (match_number_here_int d1 rest Hd Hr Hf).
    now rewrite (plain_decimal_int d1 Hn Hd). }
  split.
  { intros s pre d1 d2 rest E Hp Hn1 Hd1 Hn2 Hd2 Hr.
    rewrite rate_to_float_str, E.
    rewrite re_search_number_skip; [|exact Hp|now apply digits_head].
    rewrite (match_number_here_frac d1 d2 rest Hd1 Hn2 Hd2 Hr).
    now rewrite (plain_decimal_frac d1 d2 Hn1 Hd1 Hn2 Hd2). }
  split.
  { intros s Hs. rewrite rate_to_float_str.
    now rewrite (proj2 (re_search_number_none _) Hs). }
  split. { reflexivity. }
  split. { reflexivity. }
  split.
  { intros s. destruct (rate_to_float_str_nonneg P s) as (r & E & Hr).
    exists r. split; [exact E | now apply signed_nonneg]. }
  split.
  { intros val r E Hneg. destruct val as [ |s|n|b|f| ].
    - injection E as <-. discriminate Hneg.
    - destruct (rate_to_float_str_nonneg P s) as (r' & E' & Hr).
      rewrite E' in E. injection E as <-.
      apply signed_nonneg in Hr as [_ Hr]. congruence.
    - left. exists n. split; [reflexivity|].
      unfold rate_to_float, float_of_value, float_of_int in E. simpl in E.
      destruct (is_inf (float_of_Z n)); [discriminate|]. injection E as <-.
      pose proof (signed_neg _ _ (float_of_Z_signed n) Hneg) as H.
      now apply Z.ltb_lt.
    - injection E as <-. destruct b; discriminate Hneg.
    - right. exists f. split; [reflexivity|].
      unfold rate_to_float in E. simpl in E.
      destruct (is_nan f); injection E as <-; [discriminate Hneg | exact Hneg].
    - injection E as <-. discriminate Hneg. }
  split. { vm_compute. reflexivity. }
  split; vm_compute; reflexivity.
Qed.

Lemma rate_to_float_cases_witness :
  rate_to_float test_platform (VStr "PHP 1,234.50 / hr")
  = Ok (decimal_to_float 123450 2) /\
  rate_to_float test_platform (VStr "about 20 pesos")
  = Ok (decimal_to_float 20 0) /\
  rate_to_float test_platform (VStr "free") = Ok pos_zero /\
  rate_to_float test_platform (VInt (-5)) = Ok (float_of_Z (-5)).
Proof.
  pose proof (rate_to_float_cases test_platform)
    as (_ & _ & Hint & _ & Hd & Hf & Hnone & _).
  split.
  { apply (Hf "PHP 1,234.50 / hr" "PHP " "1234" "50" " / hr")%string;
      reflexivity. }
  split.
  { apply (Hd "about 20 pesos" "about " "20" " pesos")%string; reflexivity. }
  split; [apply Hnone; reflexivity | apply Hint; reflexivity].
Defined.

(** A negative number is returned as it is: the answer is below 0.0. *)
Lemma rate_to_float_negative :
  rate_to_float test_platform (VInt (-5)) = Ok (float_of_Z (-5)) /\
  fge (float_of_Z (-5)) pos_zero = false /\
  flt (float_of_Z (-5)) pos_zero = true.
Proof. vm_compute. repeat split. Qed.

(** ** The feature row *)

Lemma feature_row_inv (P : platform) (req : ParkingRequest) (idx : nat)
    (p : gmap string value) (row : list num) (i : info) :
  feature_row P req idx p = Ok (Some (row, i)) ->
  exists lat lng dist rate,
    coordinates P p = Ok (lat, lng) /\
    haversine_km P (user_lat req) (user_lng req) lat lng = Ok dist /\
    rate_to_float P (raw_field p "initial_rate_raw" "INITIAL RATE") = Ok rate /\
    row = row_of P req p dist rate /\
    info_index i = idx /\
    info_distance_km i = dist /\
    info_initial_rate i = rate /\
    info_cctvs i = yn_to_int (raw_field p "cctvs_raw" "CCTVS") /\
    info_guards i = yn_to_int (raw_field p "guards_raw" "GUARDS") /\
    info_street_parking i
    = yn_to_int (raw_field p "street_raw" "STREET PARKING").
Proof.
  unfold feature_row.
  destruct (coordinates P p) as [[lat lng]|]; [|discriminate].
  destruct (haversine_km P _ _ lat lng) as [d|] eqn:Hd; [|discriminate]. simpl.
  destruct (rate_to_float P _) as [r|] eqn:Hr; [|discriminate]. simpl.
  intros H. injection H as <- <-. exists lat, lng, d, r. repeat split; auto.
Qed.

Lemma feature_row_raise (P : platform) (req : ParkingRequest) (idx : nat)
    (p : gmap string value) (e : exn) :
  feature_row P req idx p = Raise e ->
  exists lat lng,
    coordinates P p = Ok (lat, lng) /\
    (haversine_km P (user_lat req) (user_lng req) lat lng = Raise e \/
     rate_to_float P (raw_field p "initial_rate_raw" "INITIAL RATE") = Raise e).
Proof.
  unfold feature_row.
  destruct (coordinates P p) as [[lat lng]|]; [|discriminate].
  intros H. exists lat, lng. split; [reflexivity|].
  destruct (haversine_km P _ _ lat lng) as [d|e1]; unfold bind in H.
  2:{ left. now injection H as ->. }
  destruct (rate_to_float P _) as [r|e2]; [discriminate|].
  right. now injection H as ->.
Qed.

Lemma rate_to_float_raise (P : platform) (val : value) (e : exn) :
  rate_to_float P val = Raise e ->
  exists n, val = VInt n /\ is_inf (float_of_Z n) = true.
Proof.
  destruct val as [ |s|n|b|f| ]; try discriminate.
  - destruct (rate_to_float_str_nonneg P s) as (r & -> & _). discriminate.
  - unfold rate_to_float, float_of_value, float_of_int. simpl.
    destruct (is_inf (float_of_Z n)) eqn:E; [eauto | discriminate].
  - unfold rate_to_float. simpl. destruct (is_nan f); discriminate.
Qed.

Lemma bare_facility_row :
  exists row i,
    feature_row test_platform test_request 0 bare_facility
    = Ok (Some (row, i)).
Proof. vm_compute. eauto. Qed.

(** Claim C9. For a float NaN, which is how pandas loads an empty cell,
    [yn_to_int] answers 1, NaN being a number that is truthy, whereas for
    [None] it answers 0. Hence a record whose CCTV, guards or street-parking
    cell is NaN gets the amenity bit 1, in the feature row and in the display
    record, and one whose field is [None] gets 0. *)
Theorem yn_to_int_nan_is_one :
  yn_to_int (VFloat S754_nan) = 1 /\
  yn_to_int VNone = 0 /\
  forall P req idx p row i,
    feature_row P req idx p = Ok (Some (row, i)) ->
    (p !! "cctvs_raw" = Some (VFloat S754_nan) ->
     row !! 2%nat = Some (NInt 1) /\ info_cctvs i = 1) /\
    (p !! "guards_raw" = Some (VFloat S754_nan) ->
     row !! 3%nat = Some (NInt 1) /\ info_guards i = 1) /\
    (p !! "street_raw" = Some (VFloat S754_nan) ->
     row !! 6%nat = Some (NInt 1) /\ info_street_parking i = 1) /\
    (p !! "cctvs_raw" = Some VNone ->
     row !! 2%nat = Some (NInt 0) /\ info_cctvs i = 0) /\
    (p !! "guards_raw" = Some VNone ->
     row !! 3%nat = Some (NInt 0) /\ info_guards i = 0) /\
    (p !! "street_raw" = Some VNone ->
     row !! 6%nat = Some (NInt 0) /\ info_street_parking i = 0).
Proof.
  split; [reflexivity|]. split; [reflexivity|].
  intros P req idx p row i H.
  destruct (feature_row_inv P req idx p row i H)
    as (lat & lng & dist & rate & _ & _ & _ & -> & _ & _ & _ & Hc & Hg & Hs).
  rewrite Hc, Hg, Hs. unfold row_of, raw_field, dict_get.
  split; [|split; [|split; [|split; [|split]]]];
    intros E; rewrite E; split; reflexivity.
Qed.

Lemma blank_cctv_row :
  exists row i,
    feature_row test_platform test_request 2
      (facility "Lot" 14 120 "garbage" "N/A" (VStr "PHP 20.00")
         (VFloat S754_nan))
    = Ok (Some (row, i)).
Proof. vm_compute. eauto. Qed.

Lemma yn_to_int_nan_is_one_witness :
  exists row i,
    feature_row test_platform test_request 2
      (facility "Lot" 14 120 "garbage" "N/A" (VStr "PHP 20.00")
         (VFloat S754_nan))
    = Ok (Some (row, i)) /\
    row !! 2%nat = Some (NInt 1) /\ info_cctvs i = 1.
Proof.
  destruct blank_cctv_row as (row & i & E). exists row, i.
  split; [exact E|].
  destruct yn_to_int_nan_is_one as (_ & _ & H).
  destruct (H test_platform test_request 2%nat _ row i E) as (Hc & _).
  apply Hc. reflexivity.
Defined.

(** ** Ranking *)

Lemma slice_to_nonneg {A : Type} (l : list A) (k : Z) :
  0 <= k -> slice_to l k = take (Z.to_nat k) l.
Proof. intros H. unfold slice_to. destruct (Z.leb_spec 0 k); [reflexivity | lia]. Qed.


Lemma slice_to_prefix {A : Type} (l : list A) (k : Z) :
  exists n, slice_to l k = take n l.
Proof. unfold slice_to. destruct (0 <=? k); eauto. Qed.





Lemma test_run :
  recommend test_platform (Some test_model) test_catalog test_request 100
  = Ok test_response.
Proof. vm_compute. reflexivity. Qed.




(** ** Failures of the endpoint *)

Lemma feature_row_skip (P : platform) (req : ParkingRequest) (idx : nat)
    (p : gmap string value) :
  feature_row P req idx p = Ok None <-> exists e, coordinates P p = Raise e.
Proof.
  unfold feature_row.
  destruct (coordinates P p) as [[lat lng]|e].
  - split; [|intros [e H]; discriminate].
    destruct (haversine_km P _ _ lat lng) as [d|]; [|discriminate]. simpl.
    destruct (rate_to_float P _) as [r|]; discriminate.
  - split; eauto.
Qed.

Lemma build_rows_empty (P : platform) (req : ParkingRequest)
    (ps : list (gmap string value)) :
  forall idx rows infos,
  build_rows P req idx ps = Ok (rows, infos) ->
  (rows = [] <-> Forall (fun p => exists e, coordinates P p = Raise e) ps).
Proof.
  induction ps as [|p ps IH]; intros idx rows infos; simpl.
  - intros H. injection H as <- <-. split; [constructor | reflexivity].
  - destruct (feature_row P req idx p) as [r|] eqn:Hr; [|discriminate]. simpl.
    destruct (build_rows P req (S idx) ps) as [[rows' infos']|] eqn:Hb;
      [|discriminate]. simpl.
    specialize (IH _ _ _ Hb). destruct r as [[row i]|]; intros H;
      injection H as <- <-.
    + split; [discriminate|]. intros HF. inversion HF as [|? ? [e He] _]; subst.
      apply feature_row_inv in Hr as (lat & lng & _ & _ & Hc & _). congruence.
    + rewrite IH. split.
      * intros HF. constructor; [|exact HF]. now apply (feature_row_skip P req idx).
      * intros HF. now inversion HF.
Qed.

(** On an infinite latitude of the user the distance is a domain error of
    [sin], whatever the C library answers on finite arguments. *)
Lemma haversine_km_at_infinity (P : platform) (s : bool)
    (lon1 lat2 lon2 : float) :
  is_finite (radians lat2) = true ->
  haversine_km P (S754_infinity s) lon1 lat2 lon2
  = Raise (ValueError "math domain error").
Proof.
  intros H. unfold haversine_km.
  assert (E : radians (S754_infinity s) = S754_infinity s).
  { destruct s; vm_compute; reflexivity. }
  rewrite E.
  assert (E' : fdiv (fsub (radians lat2) (S754_infinity s)) two
               = S754_infinity (negb s)).
  { destruct (radians lat2) as [s'|s'| |s' m e]; try discriminate H;
      destruct s; vm_compute; reflexivity. }
  rewrite E'. reflexivity.
Qed.

(** Claim C4, as amended. Provided the loop over the catalog completes (no
    distance computation and no conversion of a rate raises), [recommend]
    fails exactly in four cases, each time with the status 500 and its own
    message: there is no model; the catalog is empty; every record was
    excluded by the loop; or the scoring call raised, and then the message
    ends with the text of that exception. In every other case it answers,
    with the ranked list cut to [top_k]. An answer and a failure exclude each
    other. A record makes the loop raise only through its distance or through
    an integer rate beyond the range of a float: a rate given as text, and any
    opening, closing or yes/no field, never does. *)
Theorem recommend_failure_cases (P : platform) (model : option predictor)
    (cat : list (gmap string value)) (req : ParkingRequest) (top_k : Z)
    (rows : list (list num)) (infos : list info) :
  build_rows P req 0 cat = Ok (rows, infos) ->
  (forall e,
     recommend P model cat req top_k = Raise e <->
     (model = None /\ e = HTTPException 500 "Model not loaded.") \/
     (model <> None /\ cat = [] /\
      e = HTTPException 500 "No parking data loaded from Excel.") \/
     (model <> None /\ cat <> [] /\ rows = [] /\
      e = HTTPException 500 "No valid parking rows to score.") \/
     (exists m e',
        model = Some m /\ cat <> [] /\ rows <> [] /\
        m (np_array rows) = Raise e' /\
        e = HTTPException 500 ("Model prediction failed: " +:+ exn_str e'))) /\
  (forall resp,
     recommend P model cat req top_k = Ok resp <->
     exists m scores,
       model = Some m /\ cat <> [] /\ rows <> [] /\
       m (np_array rows) = Ok scores /\
       resp = {| user_location :=
                   (user_lat req, user_lng req, time_of_day req);
                 recommendations := slice_to (ranked infos scores) top_k |}) /\
  (rows = [] <->
   Forall (fun p => exists e, coordinates P p = Raise e) cat) /\
  (forall idx p e,
     feature_row P req idx p = Raise e ->
     exists lat lng,
       coordinates P p = Ok (lat, lng) /\
       (haversine_km P (user_lat req) (user_lng req) lat lng = Raise e \/
        exists n,
          raw_field p "initial_rate_raw" "INITIAL RATE" = VInt n /\
          is_inf (float_of_Z n) = true)) /\
  (forall s, exists r, rate_to_float P (VStr s) = Ok r).
Proof.
  intros Hb. split; [|split; [|split; [|split]]].
  - intros e. rewrite recommend_Raise. rewrite Hb. split.
    + intros [H|[H|[(_ & _ & H)|[(H1 & H2 & [infos' H3] & H4)|H]]]]; auto.
      * discriminate H.
      * injection H3 as <- _. auto 10.
      * destruct H as (m & rows' & infos' & e' & H1 & H2 & H3 & H4 & H5 & H6).
        injection H3 as <- <-. right; right; right. exists m, e'. auto.
    + intros [H|[H|[(H1 & H2 & -> & H4)|(m & e' & H1 & H2 & H3 & H4 & H5)]]];
        auto.
      * right; right; right; left. eauto.
      * right; right; right; right. exists m, rows, infos, e'. auto 10.
  - intros resp. rewrite recommend_Ok. rewrite Hb. split.
    + intros (m & rows' & infos' & scores & H1 & H2 & H3 & H4 & H5 & H6).
      injection H3 as <- <-. exists m, scores. auto.
    + intros (m & scores & H1 & H2 & H3 & H4 & H5).
      exists m, rows, infos, scores. auto 10.
  - exact (build_rows_empty P req cat 0%nat rows infos Hb).
  - intros idx p e H.
    destruct (feature_row_raise P req idx p e H) as (lat & lng & Hc & [Hd|Hr]).
    + exists lat, lng. auto.
    + exists lat, lng. split; [exact Hc|]. right.
      now apply rate_to_float_raise in Hr.
  - intros s. destruct (rate_to_float_str_nonneg P s) as (r & E & _). eauto.
Qed.

Lemma test_catalog_rows :
  exists rows infos,
    build_rows test_platform test_request 0 test_catalog = Ok (rows, infos) /\
    rows <> [].
Proof. vm_compute. eexists _, _. split; [reflexivity | discriminate]. Qed.

Lemma recommend_failure_cases_witness :
  recommend test_platform None test_catalog test_request 5
  = Raise (HTTPException 500 "Model not loaded.") /\
  recommend test_platform (Some failing_model) test_catalog test_request 5
  = Raise (HTTPException 500 "Model prediction failed: Input contains NaN.").
Proof.
  destruct test_catalog_rows as (rows & infos & Hb & Hne).
  split.
  - apply (recommend_failure_cases test_platform None test_catalog test_request
             5 rows infos Hb).
    left. split; reflexivity.
  - apply (recommend_failure_cases test_platform (Some failing_model)
             test_catalog test_request 5 rows infos Hb).
    right; right; right. exists failing_model, (ValueError "Input contains NaN.").
    repeat split; [discriminate | exact Hne].
Defined.

(** With the user at an infinite latitude the endpoint fails with the
    domain error of [sin], although there is a model, the catalog is not
    empty, every record has its coordinates and the scoring function never
    raises. *)
Lemma recommend_fails_at_infinity :
  recommend test_platform (Some test_model) test_catalog request_at_infinity 5
  = Raise (ValueError "math domain error") /\
  test_catalog <> [] /\
  Forall (fun p => exists c, coordinates test_platform p = Ok c) test_catalog /\
  (forall X, exists scores, test_model X = Ok scores) /\
  (forall d, ValueError "math domain error" <> HTTPException 500 d).
Proof.
  split; [vm_compute; reflexivity|]. split; [discriminate|].
  split; [|split; [intros X; eexists; reflexivity | discriminate]].
  repeat constructor; eexists; vm_compute; reflexivity.
Qed.

(** ** The distance *)

Lemma two_eq : two = S754_finite false 4503599627370496 (-51).
Proof. vm_compute. reflexivity. Qed.

Lemma SFopp_involutive (x : float) : SFopp (SFopp x) = x.
Proof. destruct x as [s|s| |s m e]; simpl; now rewrite ?negb_involutive. Qed.

Lemma binary_round_aux_opp (s : bool) (m e : Z) (l : location) :
  binary_round_aux prec emax (negb s) m e l
  = SFopp (binary_round_aux prec emax s m e l).
Proof.
  unfold binary_round_aux.
  destruct (shr_fexp prec emax m e l) as [mrs' e'].
  destruct (shr_fexp prec emax _ e' loc_Exact) as [mrs'' e''].
  destruct (shr_m mrs''); [reflexivity| |reflexivity].
  destruct (e'' <=? emax - prec); reflexivity.
Qed.

Lemma binary_normalize_opp (n e : Z) :
  n <> 0 ->
  binary_normalize prec emax (- n) e false
  = SFopp (binary_normalize prec emax n e false).
Proof.
  intros Hn. destruct n as [|p|p]; [congruence| |]; simpl;
    unfold binary_round; destruct (shl_align p e _) as [mz ez].
  - apply (binary_round_aux_opp false).
  - now rewrite (binary_round_aux_opp false), SFopp_involutive.
Qed.

(** [y - x] is the opposite of [x - y], or the same zero or NaN. *)
Lemma fsub_mirror (x y : float) : mirror (fsub x y) (fsub y x).
Proof.
  unfold mirror, fsub.
  destruct x as [sx|sx| |sx mx ex], y as [sy|sy| |sy my ey];
    try (destruct sx, sy; simpl; auto; fail);
    try (destruct sx; simpl; auto; fail);
    try (destruct sy; simpl; auto; fail); auto.
  unfold SFsub. rewrite (Z.min_comm ey ex).
  set (a := cond_Zopp sx _). set (b := cond_Zopp sy _).
  destruct (Z.eq_dec (a - b) 0) as [E|E].
  - right. replace (b - a) with 0 by lia. now rewrite E.
  - left. replace (b - a) with (- (a - b)) by lia.
    now apply binary_normalize_opp.
Qed.

Lemma fdiv_two_opp (x : float) : fdiv (SFopp x) two = SFopp (fdiv x two).
Proof.
  rewrite two_eq. unfold fdiv.
  destruct x as [s|s| |s m e]; simpl; rewrite ?xorb_false_r; try reflexivity.
  destruct (SFdiv_core_binary prec emax (Z.pos m) e _ _) as [[mz ez] lz].
  apply binary_round_aux_opp.
Qed.

Lemma fmul_comm (x y : float) : fmul x y = fmul y x.
Proof.
  unfold fmul.
  destruct x as [sx|sx| |sx mx ex], y as [sy|sy| |sy my ey]; simpl;
    rewrite ?(xorb_comm sy sx); try reflexivity.
  now rewrite (Pos.mul_comm my mx), (Z.add_comm ey ex).
Qed.

Lemma math_1_raise (func : float -> float) (x : float) (e : exn) :
  math_1 func x = Raise e -> e = ValueError "math domain error".
Proof.
  unfold math_1. destruct (is_nan (func x) && negb (is_nan x)).
  - intros H. now injection H.
  - destruct (is_inf (func x) && is_finite x); [|discriminate].
    intros H. now injection H.
Qed.

Lemma c_sin_opp (P : platform) (x : float) :
  sin_odd P -> c_sin P (SFopp x) = SFopp (c_sin P x).
Proof.
  intros H. destruct x as [s|s| |s m e]; try reflexivity. apply H.
Qed.

Lemma math_sin_opp (P : platform) (x : float) :
  sin_odd P ->
  math_sin P (SFopp x)
  = match math_sin P x with Ok r => Ok (SFopp r) | Raise e => Raise e end.
Proof.
  intros H. unfold math_sin, math_1. rewrite (c_sin_opp P x H).
  destruct (c_sin P x) as [s|s| |s m e], x as [s'|s'| |s' m' e']; reflexivity.
Qed.

Lemma float_pow2_opp (P : platform) (x : float) :
  float_pow2 P (SFopp x) = float_pow2 P x.
Proof. destruct x; reflexivity. Qed.

Lemma sin_squared_mirror (P : platform) (x y : float) :
  sin_odd P -> mirror x y ->
  sin_squared P (fdiv y two) = sin_squared P (fdiv x two).
Proof.
  intros H [-> | ->]; [|reflexivity]. unfold sin_squared.
  rewrite fdiv_two_opp, (math_sin_opp P _ H).
  destruct (math_sin P (fdiv x two)) as [r|e]; [|reflexivity].
  apply float_pow2_opp.
Qed.

Lemma cos_product_comm (P : platform) (x y : float) :
  cos_product P x y = cos_product P y x.
Proof.
  unfold cos_product.
  destruct (math_cos P x) as [c1|e1] eqn:E1,
           (math_cos P y) as [c2|e2] eqn:E2; simpl; try reflexivity.
  - now rewrite fmul_comm.
  - apply math_1_raise in E1, E2. congruence.
Qed.

(** [haversine_km] through its steps. *)
Lemma haversine_km_steps (P : platform) (lat1 lon1 lat2 lon2 : float) :
  haversine_km P lat1 lon1 lat2 lon2 =
  (p1 <-! sin_squared P (fdiv (fsub (radians lat2) (radians lat1)) two);;
   cc <-! cos_product P (radians lat1) (radians lat2);;
   p2 <-! sin_squared P (fdiv (fsub (radians lon2) (radians lon1)) two);;
   great_circle P p1 cc p2).
Proof.
  unfold haversine_km, sin_squared, cos_product, great_circle.
  destruct (math_sin P (fdiv (fsub (radians lat2) (radians lat1)) two))
    as [s1|]; [|reflexivity]. simpl.
  destruct (float_pow2 P s1) as [p1|]; [|reflexivity]. simpl.
  destruct (math_cos P (radians lat1)) as [c1|]; [|reflexivity]. simpl.
  destruct (math_cos P (radians lat2)) as [c2|]; [|reflexivity]. simpl.
  destruct (math_sin P (fdiv (fsub (radians lon2) (radians lon1)) two))
    as [s2|]; [|reflexivity]. simpl.
  destruct (float_pow2 P s2) as [p2|]; reflexivity.
Qed.

Lemma fsub_diag (x : float) : is_finite x = true -> fsub x x = pos_zero.
Proof.
  destruct x as [[]|s| |s m e]; try discriminate; try reflexivity.
  intros _. unfold fsub, SFsub. now rewrite Z.sub_diag.
Qed.

Lemma sin_squared_zero (P : platform) :
  sin_squared P (fdiv pos_zero two) = Ok pos_zero.
Proof. rewrite two_eq. reflexivity. Qed.

Lemma great_circle_zero (P : platform) (cc : float) :
  is_finite cc = true -> great_circle P pos_zero cc pos_zero = Ok pos_zero.
Proof.
  unfold great_circle. rewrite two_eq.
  destruct cc as [[]|s| |[] m e]; try discriminate; intros _; reflexivity.
Qed.

(** Claim C8. The distance does not depend on the order of its two points: for all
    coordinates, [haversine_km] at (A, B) and at (B, A) is the same float, or
    the same error, when the C library's [sin] is odd; and the distance from
    a point to itself is exactly 0.0 when its coordinates are finite once in
    radians and the cosine of a finite angle has a finite square. Equal
    floats are within every tolerance, 1e-6 km included. *)
Theorem haversine_km_symmetric (P : platform) :
  sin_odd P ->
  (forall lat1 lon1 lat2 lon2,
     haversine_km P lat1 lon1 lat2 lon2 = haversine_km P lat2 lon2 lat1 lon1) /\
  (cos_bounded P ->
   forall lat lon,
     is_finite (radians lat) = true -> is_finite (radians lon) = true ->
     haversine_km P lat lon lat lon = Ok pos_zero).
Proof.
  intros Hodd. split.
  - intros lat1 lon1 lat2 lon2. rewrite !haversine_km_steps.
    rewrite (sin_squared_mirror P _ _ Hodd
               (fsub_mirror (radians lat1) (radians lat2))).
    rewrite (sin_squared_mirror P _ _ Hodd
               (fsub_mirror (radians lon1) (radians lon2))).
    now rewrite (cos_product_comm P (radians lat2) (radians lat1)).
  - intros Hcos lat lon Hlat Hlon. rewrite haversine_km_steps.
    rewrite !fsub_diag, sin_squared_zero by assumption.
    destruct (Hcos (radians lat) Hlat) as (c & Hc & Hfin).
    unfold cos_product. rewrite Hc. simpl.
    now apply great_circle_zero.
Qed.

Lemma test_platform_sin_odd : sin_odd test_platform.
Proof. intros s m e. reflexivity. Qed.

Lemma test_platform_cos_bounded : cos_bounded test_platform.
Proof.
  intros x Hx. exists one.
  destruct x as [s|s| |s m e]; try discriminate; split; reflexivity.
Qed.

Lemma haversine_km_symmetric_witness :
  haversine_km test_platform (float_of_Z 14) (float_of_Z 121)
    (float_of_Z 15) (float_of_Z 120)
  = haversine_km test_platform (float_of_Z 15) (float_of_Z 120)
      (float_of_Z 14) (float_of_Z 121) /\
  haversine_km test_platform (float_of_Z 14) (float_of_Z 121)
    (float_of_Z 14) (float_of_Z 121) = Ok pos_zero.
Proof.
  destruct (haversine_km_symmetric test_platform test_platform_sin_odd)
    as [Hsym Hzero].
  split; [apply Hsym|].
  apply (Hzero test_platform_cos_bounded); vm_compute; reflexivity.
Defined.

(** ** Trimming and searching *)

Lemma is_space_upper_char (c : ascii) :
  is_space (upper_char c) = is_space c.
Proof. each_char c; reflexivity. Qed.

Lemma prefix_empty (n : string) :
  String.prefix n EmptyString = negb (nonempty n).
Proof. destruct n; reflexivity. Qed.

Lemma ends_solid_tail (a : ascii) (n : string) :
  ends_solid (String a n) = true -> ends_solid n = true.
Proof. destruct n; [reflexivity | intros H; exact H]. Qed.

Lemma prefix_rstrip (t : string) :
  forall n, ends_solid n = true ->
  String.prefix n (rstrip t) = String.prefix n t.
Proof.
  induction t as [|c t IH]; intros n Hn; [reflexivity|].
  destruct n as [|a n]; [now destruct (rstrip (String c t))|].
  pose proof (IH n (ends_solid_tail a n Hn)) as IHn.
  cbn [rstrip]. rewrite (prefix_String a c n t).
  destruct (rstrip t) as [|d r] eqn:E.
  - destruct (is_space c) eqn:Hc.
    + rewrite prefix_empty. cbn [nonempty negb].
      destruct (Ascii.eqb a c) eqn:Hac; [|reflexivity].
      apply Ascii.eqb_eq in Hac. subst c.
      rewrite <- IHn, prefix_empty.
      destruct n as [|b n]; [|reflexivity].
      cbn in Hn. rewrite Hc in Hn. discriminate.
    + rewrite prefix_String. now rewrite IHn.
  - rewrite prefix_String. now rewrite IHn.
Qed.

Lemma contains_step (n : string) (c : ascii) (t : string) :
  contains n (String c t) = String.prefix n (String c t) || contains n t.
Proof. reflexivity. Qed.

Lemma contains_empty (n : string) :
  contains n EmptyString = negb (nonempty n).
Proof. cbn [contains]. rewrite prefix_empty. now destruct n. Qed.

Lemma contains_rstrip (n t : string) :
  nonempty n = true -> ends_solid n = true ->
  contains n (rstrip t) = contains n t.
Proof.
  intros Hne Hn. induction t as [|c t IH]; [reflexivity|].
  rewrite contains_step, <- (prefix_rstrip (String c t) n Hn), <- IH.
  cbn [rstrip]. destruct (rstrip t) as [|d r].
  - destruct (is_space c).
    + rewrite contains_empty, prefix_empty, Hne. reflexivity.
    + rewrite contains_step. reflexivity.
  - rewrite contains_step. reflexivity.
Qed.

Lemma contains_lstrip (n t : string) :
  head_solid n = true -> contains n (lstrip t) = contains n t.
Proof.
  intros Hn. induction t as [|c t IH]; [reflexivity|].
  cbn [lstrip]. destruct (is_space c) eqn:Hc; [|reflexivity].
  rewrite IH, contains_step.
  destruct n as [|a n]; [discriminate|].
  rewrite prefix_String.
  destruct (Ascii.eqb a c) eqn:Hac; [|reflexivity].
  apply Ascii.eqb_eq in Hac. subst c. cbn in Hn. rewrite Hc in Hn.
  discriminate.
Qed.

Lemma head_solid_nonempty (n : string) :
  head_solid n = true -> nonempty n = true.
Proof. now destruct n. Qed.

Lemma contains_strip (n t : string) :
  head_solid n = true -> ends_solid n = true ->
  contains n (strip t) = contains n t.
Proof.
  intros Hh He. unfold strip.
  rewrite contains_rstrip by auto using head_solid_nonempty.
  now apply contains_lstrip.
Qed.

Lemma upper_lstrip (s : string) : upper (lstrip s) = lstrip (upper s).
Proof.
  induction s as [|c s IH]; [reflexivity|].
  cbn [lstrip upper]. rewrite is_space_upper_char.
  now destruct (is_space c).
Qed.

Lemma upper_rstrip (s : string) : upper (rstrip s) = rstrip (upper s).
Proof.
  induction s as [|c s IH]; [reflexivity|].
  cbn [rstrip upper]. rewrite <- IH, is_space_upper_char.
  destruct (rstrip s); [now destruct (is_space c) | reflexivity].
Qed.

Lemma upper_strip (s : string) : upper (strip s) = strip (upper s).
Proof. unfold strip. now rewrite upper_rstrip, upper_lstrip. Qed.

Lemma contains_upper_strip (n s : string) :
  head_solid n = true -> ends_solid n = true ->
  contains n (upper (strip s)) = contains n (upper s).
Proof. intros Hh He. rewrite upper_strip. now apply contains_strip. Qed.
Lemma upper_app (a b : string) : upper (a +:+ b) = upper a +:+ upper b.
Proof.
  induction a as [|c a IH]; [reflexivity|].
  cbn [upper]. rewrite !app_String. cbn [upper]. now rewrite IH.
Qed.

Lemma Occurs_app (n s pre suf : string) :
  Occurs n s -> Occurs n (pre +:+ s +:+ suf).
Proof.
  intros (p & q & ->). exists (pre +:+ p), (q +:+ suf).
  now rewrite !app_assoc_string.
Qed.

Lemma discount_to_int_str (s : string) :
  discount_to_int (VStr s) =
  if contains "EXEMPT" (upper s) || contains "DISCOUNT" (upper s)
     || contains "YES" (upper s)
  then 1 else 0.
Proof.
  cbn [discount_to_int].
  now rewrite !contains_upper_strip by reflexivity.
Qed.

Lemma discount_to_int_Occurs (s : string) :
  discount_to_int (VStr s) = 1 <->
  Occurs "EXEMPT" (upper s) \/ Occurs "DISCOUNT" (upper s)
  \/ Occurs "YES" (upper s).
Proof.
  rewrite discount_to_int_str, <- !contains_Occurs.
  destruct (contains "EXEMPT" (upper s)), (contains "DISCOUNT" (upper s)),
    (contains "YES" (upper s)); cbn; intuition congruence.
Qed.

(** Extra X1. [discount_to_int] answers 0 or 1. For a text (of ASCII
    characters, as everywhere here) it answers 1 exactly when the text, put
    in upper case, contains [EXEMPT], [DISCOUNT] or [YES] anywhere; the
    blanks around the text play no part, and no
    surrounding words can take the flag away, a negation included. Whatever
    is not a text gives 0, the numbers and booleans that [yn_to_int] reads
    as yes included. *)
Theorem discount_to_int_cases :
  (forall val, discount_to_int val = 0 \/ discount_to_int val = 1) /\
  (forall s, discount_to_int (VStr s) = 1 <->
     Occurs "EXEMPT" (upper s) \/ Occurs "DISCOUNT" (upper s)
     \/ Occurs "YES" (upper s)) /\
  (forall pre s suf, discount_to_int (VStr s) = 1 ->
     discount_to_int (VStr (pre +:+ s +:+ suf)) = 1) /\
  (forall val, is_str val = false ->
     discount_to_int val = 0 /\
     (truthy val = true -> yn_to_int val = 1)).
Proof.
  split; [|split; [|split]].
  - intros [| s | | | |]; try (left; reflexivity).
    rewrite discount_to_int_str.
    destruct (_ || _); [right | left]; reflexivity.
  - exact discount_to_int_Occurs.
  - intros pre s suf H. apply discount_to_int_Occurs in H.
    apply discount_to_int_Occurs. rewrite !upper_app.
    destruct H as [H | [H | H]]; [left | right; left | right; right];
      now apply Occurs_app.
  - intros val Hs. split.
    + destruct val; try reflexivity. discriminate.
    + intros Ht. destruct val; try discriminate; cbn in *; now rewrite Ht.
Qed.

Lemma discount_to_int_cases_witness :
  discount_to_int (VStr "  No discount for seniors ") = 1 /\
  discount_to_int (VInt 1) = 0 /\ yn_to_int (VInt 1) = 1.
Proof.
  pose proof discount_to_int_cases as (_ & _ & Hmore & Hnum).
  split.
  - apply (Hmore "  No " "discount" " for seniors "). reflexivity.
  - destruct (Hnum (VInt 1) eq_refl) as [H0 H1]. split; [exact H0|].
    apply H1. reflexivity.
Defined.
(** ** Reading an hour *)

Lemma rstrip_blank (ws : string) :
  all_space ws = true -> rstrip ws = EmptyString.
Proof.
  induction ws as [|c ws IH]; [reflexivity|].
  cbn [all_space rstrip]. intros [Hc Hws]%andb_prop.
  now rewrite (IH Hws), Hc.
Qed.

Lemma rstrip_app (t ws : string) :
  all_space ws = true -> rstrip (t +:+ ws) = rstrip t.
Proof.
  intros Hws. induction t as [|c t IH]; [now apply rstrip_blank|].
  rewrite app_String. cbn [rstrip]. now rewrite IH.
Qed.

Lemma rstrip_solid (t : string) : ends_solid t = true -> rstrip t = t.
Proof.
  induction t as [|c t IH]; [reflexivity|].
  intros H. cbn [rstrip]. destruct t as [|d t].
  - cbn in *. now destruct (is_space c).
  - now rewrite (IH H).
Qed.

Lemma strip_between (ws1 t ws2 : string) :
  all_space ws1 = true -> all_space ws2 = true ->
  head_solid t = true -> ends_solid t = true ->
  strip (ws1 +:+ t +:+ ws2) = t.
Proof.
  intros H1 H2 Hh He. unfold strip. rewrite lstrip_app by exact H1.
  destruct t as [|c t]; [discriminate|].
  rewrite app_String, lstrip_head by now apply negb_true_iff.
  rewrite <- app_String, rstrip_app by exact H2.
  now apply rstrip_solid.
Qed.

Lemma upper_char_A (d : ascii) : upper_char d = "A"%char <-> is_a d.
Proof.
  unfold is_a. split.
  - each_char d; cbn; intros H; try discriminate H; auto.
  - intros [-> | ->]; reflexivity.
Qed.

Lemma parse_hour_from_str_247 (P : platform) (s : string) :
  Occurs "24/7" s -> parse_hour_from_str P (VStr s) = Some 0.
Proof.
  intros H. apply contains_Occurs in H.
  rewrite <- (contains_strip "24/7" s) in H by reflexivity.
  cbn [parse_hour_from_str].
  destruct (nonempty (strip s)) eqn:Hne.
  - destruct (String.eqb (upper (strip s)) "N/A") eqn:Hna.
    + apply String.eqb_eq in Hna.
      rewrite <- (contains_upper "24/7" (strip s)), Hna in H by reflexivity.
      discriminate H.
    + cbn. now rewrite H.
  - destruct (strip s); [discriminate H | discriminate Hne].
Qed.

Lemma parse_hour_from_str_Some (P : platform) (s : string) (h : Z) :
  parse_hour_from_str P (VStr s) = Some h ->
  (Occurs "24/7" s /\ h = 0) \/
  (~ Occurs "24/7" s /\ to_datetime_hour P (strip s) = Some h).
Proof.
  cbn [parse_hour_from_str].
  destruct (negb (nonempty (strip s)) || _); [discriminate|].
  destruct (contains "24/7" (strip s)) eqn:Hc.
  - intros [= <-]. left. split; [|reflexivity].
    rewrite contains_strip in Hc by reflexivity.
    now apply contains_Occurs.
  - intros H. right. split; [|exact H].
    intros Ho. apply contains_Occurs in Ho.
    rewrite <- (contains_strip "24/7" s), Hc in Ho by reflexivity.
    discriminate Ho.
Qed.

(** Extra X2. [parse_hour_from_str] never raises and reads no hour from
    what is not a text, from a blank text, or from [N/A] in any letter case
    with blanks around it. A text that contains [24/7] anywhere reads as
    hour 0. Every other hour it answers is the one pandas reads from the
    trimmed text. *)
Theorem parse_hour_from_str_cases (P : platform) :
  (forall val, is_str val = false -> parse_hour_from_str P val = None) /\
  (forall s, all_space s = true -> parse_hour_from_str P (VStr s) = None) /\
  (forall ws1 ws2 c1 c3,
     all_space ws1 = true -> all_space ws2 = true -> is_n c1 -> is_a c3 ->
     parse_hour_from_str P
       (VStr (ws1 +:+ String c1 (String "/" (String c3 "")) +:+ ws2))
     = None) /\
  (forall s, Occurs "24/7" s -> parse_hour_from_str P (VStr s) = Some 0) /\
  (forall s h, parse_hour_from_str P (VStr s) = Some h ->
     (Occurs "24/7" s /\ h = 0) \/
     (~ Occurs "24/7" s /\ to_datetime_hour P (strip s) = Some h)).
Proof.
  split; [|split; [|split; [|split]]].
  - intros val H. destruct val; try reflexivity. discriminate H.
  - intros s H. apply strip_empty in H. cbn [parse_hour_from_str].
    now rewrite H.
  - intros ws1 ws2 c1 c3 H1 H2 Hn Ha. cbn [parse_hour_from_str].
    assert (Hs1 : is_space c1 = false)
      by (destruct Hn as [-> | ->]; reflexivity).
    assert (Hs3 : is_space c3 = false)
      by (destruct Ha as [-> | ->]; reflexivity).
    rewrite strip_between; try assumption.
    + cbn [upper nonempty negb orb].
      apply upper_char_N in Hn. apply upper_char_A in Ha.
      rewrite Hn, Ha. reflexivity.
    + cbn. now rewrite Hs1.
    + cbn. now rewrite Hs3.
  - apply parse_hour_from_str_247.
  - apply parse_hour_from_str_Some.
Qed.

Lemma parse_hour_from_str_cases_witness :
  parse_hour_from_str test_platform (VStr "  n/a ") = None /\
  parse_hour_from_str test_platform (VStr "Open 24/7, gate B") = Some 0.
Proof.
  pose proof (parse_hour_from_str_cases test_platform)
    as (_ & _ & Hna & H247 & _).
  split.
  - apply (Hna "  " " " "n"%char "a"%char); try reflexivity; now left.
  - apply H247. exists "Open ", ", gate B". reflexivity.
Defined.

(** ** Open or closed *)

Lemma compute_open_now_open (P : platform) (opening closing : value)
    (hour : Z) :
  is_str opening = false \/ is_str closing = false ->
  compute_open_now P opening closing hour = 1.
Proof.
  unfold compute_open_now. intros [H | H].
  - destruct opening; try discriminate H; cbn;
      now destruct (has_247 closing).
  - destruct closing; try discriminate H; cbn;
      destruct (has_247 opening); try reflexivity;
      now destruct (parse_hour_from_str P opening).
Qed.

Lemma compute_open_now_texts (P : platform) (o c : string) (hour : Z) :
  compute_open_now P (VStr o) (VStr c) hour = 0 ->
  ~ Occurs "24/7" o /\ ~ Occurs "24/7" c /\
  exists a b,
    parse_hour_from_str P (VStr o) = Some a /\
    parse_hour_from_str P (VStr c) = Some b.
Proof.
  unfold compute_open_now.
  destruct (has_247 (VStr o)) eqn:Ho; [discriminate|].
  destruct (has_247 (VStr c)) eqn:Hc; [discriminate|].
  destruct (parse_hour_from_str P (VStr o)) as [a|]; [|discriminate].
  destruct (parse_hour_from_str P (VStr c)) as [b|]; [|discriminate].
  intros _. split; [|split; [|now exists a, b]].
  - intros H. apply has_247_Occurs in H. congruence.
  - intros H. apply has_247_Occurs in H. congruence.
Qed.

(** Extra X3. [compute_open_now] fails open: it answers closed (0) only for
    two texts, neither of which mentions [24/7], from which pandas read two
    different hours, at an hour outside the schedule they delimit. A missing
    field, a NaN cell, a number or any text without a readable hour leaves
    the facility open. *)
Theorem compute_open_now_closed (P : platform) (opening closing : value)
    (hour : Z) :
  compute_open_now P opening closing hour = 0 ->
  exists o c a b,
    opening = VStr o /\ closing = VStr c /\
    ~ Occurs "24/7" o /\ ~ Occurs "24/7" c /\
    to_datetime_hour P (strip o) = Some a /\
    to_datetime_hour P (strip c) = Some b /\
    a <> b /\
    (a < b -> hour < a \/ b <= hour) /\
    (b < a -> b <= hour < a).
Proof.
  intros H.
  destruct (is_str opening) eqn:Eo.
  2: { rewrite compute_open_now_open in H by now left. discriminate H. }
  destruct (is_str closing) eqn:Ec.
  2: { rewrite compute_open_now_open in H by now right. discriminate H. }
  destruct opening as [| o | | | |]; try discriminate Eo.
  destruct closing as [| c | | | |]; try discriminate Ec.
  destruct (compute_open_now_texts P o c hour H) as (No & Nc & a & b & Ha & Hb).
  rewrite (compute_open_now_parsed P o c hour a b No Nc Ha Hb) in H.
  destruct (parse_hour_from_str_Some P o a Ha) as [[Bad _] | [_ Ta]];
    [contradiction|].
  destruct (parse_hour_from_str_Some P c b Hb) as [[Bad _] | [_ Tb]];
    [contradiction|].
  exists o, c, a, b. repeat split; try assumption.
  - intros ->. rewrite Z.eqb_refl in H. discriminate H.
  - intros Hab. destruct (a =? b) eqn:E1; [discriminate H|].
    destruct (a <? b) eqn:E2; [|lia].
    destruct (a <=? hour) eqn:E3, (hour <? b) eqn:E4; cbn in H;
      try discriminate H; lia.
  - destruct (a =? b) eqn:E1; [discriminate H|].
    destruct (a <? b) eqn:E2; [lia|].
    destruct (a <=? hour) eqn:E3, (hour <? b) eqn:E4; cbn in H;
      try discriminate H; lia.
  - destruct (a =? b) eqn:E1; [discriminate H|].
    destruct (a <? b) eqn:E2; [lia|].
    destruct (a <=? hour) eqn:E3, (hour <? b) eqn:E4; cbn in H;
      try discriminate H; lia.
Qed.

Lemma compute_open_now_closed_witness :
  exists o c a b,
    VStr "7:00 AM" = VStr o /\ VStr "10:00 PM" = VStr c /\
    ~ Occurs "24/7" o /\ ~ Occurs "24/7" c /\
    to_datetime_hour test_platform (strip o) = Some a /\
    to_datetime_hour test_platform (strip c) = Some b /\
    a <> b /\
    (a < b -> 23 < a \/ b <= 23) /\
    (b < a -> b <= 23 < a).
Proof.
  apply (compute_open_now_closed test_platform (VStr "7:00 AM")
           (VStr "10:00 PM") 23).
  reflexivity.
Defined.

(** Extra X4. When both texts give an hour and the two hours differ, the
    schedule read backwards is the complement of the schedule: at every hour
    exactly one of (opening, closing) and (closing, opening) is open. An
    overnight schedule is thus open exactly when the day schedule between
    the same two hours is closed. *)
Theorem compute_open_now_swap (P : platform) (o c : string) (a b hour : Z) :
  ~ Occurs "24/7" o -> ~ Occurs "24/7" c ->
  parse_hour_from_str P (VStr o) = Some a ->
  parse_hour_from_str P (VStr c) = Some b ->
  a <> b ->
  compute_open_now P (VStr o) (VStr c) hour
  + compute_open_now P (VStr c) (VStr o) hour = 1.
Proof.
  intros No Nc Ha Hb Hab.
  rewrite (compute_open_now_parsed P o c hour a b No Nc Ha Hb).
  rewrite (compute_open_now_parsed P c o hour b a Nc No Hb Ha).
  destruct (Z.eqb_spec a b); [contradiction|].
  destruct (Z.eqb_spec b a); [congruence|].
  destruct (Z.ltb_spec a b), (Z.ltb_spec b a); try lia;
    destruct (Z.leb_spec a hour), (Z.ltb_spec hour b),
      (Z.leb_spec b hour), (Z.ltb_spec hour a); cbn; lia.
Qed.

Lemma compute_open_now_swap_witness :
  compute_open_now test_platform (VStr "8:00 PM") (VStr "4:00 AM") 1
  + compute_open_now test_platform (VStr "4:00 AM") (VStr "8:00 PM") 1 = 1.
Proof.
  apply (compute_open_now_swap test_platform "8:00 PM" "4:00 AM" 20 4 1).
  - intros H. apply contains_Occurs in H. discriminate H.
  - intros H. apply contains_Occurs in H. discriminate H.
  - reflexivity.
  - reflexivity.
  - discriminate.
Defined.

(** Extra X5. The hour of the request is not checked against 0..23. At an
    hour below 0 or above 23, with two different parsed hours of the day, a
    day schedule (opening before closing) is answered closed and an
    overnight schedule open. *)
Theorem compute_open_now_hour_unchecked (P : platform) (o c : string)
    (a b hour : Z) :
  ~ Occurs "24/7" o -> ~ Occurs "24/7" c ->
  parse_hour_from_str P (VStr o) = Some a ->
  parse_hour_from_str P (VStr c) = Some b ->
  0 <= a < 24 -> 0 <= b < 24 -> a <> b ->
  hour < 0 \/ 24 <= hour ->
  compute_open_now P (VStr o) (VStr c) hour = if a <? b then 0 else 1.
Proof.
  intros No Nc Ha Hb Ra Rb Hab Hh.
  rewrite (compute_open_now_parsed P o c hour a b No Nc Ha Hb).
  destruct (Z.eqb_spec a b); [contradiction|].
  destruct (Z.ltb_spec a b);
    destruct (Z.leb_spec a hour), (Z.ltb_spec hour b); cbn; lia.
Qed.

Lemma compute_open_now_hour_unchecked_witness :
  compute_open_now test_platform (VStr "7:00 AM") (VStr "10:00 PM") 24 = 0 /\
  compute_open_now test_platform (VStr "8:00 PM") (VStr "4:00 AM") (-1) = 1.
Proof.
  split.
  - apply (compute_open_now_hour_unchecked test_platform "7:00 AM" "10:00 PM"
             7 22 24); try reflexivity; try lia.
    + intros H. apply contains_Occurs in H. discriminate H.
    + intros H. apply contains_Occurs in H. discriminate H.
  - apply (compute_open_now_hour_unchecked test_platform "8:00 PM" "4:00 AM"
             20 4 (-1)); try reflexivity; try lia.
    + intros H. apply contains_Occurs in H. discriminate H.
    + intros H. apply contains_Occurs in H. discriminate H.
Defined.
(** ** Noise around a rate *)

Lemma remove_commas_app (a b : string) :
  remove_commas (a +:+ b) = remove_commas a +:+ remove_commas b.
Proof.
  induction a as [|c a IH]; [reflexivity|].
  rewrite app_String. cbn [remove_commas].
  destruct (Ascii.eqb c ","); [exact IH|].
  now rewrite app_String, IH.
Qed.

Lemma no_digit_remove_commas (s : string) :
  no_digit s = true -> no_digit (remove_commas s) = true.
Proof.
  induction s as [|c s IH]; [reflexivity|].
  cbn [no_digit remove_commas]. intros [Hc Hs]%andb_prop.
  destruct (Ascii.eqb c ","); [now apply IH|].
  cbn [no_digit]. now rewrite Hc, IH.
Qed.

Lemma re_search_number_app (pre t : string) :
  no_digit pre = true -> re_search_number (pre +:+ t) = re_search_number t.
Proof.
  induction pre as [|c pre IH]; [reflexivity|].
  cbn [no_digit]. intros [Hc Hp]%andb_prop. apply negb_true_iff in Hc.
  rewrite app_String. cbn [re_search_number]. rewrite Hc. now apply IH.
Qed.

(** Extra X6. In a rate given as text, whatever stands before the first
    digit is ignored, a minus sign included, and so is every comma: the text
    [-5] reads as the text [5], and a comma reads as nothing whether it
    separates thousands or decimals. *)
Theorem rate_to_float_text_noise (P : platform) :
  (forall pre s, no_digit pre = true ->
     rate_to_float P (VStr (pre +:+ s)) = rate_to_float P (VStr s)) /\
  (forall s, rate_to_float P (VStr ("-" +:+ s)) = rate_to_float P (VStr s)) /\
  (forall a b,
     rate_to_float P (VStr (a +:+ "," +:+ b))
     = rate_to_float P (VStr (a +:+ b))).
Proof.
  assert (Hpre : forall pre s, no_digit pre = true ->
            rate_to_float P (VStr (pre +:+ s)) = rate_to_float P (VStr s)).
  { intros pre s Hp. rewrite !rate_to_float_str, remove_commas_app.
    now rewrite re_search_number_app by now apply no_digit_remove_commas. }
  split; [exact Hpre | split].
  - intros s. now apply Hpre.
  - intros a b. rewrite !rate_to_float_str, !remove_commas_app.
    reflexivity.
Qed.

Lemma rate_to_float_text_noise_witness :
  rate_to_float test_platform (VStr "PHP -1,250")
  = rate_to_float test_platform (VStr "1250") /\
  rate_to_float test_platform (VStr "12,50")
  = rate_to_float test_platform (VStr "1250").
Proof.
  pose proof (rate_to_float_text_noise test_platform) as (Hpre & _ & Hcomma).
  split.
  - etransitivity; [exact (Hpre "PHP -" "1,250" eq_refl)|].
    exact (Hcomma "1" "250").
  - apply (Hcomma "12" "50").
Defined.

(** ** The distance at infinity *)

Lemma deg_to_rad_eq :
  deg_to_rad = S754_finite false 5030569068109113 (-58).
Proof. vm_compute. reflexivity. Qed.

Lemma radians_infinity (s : bool) :
  radians (S754_infinity s) = S754_infinity s.
Proof. unfold radians. rewrite deg_to_rad_eq. now destruct s. Qed.

Lemma is_inf_radians (x : float) :
  is_inf x = true -> is_inf (radians x) = true.
Proof. destruct x; try discriminate. now rewrite radians_infinity. Qed.

Lemma math_sin_infinity (P : platform) (s : bool) :
  math_sin P (S754_infinity s) = Raise (ValueError "math domain error").
Proof. reflexivity. Qed.

Lemma math_cos_infinity (P : platform) (s : bool) :
  math_cos P (S754_infinity s) = Raise (ValueError "math domain error").
Proof. reflexivity. Qed.

Lemma sin_squared_nan (P : platform) :
  sin_squared P S754_nan = Ok S754_nan.
Proof. reflexivity. Qed.

Lemma fdiv_two_special (x : float) :
  is_finite x = false -> fdiv x two = x.
Proof.
  rewrite two_eq. destruct x as [| [] | |]; try discriminate; reflexivity.
Qed.

(** The difference of two angles one of which is infinite is infinite or
    NaN. *)
Lemma fsub_infinite (x y : float) :
  is_inf x = true \/ is_inf y = true -> is_finite (fsub x y) = false.
Proof.
  intros [H | H].
  - destruct x as [| sx | |]; try discriminate H.
    destruct y as [sy | sy | |]; try reflexivity; now destruct sx, sy.
  - destruct y as [| sy | |]; try discriminate H.
    destruct x as [sx | sx | |]; try reflexivity; now destruct sx, sy.
Qed.

Lemma sin_squared_not_finite (P : platform) (x : float) :
  is_finite x = false ->
  sin_squared P x = Ok S754_nan \/
  sin_squared P x = Raise (ValueError "math domain error").
Proof.
  destruct x; try discriminate; intros _; [right | left]; reflexivity.
Qed.

Lemma math_cos_raise (P : platform) (x : float) (e : exn) :
  math_cos P x = Raise e -> e = ValueError "math domain error".
Proof. apply math_1_raise. Qed.

Lemma cos_product_at_infinity (P : platform) (x y : float) :
  is_inf x = true \/ is_inf y = true ->
  cos_product P x y = Raise (ValueError "math domain error").
Proof.
  unfold cos_product. intros [H | H].
  - destruct x; try discriminate H. now rewrite math_cos_infinity.
  - destruct y; try discriminate H. rewrite math_cos_infinity.
    destruct (math_cos P x) as [c | e] eqn:E; [reflexivity|].
    cbn. now rewrite (math_cos_raise P x e E).
Qed.

Lemma haversine_km_infinite_radians (P : platform)
    (lat1 lon1 lat2 lon2 : float) :
  is_inf (radians lat1) = true \/ is_inf (radians lat2) = true ->
  haversine_km P lat1 lon1 lat2 lon2 = Raise (ValueError "math domain error").
Proof.
  intros H. rewrite haversine_km_steps.
  assert (Hd : is_finite (fsub (radians lat2) (radians lat1)) = false)
    by (apply fsub_infinite; tauto).
  rewrite (fdiv_two_special _ Hd).
  destruct (sin_squared_not_finite P _ Hd) as [-> | ->]; [|reflexivity].
  cbn [bind]. now rewrite cos_product_at_infinity.
Qed.

Lemma bind_raises {A B : Type} (r : result A) (k : A -> result B) :
  (forall a, exists e, k a = Raise e) -> exists e, bind r k = Raise e.
Proof. intros H. destruct r as [a | e]; [apply H | now exists e]. Qed.

Lemma sin_squared_at_infinity (P : platform) (s : bool) :
  sin_squared P (S754_infinity s) = Raise (ValueError "math domain error").
Proof. reflexivity. Qed.

Lemma fsub_one_infinite (x y : float) :
  (is_inf x = true /\ is_finite y = true) \/
  (is_finite x = true /\ is_inf y = true) ->
  is_inf (fsub x y) = true.
Proof.
  intros [[Hx Hy] | [Hx Hy]].
  - destruct x; try discriminate Hx. now destruct y.
  - destruct y; try discriminate Hy. now destruct x.
Qed.

(** Extra X7. The distance is an error as soon as a latitude is infinite:
    [haversine_km] then raises [ValueError] (math domain error), whatever
    the other three coordinates are, NaN included. An infinite longitude set
    against a finite one makes it raise as well. *)
Theorem haversine_km_infinite (P : platform) (lat1 lon1 lat2 lon2 : float) :
  (is_inf lat1 = true \/ is_inf lat2 = true ->
   haversine_km P lat1 lon1 lat2 lon2
   = Raise (ValueError "math domain error")) /\
  ((is_inf lon1 = true /\ is_finite (radians lon2) = true) \/
   (is_finite (radians lon1) = true /\ is_inf lon2 = true) ->
   exists e, haversine_km P lat1 lon1 lat2 lon2 = Raise e).
Proof.
  split.
  - intros H. apply haversine_km_infinite_radians.
    destruct H as [H | H]; [left | right]; now apply is_inf_radians.
  - intros H. rewrite haversine_km_steps.
    apply bind_raises. intros p1. apply bind_raises. intros cc.
    assert (Hd : is_inf (fsub (radians lon2) (radians lon1)) = true).
    { apply fsub_one_infinite.
      destruct H as [[H1 H2] | [H1 H2]]; [right | left]; split;
        assumption || now apply is_inf_radians. }
    destruct (fsub (radians lon2) (radians lon1)) as [| s | |];
      try discriminate Hd.
    rewrite fdiv_two_special by reflexivity.
    rewrite sin_squared_at_infinity. now eexists.
Qed.

Lemma haversine_km_infinite_witness :
  haversine_km test_platform (float_of_Z 14) (float_of_Z 121)
    (S754_infinity true) S754_nan
  = Raise (ValueError "math domain error").
Proof.
  apply (haversine_km_infinite test_platform (float_of_Z 14) (float_of_Z 121)
           (S754_infinity true) S754_nan).
  right. reflexivity.
Defined.
(** ** The sort keeps every element *)

Section SortPermutation.

Context {A : Type}.
Variable key : A -> float.

Lemma insert_by_key_Permutation (x : A) (l : list A) :
  Permutation (insert_by_key key x l) (x :: l).
Proof.
  induction l as [|y l IH]; [reflexivity|].
  cbn [insert_by_key]. destruct (flt (key x) (key y)); [reflexivity|].
  rewrite IH. apply perm_swap.
Qed.

Lemma fold_insert_Permutation (l acc : list A) :
  Permutation (fold_left (fun acc x => insert_by_key key x acc) l acc)
    (l ++ acc).
Proof.
  revert acc. induction l as [|x l IH]; intros acc; [reflexivity|].
  cbn [fold_left]. rewrite IH, insert_by_key_Permutation.
  symmetry. apply Permutation_middle.
Qed.

Lemma list_sort_Permutation (reverse : bool) (l : list A) :
  Permutation (list_sort key reverse l) l.
Proof.
  unfold list_sort, stable_sort. destruct reverse.
  - rewrite <- Permutation_rev, fold_insert_Permutation, List.app_nil_r.
    symmetry. apply Permutation_rev.
  - rewrite fold_insert_Permutation. now rewrite List.app_nil_r.
Qed.

End SortPermutation.

Lemma In_take {A : Type} (x : A) (n : nat) (l : list A) :
  In x (take n l) -> In x l.
Proof.
  revert l. induction n as [|n IH]; intros [|y l]; cbn; try tauto.
  intros [-> | H]; [now left | right; now apply IH].
Qed.

Lemma In_slice_to {A : Type} (x : A) (l : list A) (k : Z) :
  In x (slice_to l k) -> In x l.
Proof. destruct (slice_to_prefix l k) as [n ->]. apply In_take. Qed.

Lemma sorted_index_NoDup (infos : list info) :
  StronglySorted index_lt infos -> NoDup (map info_index infos).
Proof.
  induction 1 as [|i infos Hs IH Hall]; cbn [map]; constructor; [|exact IH].
  intros Hin. apply list_elem_of_In, List.in_map_iff in Hin.
  destruct Hin as (j & Hij & Hj).
  rewrite List.Forall_forall in Hall. specialize (Hall j Hj).
  unfold index_lt in Hall. lia.
Qed.

Lemma attach_scores_entries (infos : list info) (scores : list float) :
  map entry (attach_scores infos scores) = take (length scores) infos.
Proof.
  unfold attach_scores. revert scores.
  induction infos as [|i infos IH]; intros [|s scores]; cbn; try reflexivity.
  now rewrite IH.
Qed.

Lemma ranked_Permutation (infos : list info) (scores : list float) :
  Permutation (ranked infos scores) (attach_scores infos scores).
Proof. apply list_sort_Permutation. Qed.

Lemma ranked_NoDup (infos : list info) (scores : list float) (k : Z) :
  StronglySorted index_lt infos ->
  NoDup (map (fun x => info_index (entry x))
           (slice_to (ranked infos scores) k)).
Proof.
  intros Hs. destruct (slice_to_prefix (ranked infos scores) k) as [n ->].
  apply sublist_NoDup with
    (l2 := map (fun x => info_index (entry x)) (ranked infos scores)).
  - rewrite (Permutation_map _ (ranked_Permutation infos scores)).
    rewrite <- (List.map_map entry info_index), attach_scores_entries.
    apply sublist_NoDup with (l2 := map info_index infos).
    + now apply sorted_index_NoDup.
    + apply (fmap_sublist info_index). apply sublist_take.
  - apply (fmap_sublist (fun x => info_index (entry x))). apply sublist_take.
Qed.

(** ** What the loop did with each record *)

Lemma feature_row_display (P : platform) (req : ParkingRequest) (idx : nat)
    (p : gmap string value) (row : list num) (i : info) :
  feature_row P req idx p = Ok (Some (row, i)) ->
  exists lat lng,
    coordinates P p = Ok (lat, lng) /\
    info_lat i = lat /\ info_lng i = lng /\
    info_name i = dict_get p "name" VNone /\
    info_details i = dict_get p "details" VNone /\
    info_address i = dict_get p "address" VNone /\
    info_link i = dict_get p "link" VNone /\
    info_city i = dict_get p "city" VNone /\
    info_opening i = dict_get p "opening" VNone /\
    info_closing i = dict_get p "closing" VNone /\
    haversine_km P (user_lat req) (user_lng req) lat lng
    = Ok (info_distance_km i) /\
    info_open_now i
    = negb (compute_open_now P (dict_get p "opening" VNone)
              (dict_get p "closing" VNone) (time_of_day req) =? 0) /\
    rate_to_float P (raw_field p "initial_rate_raw" "INITIAL RATE")
    = Ok (info_initial_rate i) /\
    info_pwd_discount i
    = discount_to_int (raw_field p "discount_raw" "PWD/SC DISCOUNT").
Proof.
  unfold feature_row.
  destruct (coordinates P p) as [[lat lng] | e]; [|discriminate].
  destruct (haversine_km P _ _ lat lng) as [d | e] eqn:Ed; [|discriminate].
  cbn [bind].
  destruct (rate_to_float P _) as [r | e] eqn:Er; [|discriminate].
  cbn [bind]. intros [= <- <-]. exists lat, lng. cbn.
  repeat split; assumption || reflexivity.
Qed.

Lemma build_rows_inv (P : platform) (req : ParkingRequest)
    (ps : list (gmap string value)) :
  forall idx rows infos,
  build_rows P req idx ps = Ok (rows, infos) ->
  (forall i, In i infos ->
     exists k p row,
       ps !! k = Some p /\ info_index i = (idx + k)%nat /\
       feature_row P req (idx + k) p = Ok (Some (row, i))) /\
  (forall k p, ps !! k = Some p ->
     (exists c, coordinates P p = Ok c) ->
     exists row i,
       feature_row P req (idx + k) p = Ok (Some (row, i)) /\ In i infos).
Proof.
  induction ps as [|p ps IH]; intros idx rows infos H.
  - injection H as <- <-. split; [intros i []|]. intros k q Hk.
    now rewrite lookup_nil in Hk.
  - cbn [build_rows] in H.
    destruct (feature_row P req idx p) as [r | e] eqn:Er; [|discriminate].
    cbn [bind] in H.
    destruct (build_rows P req (S idx) ps) as [[rows' infos'] | e] eqn:Eb;
      [|discriminate].
    cbn [bind fst snd] in H.
    destruct (IH (S idx) rows' infos' Eb) as [IH1 IH2].
    assert (Hold : forall i, In i infos' ->
              exists k q row,
                (p :: ps) !! k = Some q /\ info_index i = (idx + k)%nat /\
                feature_row P req (idx + k) q = Ok (Some (row, i))).
    { intros i Hi. destruct (IH1 i Hi) as (k & q & row & Hk & Hx & Hf).
      exists (S k), q, row. cbn [lookup list_lookup].
      replace (idx + S k)%nat with (S idx + k)%nat by lia. auto. }
    assert (Hnew : forall k q, ps !! k = Some q ->
              (exists c, coordinates P q = Ok c) ->
              exists row i,
                feature_row P req (idx + S k) q = Ok (Some (row, i)) /\
                In i infos').
    { intros k q Hk Hc. replace (idx + S k)%nat with (S idx + k)%nat by lia.
      now apply IH2. }
    destruct r as [[row i] |]; injection H as <- <-.
    + split.
      * intros j [<- | Hj]; [|now apply Hold].
        exists 0%nat, p, row. rewrite Nat.add_0_r.
        split; [reflexivity | split; [|exact Er]].
        now apply (feature_row_index P req idx p row i).
      * intros [|k] q Hk Hc.
        -- injection Hk as <-. exists row, i. rewrite Nat.add_0_r.
           split; [exact Er | now left].
        -- destruct (Hnew k q Hk Hc) as (row' & j & Hf & Hj).
           exists row', j. split; [exact Hf | now right].
    + split; [exact Hold|].
      intros [|k] q Hk Hc; [|now apply Hnew].
      injection Hk as <-. apply feature_row_skip in Er.
      destruct Er as [e Er], Hc as [c Hc]. congruence.
Qed.

Lemma recommend_entries (P : platform) (model : option predictor)
    (cat : list (gmap string value)) (req : ParkingRequest) (top_k : Z)
    (resp : response) :
  recommend P model cat req top_k = Ok resp ->
  exists m rows infos scores,
    model = Some m /\
    build_rows P req 0 cat = Ok (rows, infos) /\
    m (np_array rows) = Ok scores /\
    recommendations resp = slice_to (ranked infos scores) top_k /\
    forall x, In x (recommendations resp) ->
      In x (attach_scores infos scores) /\ In (entry x) infos.
Proof.
  intros H. apply recommend_Ok in H.
  destruct H as (m & rows & infos & scores & -> & _ & Hb & _ & Hm & ->).
  exists m, rows, infos, scores. cbn [recommendations].
  repeat split; try assumption.
  - apply In_slice_to in H.
    now apply (Permutation_in _ (ranked_Permutation infos scores)).
  - apply In_slice_to in H.
    apply (Permutation_in _ (ranked_Permutation infos scores)) in H.
    now apply (attach_scores_facts infos scores).
Qed.

(** Extra X9. Every recommendation is a record of the catalog, found at the
    catalog position its [index] gives, whose coordinates could be read; its
    display fields are the fields of that record, its distance, open flag,
    rate and discount flag are the ones computed from that record for this
    request; and no record is recommended twice. *)
Theorem recommend_provenance (P : platform) (model : option predictor)
    (cat : list (gmap string value)) (req : ParkingRequest) (top_k : Z)
    (resp : response) :
  recommend P model cat req top_k = Ok resp ->
  NoDup (map (fun x => info_index (entry x)) (recommendations resp)) /\
  forall x, In x (recommendations resp) ->
    exists p lat lng,
      cat !! info_index (entry x) = Some p /\
      coordinates P p = Ok (lat, lng) /\
      info_lat (entry x) = lat /\ info_lng (entry x) = lng /\
      info_name (entry x) = dict_get p "name" VNone /\
      info_details (entry x) = dict_get p "details" VNone /\
      info_address (entry x) = dict_get p "address" VNone /\
      info_link (entry x) = dict_get p "link" VNone /\
      info_city (entry x) = dict_get p "city" VNone /\
      info_opening (entry x) = dict_get p "opening" VNone /\
      info_closing (entry x) = dict_get p "closing" VNone /\
      haversine_km P (user_lat req) (user_lng req) lat lng
      = Ok (info_distance_km (entry x)) /\
      info_open_now (entry x)
      = negb (compute_open_now P (dict_get p "opening" VNone)
                (dict_get p "closing" VNone) (time_of_day req) =? 0) /\
      rate_to_float P (raw_field p "initial_rate_raw" "INITIAL RATE")
      = Ok (info_initial_rate (entry x)) /\
      info_pwd_discount (entry x)
      = discount_to_int (raw_field p "discount_raw" "PWD/SC DISCOUNT").
Proof.
  intros H.
  destruct (recommend_entries P model cat req top_k resp H)
    as (m & rows & infos & scores & _ & Hb & _ & Hr & Hin).
  split.
  - rewrite Hr. apply ranked_NoDup.
    now apply (build_rows_facts P req cat 0%nat rows infos Hb).
  - intros x Hx. destruct (Hin x Hx) as [_ Hi].
    destruct (build_rows_inv P req cat 0%nat rows infos Hb) as [Hinv _].
    destruct (Hinv (entry x) Hi) as (k & p & row & Hk & Hidx & Hf).
    cbn in Hidx, Hf. rewrite Hidx.
    destruct (feature_row_display P req k p row (entry x) Hf)
      as (lat & lng & Hd).
    exists p, lat, lng. split; [exact Hk | exact Hd].
Qed.

Lemma recommend_provenance_witness :
  NoDup (map (fun x => info_index (entry x)) (recommendations test_response)).
Proof.
  apply (recommend_provenance test_platform (Some test_model) test_catalog
           test_request 100 test_response).
  exact test_run.
Defined.
(** ** Every readable record is ranked *)

Lemma length_np_array (rows : list (list num)) :
  length (np_array rows) = length rows.
Proof. unfold np_array. apply List.length_map. Qed.

Lemma attach_scores_full (infos : list info) (scores : list float) (i : info) :
  length infos = length scores -> In i infos ->
  exists x, In x (attach_scores infos scores) /\ entry x = i.
Proof.
  intros Hlen Hi.
  assert (H : In i (map entry (attach_scores infos scores))).
  { rewrite attach_scores_entries, <- Hlen, firstn_all. exact Hi. }
  apply List.in_map_iff in H. destruct H as (x & Hx & Hin). now exists x.
Qed.

Lemma slice_to_all {A : Type} (l : list A) (k : Z) :
  Z.of_nat (length l) <= k -> slice_to l k = l.
Proof.
  intros H. rewrite slice_to_nonneg by lia. apply take_ge. lia.
Qed.

(** Extra X10. When the scoring function returns one score per row and
    [top_k] is at least the size of the catalog, nothing is left out: every
    record of the catalog whose coordinates can be read is among the
    recommendations, under its catalog position. *)
Theorem recommend_complete (P : platform) (model : predictor)
    (cat : list (gmap string value)) (req : ParkingRequest) (top_k : Z)
    (resp : response) :
  (forall X scores, model X = Ok scores -> length scores = length X) ->
  Z.of_nat (length cat) <= top_k ->
  recommend P (Some model) cat req top_k = Ok resp ->
  forall k p, cat !! k = Some p ->
    (exists c, coordinates P p = Ok c) ->
    exists x, In x (recommendations resp) /\ info_index (entry x) = k.
Proof.
  intros Hmodel Hk H k p Hp Hc. apply recommend_Ok in H.
  destruct H as (m & rows & infos & scores & [= <-] & _ & Hb & _ & Hm & ->).
  cbn [recommendations].
  destruct (build_rows_facts P req cat 0%nat rows infos Hb)
    as (Hlen & Hle & _).
  destruct (build_rows_inv P req cat 0%nat rows infos Hb) as [_ Hall].
  destruct (Hall k p Hp Hc) as (row & i & Hf & Hi). cbn in Hf.
  pose proof (Hmodel _ _ Hm) as Hs. rewrite length_np_array in Hs.
  destruct (attach_scores_full infos scores i) as (x & Hx & Hxi);
    [congruence | exact Hi |].
  exists x. split.
  - rewrite slice_to_all.
    + apply (Permutation_in _
               (Permutation_sym (ranked_Permutation infos scores))), Hx.
    + rewrite (Permutation_length (ranked_Permutation infos scores)).
      pose proof (attach_scores_facts infos scores) as (Hl & _).
      cbn zeta in Hl. rewrite Hl. lia.
  - rewrite Hxi. now apply (feature_row_index P req k p row i).
Qed.

Lemma test_model_lengths (X : list (list float)) (scores : list float) :
  test_model X = Ok scores -> length scores = length X.
Proof. intros [= <-]. apply List.length_map. Qed.

Lemma recommend_complete_witness :
  exists x, In x (recommendations test_response) /\
            info_index (entry x) = 2%nat.
Proof.
  apply (recommend_complete test_platform test_model test_catalog
           test_request 100 test_response test_model_lengths)
    with (p := facility "Lot" 14 120 "garbage" "N/A" (VStr "PHP 20.00")
                 (VFloat S754_nan)).
  - cbn. lia.
  - exact test_run.
  - reflexivity.
  - exists (float_of_Z 14, float_of_Z 120). reflexivity.
Defined.

(** ** One record that breaks every request *)

Lemma float_pow2_raise (P : platform) (x : float) (e : exn) :
  float_pow2 P x = Raise e ->
  e = OverflowError "(34, 'Numerical result out of range')".
Proof.
  destruct x as [| | | s m ex]; try discriminate. cbn [float_pow2].
  destruct (is_inf _); [|discriminate]. now intros [= <-].
Qed.

Lemma sin_squared_raise (P : platform) (x : float) (e : exn) :
  sin_squared P x = Raise e ->
  e = ValueError "math domain error" \/
  e = OverflowError "(34, 'Numerical result out of range')".
Proof.
  unfold sin_squared. destruct (math_sin P x) as [s | e'] eqn:E; cbn [bind].
  - intros H. right. now apply (float_pow2_raise P s).
  - intros [= <-]. left. now apply (math_1_raise _ _ _ E).
Qed.

Lemma haversine_km_raise (P : platform) (lat1 lon1 lat2 lon2 : float)
    (e : exn) :
  haversine_km P lat1 lon1 lat2 lon2 = Raise e ->
  e = ValueError "math domain error" \/
  e = OverflowError "(34, 'Numerical result out of range')".
Proof.
  rewrite haversine_km_steps.
  destruct (sin_squared P _) as [p1 | e1] eqn:E1; cbn [bind];
    [|intros [= <-]; now apply (sin_squared_raise P _ _ E1)].
  unfold cos_product.
  destruct (math_cos P (radians lat1)) as [c1 | e1] eqn:E2; cbn [bind];
    [|intros [= <-]; left; now apply (math_1_raise _ _ _ E2)].
  destruct (math_cos P (radians lat2)) as [c2 | e2] eqn:E3; cbn [bind];
    [|intros [= <-]; left; now apply (math_1_raise _ _ _ E3)].
  destruct (sin_squared P (fdiv (fsub (radians lon2) (radians lon1)) two))
    as [p2 | e2] eqn:E4; cbn [bind];
    [|intros [= <-]; now apply (sin_squared_raise P _ _ E4)].
  unfold great_circle.
  destruct (math_sqrt _) as [q | e2] eqn:E5; cbn [bind];
    [|intros [= <-]; left; now apply (math_1_raise _ _ _ E5)].
  destruct (math_asin P q) as [t | e2] eqn:E6; cbn [bind];
    [discriminate|].
  intros [= <-]; left; now apply (math_1_raise _ _ _ E6).
Qed.

Lemma rate_to_float_raise_kind (P : platform) (val : value) (e : exn) :
  rate_to_float P val = Raise e ->
  e = OverflowError "int too large to convert to float".
Proof.
  intros H. destruct (rate_to_float_raise P val e H) as (n & -> & Hn).
  cbn in H. unfold float_of_int in H. rewrite Hn in H. now injection H as <-.
Qed.

Lemma build_rows_raise (P : platform) (req : ParkingRequest)
    (ps : list (gmap string value)) :
  forall idx e, build_rows P req idx ps = Raise e ->
  exists k p, ps !! k = Some p /\ feature_row P req (idx + k) p = Raise e.
Proof.
  induction ps as [|p ps IH]; intros idx e H; [discriminate|].
  cbn [build_rows] in H.
  destruct (feature_row P req idx p) as [r | e'] eqn:Er; cbn [bind] in H.
  - destruct (build_rows P req (S idx) ps) as [rest | e'] eqn:Eb;
      cbn [bind] in H; [discriminate|]. injection H as ->.
    destruct (IH (S idx) e Eb) as (k & q & Hk & Hq).
    exists (S k), q. replace (idx + S k)%nat with (S idx + k)%nat by lia.
    auto.
  - injection H as ->. exists 0%nat, p. rewrite Nat.add_0_r. auto.
Qed.

Lemma build_rows_bad (P : platform) (req : ParkingRequest)
    (p : gmap string value) (ps : list (gmap string value)) :
  In p ps ->
  (forall idx, exists e, feature_row P req idx p = Raise e) ->
  forall idx, exists e, build_rows P req idx ps = Raise e.
Proof.
  intros Hin Hbad. induction ps as [|q ps IH]; intros idx; [destruct Hin|].
  cbn [build_rows]. destruct Hin as [-> | Hin].
  - destruct (Hbad idx) as [e ->]. now exists e.
  - apply bind_raises. intros r. destruct (IH Hin (S idx)) as [e ->].
    now exists e.
Qed.

Lemma feature_row_bad (P : platform) (req : ParkingRequest) (idx : nat)
    (p : gmap string value) (lat lng : float) :
  coordinates P p = Ok (lat, lng) ->
  is_inf lat = true \/
  (exists n, raw_field p "initial_rate_raw" "INITIAL RATE" = VInt n /\
             is_inf (float_of_Z n) = true) ->
  exists e, feature_row P req idx p = Raise e.
Proof.
  intros Hc Hbad. unfold feature_row. rewrite Hc.
  destruct Hbad as [Hl | (n & Hn & Hi)].
  - rewrite haversine_km_infinite_radians
      by (right; now apply is_inf_radians).
    now eexists.
  - apply bind_raises. intros d. rewrite Hn. cbn [rate_to_float
      is_int_or_float np_isnan float_of_value]. unfold float_of_int.
    rewrite Hi. now eexists.
Qed.

(** Extra X8. One record can fail every request. If the catalog holds a
    record whose coordinates can be read and whose latitude is infinite
    (the text [inf] is a float), or whose rate is an integer beyond the
    range of a float, then [recommend] raises for every request and every
    [top_k]; and when a model is loaded the exception is the raw
    [ValueError] or [OverflowError] of the loop, not one of the endpoint's
    own [HTTPException]s. *)
Theorem recommend_one_bad_record (P : platform) (model : option predictor)
    (cat : list (gmap string value)) (req : ParkingRequest) (top_k : Z)
    (p : gmap string value) (lat lng : float) :
  In p cat ->
  coordinates P p = Ok (lat, lng) ->
  is_inf lat = true \/
  (exists n, raw_field p "initial_rate_raw" "INITIAL RATE" = VInt n /\
             is_inf (float_of_Z n) = true) ->
  exists e,
    recommend P model cat req top_k = Raise e /\
    (model <> None ->
     e = ValueError "math domain error" \/
     e = OverflowError "(34, 'Numerical result out of range')" \/
     e = OverflowError "int too large to convert to float").
Proof.
  intros Hin Hc Hbad.
  destruct (build_rows_bad P req p cat Hin
              (fun idx => feature_row_bad P req idx p lat lng Hc Hbad) 0%nat)
    as [e He].
  destruct model as [m|].
  - exists e. split.
    + unfold recommend. destruct cat as [|q cat]; [destruct Hin|].
      now rewrite He.
    + intros _.
      destruct (build_rows_raise P req cat 0%nat e He) as (k & q & _ & Hq).
      destruct (feature_row_raise P req _ q e Hq) as (la & ln & _ & [H | H]).
      * destruct (haversine_km_raise P _ _ _ _ e H); auto.
      * right. right. now apply (rate_to_float_raise_kind P _ e H).
  - eexists. split; [reflexivity|]. intros H. now contradiction H.
Qed.

Lemma huge_rate_facility_coordinates :
  coordinates test_platform
    (facility "Vault" 14 121 "24/7" "24/7" (VInt (2 ^ 1024)) (VStr "yes"))
  = Ok (float_of_Z 14, float_of_Z 121).
Proof. vm_compute. reflexivity. Qed.

Lemma huge_rate_is_infinite : is_inf (float_of_Z (2 ^ 1024)) = true.
Proof. vm_compute. reflexivity. Qed.

Lemma recommend_one_bad_record_witness :
  exists e,
    recommend test_platform (Some test_model)
      (test_catalog ++
       [facility "Vault" 14 121 "24/7" "24/7" (VInt (2 ^ 1024)) (VStr "yes")])
      test_request 5 = Raise e /\
    (Some test_model <> None ->
     e = ValueError "math domain error" \/
     e = OverflowError "(34, 'Numerical result out of range')" \/
     e = OverflowError "int too large to convert to float").
Proof.
  apply (recommend_one_bad_record test_platform (Some test_model) _
           test_request 5
           (facility "Vault" 14 121 "24/7" "24/7" (VInt (2 ^ 1024))
              (VStr "yes"))
           (float_of_Z 14) (float_of_Z 121)).
  - apply in_or_app. right. now left.
  - exact huge_rate_facility_coordinates.
  - right. exists (2 ^ 1024). split; [reflexivity|].
    exact huge_rate_is_infinite.
Defined.
(** ** A record that cannot be read is not seen *)

Lemma feature_row_any_index (P : platform) (req : ParkingRequest)
    (idx idx' : nat) (p : gmap string value) :
  match feature_row P req idx p, feature_row P req idx' p with
  | Ok (Some (row, _)), Ok (Some (row', _)) => row = row'
  | Ok None, Ok None => True
  | Raise e, Raise e' => e = e'
  | _, _ => False
  end.
Proof.
  unfold feature_row.
  destruct (coordinates P p) as [[lat lng] | e]; [|exact I].
  destruct (haversine_km P _ _ lat lng) as [d | e]; cbn [bind];
    [|reflexivity].
  destruct (rate_to_float P _) as [r | e]; cbn [bind]; reflexivity.
Qed.

Lemma build_rows_any_index (P : platform) (req : ParkingRequest)
    (ps : list (gmap string value)) :
  forall idx idx',
  match build_rows P req idx ps, build_rows P req idx' ps with
  | Ok (rows, infos), Ok (rows', infos') =>
      rows = rows' /\ length infos = length infos'
  | Raise e, Raise e' => e = e'
  | _, _ => False
  end.
Proof.
  induction ps as [|p ps IH]; intros idx idx'; [now split|].
  cbn [build_rows].
  pose proof (feature_row_any_index P req idx idx' p) as Hf.
  pose proof (IH (S idx) (S idx')) as Hb.
  destruct (feature_row P req idx p) as [[[row i] |] | e],
    (feature_row P req idx' p) as [[[row' i'] |] | e'];
    try contradiction; cbn [bind]; try exact Hf;
    destruct (build_rows P req (S idx) ps) as [[rows infos] | e],
      (build_rows P req (S idx') ps) as [[rows' infos'] | e'];
    try contradiction; cbn [bind fst snd]; try exact Hb;
    destruct Hb as [-> Hl]; subst; cbn [length]; auto.
Qed.

(** Extra X11. A record whose coordinates cannot be read (no [lat] or [lng]
    key, [None], a text that is not a number) is skipped without a trace in
    what the model sees: the loop over the catalog with such a record gives
    the feature rows, and the failure if any, that it gives with the record
    taken out. *)
Theorem build_rows_skips_unreadable (P : platform) (req : ParkingRequest)
    (idx : nat) (c1 c2 : list (gmap string value)) (bad : gmap string value)
    (e : exn) :
  coordinates P bad = Raise e ->
  match build_rows P req idx (c1 ++ bad :: c2),
        build_rows P req idx (c1 ++ c2) with
  | Ok (rows, infos), Ok (rows', infos') =>
      rows = rows' /\ length infos = length infos'
  | Raise e1, Raise e2 => e1 = e2
  | _, _ => False
  end.
Proof.
  intros Hbad. revert idx.
  induction c1 as [|p c1 IH]; intros idx.
  - cbn [app build_rows].
    assert (Hskip : feature_row P req idx bad = Ok None)
      by (apply feature_row_skip; now exists e).
    rewrite Hskip. cbn [bind].
    pose proof (build_rows_any_index P req c2 (S idx) idx) as Hb.
    destruct (build_rows P req (S idx) c2) as [[rows infos] | e1],
      (build_rows P req idx c2) as [[rows' infos'] | e2];
      try contradiction; cbn [bind]; exact Hb.
  - cbn [app build_rows]. specialize (IH (S idx)).
    destruct (feature_row P req idx p) as [[[row i] |] | e0]; cbn [bind];
      [| |reflexivity];
      destruct (build_rows P req (S idx) (c1 ++ bad :: c2))
        as [[rows infos] | e1],
        (build_rows P req (S idx) (c1 ++ c2)) as [[rows' infos'] | e2];
      try contradiction; cbn [bind fst snd]; try exact IH;
      destruct IH as [-> Hl]; cbn [length]; auto.
Qed.

Lemma no_coordinates_record :
  coordinates test_platform {[ "name" := VStr "Ghost lot" ]}
  = Raise (KeyError "lat").
Proof. vm_compute. reflexivity. Qed.

Lemma build_rows_skips_unreadable_witness :
  match build_rows test_platform test_request 0
          ([] ++ {[ "name" := VStr "Ghost lot" ]} :: []),
        build_rows test_platform test_request 0 ([] ++ []) with
  | Ok (rows, infos), Ok (rows', infos') =>
      rows = rows' /\ length infos = length infos'
  | Raise e1, Raise e2 => e1 = e2
  | _, _ => False
  end.
Proof.
  exact (build_rows_skips_unreadable test_platform test_request 0 [] []
           {[ "name" := VStr "Ghost lot" ]} (KeyError "lat")
           no_coordinates_record).
Defined.

(** ** The distance from nowhere *)

Lemma fmul_nan_r (x : float) : fmul x S754_nan = S754_nan.
Proof. destruct x; reflexivity. Qed.

Lemma radians_nan (x : float) : is_nan x = true -> radians x = S754_nan.
Proof. destruct x; try discriminate. reflexivity. Qed.

Lemma great_circle_nan (P : platform) (cc p2 : float) :
  great_circle P S754_nan cc p2 = Ok S754_nan.
Proof. unfold great_circle. cbn. now rewrite !fmul_nan_r. Qed.

Lemma fsub_nan_r (x : float) : fsub x S754_nan = S754_nan.
Proof. destruct x; reflexivity. Qed.

(** Extra X12. A latitude that is NaN is no error for the distance: when
    the cosine of the other latitude and the sine term of the longitudes
    are computed without error, [haversine_km] from a point of NaN latitude
    answers NaN. *)
Theorem haversine_km_nan (P : platform) (lat1 lon1 lat2 lon2 c p : float) :
  is_nan lat1 = true ->
  math_cos P (radians lat2) = Ok c ->
  sin_squared P (fdiv (fsub (radians lon2) (radians lon1)) two) = Ok p ->
  haversine_km P lat1 lon1 lat2 lon2 = Ok S754_nan.
Proof.
  intros Hn Hc Hs. rewrite haversine_km_steps, (radians_nan lat1 Hn).
  rewrite fsub_nan_r, fdiv_two_special by reflexivity.
  rewrite sin_squared_nan. cbn [bind]. unfold cos_product.
  rewrite Hc. cbn [bind math_cos math_1 c_cos is_nan negb andb is_inf].
  rewrite Hs. cbn [bind]. apply great_circle_nan.
Qed.

Lemma cos_at_14 :
  math_cos test_platform (radians (float_of_Z 14)) = Ok one.
Proof. vm_compute. reflexivity. Qed.

Lemma sin_squared_at_121 :
  sin_squared test_platform
    (fdiv (fsub (radians (float_of_Z 121)) (radians (float_of_Z 121))) two)
  = Ok pos_zero.
Proof. vm_compute. reflexivity. Qed.

Lemma haversine_km_nan_witness :
  haversine_km test_platform S754_nan (float_of_Z 121)
    (float_of_Z 14) (float_of_Z 121) = Ok S754_nan.
Proof.
  exact (haversine_km_nan test_platform S754_nan (float_of_Z 121)
           (float_of_Z 14) (float_of_Z 121) one pos_zero eq_refl
           cos_at_14 sin_squared_at_121).
Defined.
(** * The routing endpoints *)

Import Routing.

(** ** The profile of a mode *)

Lemma lower_char_w (c : ascii) :
  lower_char c = "w"%char <-> c = "w"%char \/ c = "W"%char.
Proof.
  split.
  - each_char c; cbn; intros H; try discriminate H; auto.
  - intros [-> | ->]; reflexivity.
Qed.

Lemma lower_char_a (c : ascii) :
  lower_char c = "a"%char <-> c = "a"%char \/ c = "A"%char.
Proof.
  split.
  - each_char c; cbn; intros H; try discriminate H; auto.
  - intros [-> | ->]; reflexivity.
Qed.

Lemma lower_char_l (c : ascii) :
  lower_char c = "l"%char <-> c = "l"%char \/ c = "L"%char.
Proof.
  split.
  - each_char c; cbn; intros H; try discriminate H; auto.
  - intros [-> | ->]; reflexivity.
Qed.

Lemma lower_char_k (c : ascii) :
  lower_char c = "k"%char <-> c = "k"%char \/ c = "K"%char.
Proof.
  split.
  - each_char c; cbn; intros H; try discriminate H; auto.
  - intros [-> | ->]; reflexivity.
Qed.

Lemma or_empty (mode : string) :
  (if nonempty mode then mode else EmptyString) = mode.
Proof. now destruct mode. Qed.

Lemma mode_to_osrm_lower (mode : string) :
  _mode_to_osrm mode
  = if String.eqb (lower mode) "walk" then "walking" else "driving".
Proof. unfold _mode_to_osrm. now rewrite or_empty. Qed.

Lemma lower_walk (s : string) :
  lower s = "walk" <->
  exists c1 c2 c3 c4,
    s = String c1 (String c2 (String c3 (String c4 EmptyString))) /\
    lower_char c1 = "w"%char /\ lower_char c2 = "a"%char /\
    lower_char c3 = "l"%char /\ lower_char c4 = "k"%char.
Proof.
  split.
  - destruct s as [|c1 [|c2 [|c3 [|c4 [|c5 s]]]]]; cbn [lower];
      intros H; try discriminate H.
    injection H as H1 H2 H3 H4. exists c1, c2, c3, c4. auto.
  - intros (c1 & c2 & c3 & c4 & -> & H1 & H2 & H3 & H4).
    cbn [lower]. now rewrite H1, H2, H3, H4.
Qed.

(** Extra X13. [_mode_to_osrm] knows two profiles only. For a mode written
    in ASCII it answers [walking] exactly for the four letters of [walk] in
    any letter case with nothing around them, and [driving] for every other
    mode: [car] and [motor], but also [commute], the empty mode, a mode it
    has never heard of, and [walk] with a blank before it. *)
Theorem mode_to_osrm_profiles (mode : string) :
  (_mode_to_osrm mode = "walking" \/ _mode_to_osrm mode = "driving") /\
  (_mode_to_osrm mode = "walking" <->
   exists c1 c2 c3 c4,
     mode = String c1 (String c2 (String c3 (String c4 EmptyString))) /\
     (c1 = "w"%char \/ c1 = "W"%char) /\ (c2 = "a"%char \/ c2 = "A"%char) /\
     (c3 = "l"%char \/ c3 = "L"%char) /\ (c4 = "k"%char \/ c4 = "K"%char)) /\
  (String.length mode <> 4%nat -> _mode_to_osrm mode = "driving").
Proof.
  rewrite mode_to_osrm_lower.
  assert (Hiff : (if String.eqb (lower mode) "walk"
                  then "walking" else "driving") = "walking"
                 <-> lower mode = "walk").
  { destruct (String.eqb_spec (lower mode) "walk") as [E | E].
    - tauto.
    - split; [discriminate | contradiction]. }
  split; [|split].
  - destruct (String.eqb (lower mode) "walk"); auto.
  - rewrite Hiff, lower_walk.
    split; intros (c1 & c2 & c3 & c4 & Hm & H1 & H2 & H3 & H4);
      exists c1, c2, c3, c4;
      (split; [exact Hm|]);
      [ apply lower_char_w in H1; apply lower_char_a in H2;
        apply lower_char_l in H3; apply lower_char_k in H4
      | apply lower_char_w in H1; apply lower_char_a in H2;
        apply lower_char_l in H3; apply lower_char_k in H4 ];
      auto.
  - intros Hlen.
    destruct (String.eqb_spec (lower mode) "walk") as [E | E];
      [|reflexivity].
    apply lower_walk in E. destruct E as (c1 & c2 & c3 & c4 & -> & _).
    now contradiction Hlen.
Qed.

Lemma mode_to_osrm_profiles_witness :
  _mode_to_osrm "WaLk" = "walking" /\ _mode_to_osrm "commute" = "driving".
Proof.
  split.
  - apply (mode_to_osrm_profiles "WaLk").
    exists "W"%char, "a"%char, "L"%char, "k"%char. tauto.
  - apply (mode_to_osrm_profiles "commute"). discriminate.
Defined.
(** ** What is read from an OSRM answer *)

Lemma get_object (m : gmap string json) (k : string) (d : json) :
  get (JObject m) k d = Returned (default d (m !! k)).
Proof. reflexivity. Qed.

Lemma get_empty (k : string) (d : json) :
  get (JObject ∅) k d = Returned d.
Proof. rewrite get_object. now rewrite lookup_empty. Qed.

Lemma get_not_object (x : json) (k : string) (d : json) :
  (forall m, x <> JObject m) ->
  get x k d = Raised (Failure "AttributeError" (Method "get") x).
Proof. intros H. destruct x; try reflexivity. now contradiction (H m). Qed.

Lemma osrm_route_data (N : network) (profile : string)
    (o d : float * float) (data : json) :
  urlopen_json N (route_url N profile o d) = Returned data ->
  _osrm_route N profile o d =
  (routes <-? get data "routes" (JList [JObject ∅]);;
   route0 <-? item routes 0;;
   geom <-? get route0 "geometry" (JObject ∅);;
   coords <-? get geom "coordinates" (JList []);;
   duration <-? get route0 "duration" JNull;;
   x <-? float_if_number duration;;
   Returned (coords, x)).
Proof.
  intros H. unfold _osrm_route, _http_get_json. rewrite H. cbn [and_then].
  destruct (get data "routes" (JList [JObject ∅])) as [routes | e];
    [|reflexivity].
  cbn [and_then]. destruct (item routes 0) as [route0 | e]; [|reflexivity].
  cbn [and_then].
  destruct (get route0 "geometry" (JObject ∅)) as [geom | e]; [|reflexivity].
  cbn [and_then].
  destruct (get geom "coordinates" (JList [])) as [coords | e]; reflexivity.
Qed.

(** Extra X14. What [_osrm_route] makes of the answer of the server. A
    failure of the request is passed on. An answer that is not a JSON object
    is an [AttributeError]. An object without [routes] is no error: it gives
    no coordinates and no duration. An empty [routes] list is an
    [IndexError], and a null one a [TypeError]. Otherwise the first route
    alone is read: its coordinates, or the empty list when its geometry has
    none, and its duration as a float when it is a number (a boolean
    included), as [None] when it is anything else. *)
Theorem osrm_route_answers (N : network) (profile : string)
    (o d : float * float) :
  (forall e, urlopen_json N (route_url N profile o d) = Raised e ->
     _osrm_route N profile o d = Raised e) /\
  (forall data, urlopen_json N (route_url N profile o d) = Returned data ->
     ((forall m, data <> JObject m) ->
      _osrm_route N profile o d
      = Raised (Failure "AttributeError" (Method "get") data)) /\
     (forall m, data = JObject m ->
        (m !! "routes" = None ->
         _osrm_route N profile o d = Returned (JList [], None)) /\
        (m !! "routes" = Some (JList []) ->
         _osrm_route N profile o d
         = Raised (Failure "IndexError" (Index 0) (JList []))) /\
        (m !! "routes" = Some JNull ->
         _osrm_route N profile o d
         = Raised (Failure "TypeError" (Index 0) JNull)) /\
        (forall r rest g,
           m !! "routes" = Some (JList (JObject r :: rest)) ->
           r !! "geometry" = Some (JObject g) ->
           _osrm_route N profile o d =
           match float_if_number (default JNull (r !! "duration")) with
           | Returned x =>
               Returned (default (JList []) (g !! "coordinates"), x)
           | Raised e => Raised e
           end))).
Proof.
  split.
  - intros e H. unfold _osrm_route, _http_get_json. now rewrite H.
  - intros data H. rewrite (osrm_route_data N profile o d data H). split.
    + intros Hno. now rewrite get_not_object.
    + intros m ->. rewrite get_object. repeat split.
      * intros ->.
        cbn [default from_option id and_then item lookup list_lookup].
        rewrite !get_empty. reflexivity.
      * intros ->. reflexivity.
      * intros ->. reflexivity.
      * intros r rest g -> Hg.
        cbn [default from_option id and_then item lookup list_lookup].
        rewrite !get_object, Hg. cbn [default from_option id and_then].
        rewrite get_object. cbn [and_then].
        now destruct (float_if_number _).
Qed.

Lemma one_route_answer :
  _osrm_route (replies one_route) "driving" (pair_of manila) (pair_of baguio)
  = Returned (JList [ JList [JInt 121; JInt 14]; JList [JInt 120; JInt 16] ],
              Some (float_of_Z 90)).
Proof. vm_compute. reflexivity. Qed.

Lemma osrm_route_answers_witness :
  _osrm_route (replies no_route) "driving" (pair_of manila) (pair_of baguio)
  = Raised (Failure "IndexError" (Index 0) (JList [])).
Proof.
  pose proof (osrm_route_answers (replies no_route) "driving"
                (pair_of manila) (pair_of baguio)) as [_ H].
  destruct (H no_route eq_refl) as [_ Hm].
  destruct (Hm _ eq_refl) as (_ & Hempty & _).
  apply Hempty. reflexivity.
Defined.
(** ** What is read from an OSRM trip *)

Lemma or_else_nothing (x : option json) (d : json) :
  nothing x -> or_else (default JNull x) d = d.
Proof. intros [-> | [-> | ->]]; reflexivity. Qed.

Lemma or_else_object (t : gmap string json) :
  or_else (JObject t) (JObject ∅) = JObject t.
Proof.
  unfold or_else. cbn [truth].
  destruct (map_to_list t) eqn:E; [|reflexivity].
  apply map_to_list_empty_iff in E. now subst t.
Qed.

Lemma waypoint_lat_lon_at (p : float * float) :
  waypoint_lat_lon (waypoint_at p) = Returned (as_json p).
Proof.
  unfold waypoint_lat_lon, waypoint_at. cbn [item_key].
  rewrite lookup_singleton_eq. reflexivity.
Qed.

Lemma comprehension_waypoints (l : list (float * float)) :
  comprehension waypoint_lat_lon (map waypoint_at l)
  = Returned (map as_json l).
Proof.
  induction l as [|p l IH]; [reflexivity|].
  cbn [map comprehension]. rewrite waypoint_lat_lon_at, IH. reflexivity.
Qed.

Lemma osrm_trip_data (N : network) (profile : string)
    (points : list (float * float)) (data : json) :
  points <> [] ->
  urlopen_json N (trip_url N profile points) = Returned data ->
  _osrm_trip N profile points =
  (trips <-? get data "trips" JNull;;
   trip <-? item (or_else trips (JList [JNull])) 0;;
   geom <-? get (or_else trip (JObject ∅)) "geometry" (JObject ∅);;
   coords <-? get geom "coordinates" (JList []);;
   duration <-? get (or_else trip (JObject ∅)) "duration" JNull;;
   found <-? get data "waypoints" JNull;;
   ordered <-?
     (if truth (or_else found (JList []))
      then ws <-? iterate (or_else found (JList []));;
           comprehension waypoint_lat_lon ws
      else Returned (map as_json points));;
   x <-? float_if_number duration;;
   Returned (coords, ordered, x)).
Proof.
  intros Hne H. destruct points as [|p ps]; [contradiction|].
  unfold _osrm_trip, _http_get_json. rewrite H. reflexivity.
Qed.

(** Extra X15. What [_osrm_trip] makes of the answer of the server. For no
    point at all it answers at once, without a request, whatever the
    server. A failure of the request is passed on. When the answer has no
    trip and no waypoint (each missing, null or empty) that is no error: the
    geometry is empty, the duration [None], and the points come back in the
    order they were given. When the server reports one waypoint per point,
    at the point itself, the [[lon, lat]] of each location is turned back
    into the (lat, lon) that was sent. *)
Theorem osrm_trip_answers (N : network) (profile : string) :
  _osrm_trip N profile [] = Returned (JList [], [], None) /\
  (forall points e, points <> [] ->
     urlopen_json N (trip_url N profile points) = Raised e ->
     _osrm_trip N profile points = Raised e) /\
  (forall points m, points <> [] ->
     urlopen_json N (trip_url N profile points) = Returned (JObject m) ->
     (nothing (m !! "trips") -> nothing (m !! "waypoints") ->
      _osrm_trip N profile points
      = Returned (JList [], map as_json points, None)) /\
     (forall t rest g,
        m !! "trips" = Some (JList (JObject t :: rest)) ->
        t !! "geometry" = Some (JObject g) ->
        m !! "waypoints" = Some (JList (map waypoint_at points)) ->
        _osrm_trip N profile points =
        match float_if_number (default JNull (t !! "duration")) with
        | Returned x =>
            Returned (default (JList []) (g !! "coordinates"),
                      map as_json points, x)
        | Raised e => Raised e
        end)).
Proof.
  split; [reflexivity | split].
  - intros points e Hne H. destruct points as [|p ps]; [contradiction|].
    unfold _osrm_trip, _http_get_json. now rewrite H.
  - intros points m Hne H.
    rewrite (osrm_trip_data N profile points (JObject m) Hne H).
    rewrite !get_object. cbn [and_then]. split.
    + intros Ht Hw. rewrite (or_else_nothing _ _ Ht), (or_else_nothing _ _ Hw).
      cbn [item lookup list_lookup and_then or_else truth].
      rewrite !get_empty. reflexivity.
    + intros t rest g -> Hg ->.
      destruct points as [|p ps]; [contradiction|].
      cbn [default from_option id or_else truth item lookup list_lookup
             and_then map].
      rewrite or_else_object, !get_object, Hg.
      cbn [default from_option id and_then]. rewrite get_object.
      cbn [and_then iterate comprehension].
      rewrite waypoint_lat_lon_at. cbn [and_then].
      rewrite comprehension_waypoints. cbn [and_then].
      now destruct (float_if_number _).
Qed.

Lemma osrm_trip_answers_witness :
  _osrm_trip (replies (JObject ∅)) "driving" [pair_of manila; pair_of baguio]
  = Returned (JList [],
              map as_json [pair_of manila; pair_of baguio], None).
Proof.
  pose proof (osrm_trip_answers (replies (JObject ∅)) "driving")
    as (_ & _ & H).
  destruct (H [pair_of manila; pair_of baguio] ∅) as [Hnone _].
  - discriminate.
  - reflexivity.
  - apply Hnone; left; apply lookup_empty.
Defined.
(** ** How the routing endpoints fail *)

Lemma osrm_route_unreachable (N : network) (profile : string)
    (o d : float * float) (cause : failure) :
  urlopen_json N (route_url N profile o d) = Raised cause ->
  _osrm_route N profile o d = Raised cause.
Proof. intros H. unfold _osrm_route, _http_get_json. now rewrite H. Qed.

Lemma osrm_trip_unreachable (N : network) (profile : string)
    (pts : list (float * float)) (cause : failure) :
  pts <> [] ->
  urlopen_json N (trip_url N profile pts) = Raised cause ->
  _osrm_trip N profile pts = Raised cause.
Proof.
  intros Hne H. destruct pts as [|p pts]; [contradiction|].
  unfold _osrm_trip, _http_get_json. now rewrite H.
Qed.

Lemma eta_raises (P : platform) (N : network) (HAS_ROUTER : option router_ml)
    (req : EtaRequest) (e : exn) :
  eta P N HAS_ROUTER req = Raise e <->
  eta_router P HAS_ROUTER (pair_of (eta_origin req))
    (pair_of (eta_destination req)) (eta_mode req) = None /\
  exists cause,
    _osrm_route N (_mode_to_osrm (eta_mode req)) (pair_of (eta_origin req))
      (pair_of (eta_destination req)) = Raised cause /\
    e = HTTPException 500 ("ETA failed: " +:+ failure_str N cause).
Proof.
  unfold eta. destruct (eta_router _ _ _ _ _) as [answer|].
  - split; [discriminate | intros [H _]; discriminate H].
  - cbn zeta. destruct (_osrm_route _ _ _ _) as [[c d] | cause].
    + split; [discriminate | intros (_ & cause & H & _); discriminate H].
    + split.
      * intros [= <-]. split; [reflexivity|]. now exists cause.
      * intros (_ & cause' & [= <-] & ->). reflexivity.
Qed.

Lemma route_raises (P : platform) (N : network) (HAS_ROUTER : option router_ml)
    (req : RouteRequest) (e : exn) :
  let o := pair_of (route_origin req) in
  let d := pair_of (route_destination req) in
  let stops := map pair_of (default [] (route_stops req)) in
  let profile := _mode_to_osrm (route_mode req) in
  route P N HAS_ROUTER req = Raise e <->
  route_router P HAS_ROUTER o d (route_mode req) stops = None /\
  exists cause,
    (stops = [] /\ _osrm_route N profile o d = Raised cause \/
     stops <> [] /\
     _osrm_trip N profile ([o] ++ stops ++ [d]) = Raised cause) /\
    e = HTTPException 500 ("Route failed: " +:+ failure_str N cause).
Proof.
  intros o d stops profile. unfold route. fold o d stops profile.
  destruct (route_router _ _ _ _ _ _) as [answer|].
  - split; [discriminate | intros [H _]; discriminate H].
  - cbn zeta. destruct stops as [|s stops'] eqn:Es.
    + destruct (_osrm_route N profile o d) as [[c t] | cause].
      * split; [discriminate|].
        intros (_ & cause & [[_ H] | [H _]] & _);
          [discriminate H | now contradiction H].
      * split.
        -- intros [= <-]. split; [reflexivity|]. exists cause.
           split; [left; now split | reflexivity].
        -- intros (_ & cause' & [[_ [= <-]] | [H _]] & ->);
             [reflexivity | now contradiction H].
    + destruct (_osrm_trip N profile ([o] ++ (s :: stops') ++ [d]))
        as [[[c w] t] | cause].
      * cbn [and_then fst snd]. split; [discriminate|].
        intros (_ & cause & [[H _] | [_ H]] & _); discriminate H.
      * cbn [and_then]. split.
        -- intros [= <-]. split; [reflexivity|]. exists cause.
           split; [right; split; [discriminate | reflexivity] | reflexivity].
        -- intros (_ & cause' & [[H _] | [_ [= <-]]] & ->);
             [discriminate H | reflexivity].
Qed.

Lemma optimize_raises (P : platform) (N : network)
    (HAS_ROUTER : option router_ml) (req : OptimizeRequest) (e : exn) :
  let o := pair_of (optimize_origin req) in
  let d := pair_of (optimize_destination req) in
  let stops := map pair_of (optimize_stops req) in
  let profile := _mode_to_osrm (optimize_mode req) in
  optimize P N HAS_ROUTER req = Raise e <->
  optimize_router P HAS_ROUTER o stops d (optimize_mode req) = None /\
  exists cause,
    (_osrm_trip N profile ([o] ++ stops ++ [d]) = Raised cause \/
     exists r,
       _osrm_trip N profile ([o] ++ stops ++ [d]) = Returned r /\
       comprehension (latitude_longitude P) (snd (fst r)) = Raised cause) /\
    e = HTTPException 500 ("Optimize failed: " +:+ failure_str N cause).
Proof.
  intros o d stops profile. unfold optimize. fold o d stops profile.
  destruct (optimize_router _ _ _ _ _ _) as [answer|].
  - split; [discriminate | intros [H _]; discriminate H].
  - cbn zeta.
    destruct (_osrm_trip N profile ([o] ++ stops ++ [d])) as [r | cause].
    + cbn [and_then].
      destruct (comprehension (latitude_longitude P) (snd (fst r)))
        as [l | cause] eqn:El.
      * cbn [and_then]. split; [discriminate|].
        intros (_ & cause & [H | (r' & [= <-] & H)] & _);
          [discriminate H | congruence].
      * cbn [and_then]. split.
        -- intros [= <-]. split; [reflexivity|]. exists cause.
           split; [right; now exists r | reflexivity].
        -- intros (_ & cause' & [H | (r' & [= <-] & H)] & ->);
             [discriminate H | congruence].
    + cbn [and_then]. split.
      * intros [= <-]. split; [reflexivity|]. exists cause.
        split; [now left | reflexivity].
      * intros (_ & cause' & [[= <-] | (r & H & _)] & ->);
          [reflexivity | discriminate H].
Qed.

(** Extra X16. Under [/eta], [/route] and [/optimize] a failure of the
    fallback is never swallowed and never leaves as it is. Each endpoint
    raises exactly when the router module gave no answer and the OSRM helper
    it calls raised ([_osrm_route]; [_osrm_trip] when [/route] has stops;
    for [/optimize] [_osrm_trip] or the conversion of a point it handed
    back); what it raises is then the [HTTPException] of status 500 whose
    detail is the prefix of the endpoint followed by the text of that very
    exception. In particular, when the router gave no answer and the
    request to the OSRM server fails, the endpoint raises with the text of
    the failed request. *)
Theorem routing_failures (P : platform) (N : network)
    (HAS_ROUTER : option router_ml) :
  (forall req e,
     eta P N HAS_ROUTER req = Raise e <->
     eta_router P HAS_ROUTER (pair_of (eta_origin req))
       (pair_of (eta_destination req)) (eta_mode req) = None /\
     exists cause,
       _osrm_route N (_mode_to_osrm (eta_mode req)) (pair_of (eta_origin req))
         (pair_of (eta_destination req)) = Raised cause /\
       e = HTTPException 500 ("ETA failed: " +:+ failure_str N cause)) /\
  (forall req e,
     let o := pair_of (route_origin req) in
     let d := pair_of (route_destination req) in
     let stops := map pair_of (default [] (route_stops req)) in
     let profile := _mode_to_osrm (route_mode req) in
     route P N HAS_ROUTER req = Raise e <->
     route_router P HAS_ROUTER o d (route_mode req) stops = None /\
     exists cause,
       (stops = [] /\ _osrm_route N profile o d = Raised cause \/
        stops <> [] /\
        _osrm_trip N profile ([o] ++ stops ++ [d]) = Raised cause) /\
       e = HTTPException 500 ("Route failed: " +:+ failure_str N cause)) /\
  (forall req e,
     let o := pair_of (optimize_origin req) in
     let d := pair_of (optimize_destination req) in
     let stops := map pair_of (optimize_stops req) in
     let profile := _mode_to_osrm (optimize_mode req) in
     optimize P N HAS_ROUTER req = Raise e <->
     optimize_router P HAS_ROUTER o stops d (optimize_mode req) = None /\
     exists cause,
       (_osrm_trip N profile ([o] ++ stops ++ [d]) = Raised cause \/
        exists r,
          _osrm_trip N profile ([o] ++ stops ++ [d]) = Returned r /\
          comprehension (latitude_longitude P) (snd (fst r)) = Raised cause) /\
       e = HTTPException 500 ("Optimize failed: " +:+ failure_str N cause)) /\
  (forall req cause,
     let o := pair_of (eta_origin req) in
     let d := pair_of (eta_destination req) in
     eta_router P HAS_ROUTER o d (eta_mode req) = None ->
     urlopen_json N (route_url N (_mode_to_osrm (eta_mode req)) o d)
     = Raised cause ->
     eta P N HAS_ROUTER req
     = Raise (HTTPException 500 ("ETA failed: " +:+ failure_str N cause))) /\
  (forall req cause,
     let o := pair_of (route_origin req) in
     let d := pair_of (route_destination req) in
     let stops := map pair_of (default [] (route_stops req)) in
     let profile := _mode_to_osrm (route_mode req) in
     route_router P HAS_ROUTER o d (route_mode req) stops = None ->
     urlopen_json N
       (match stops with
        | [] => route_url N profile o d
        | _ => trip_url N profile ([o] ++ stops ++ [d])
        end) = Raised cause ->
     route P N HAS_ROUTER req
     = Raise (HTTPException 500 ("Route failed: " +:+ failure_str N cause))) /\
  (forall req cause,
     let o := pair_of (optimize_origin req) in
     let d := pair_of (optimize_destination req) in
     let stops := map pair_of (optimize_stops req) in
     let profile := _mode_to_osrm (optimize_mode req) in
     optimize_router P HAS_ROUTER o stops d (optimize_mode req) = None ->
     urlopen_json N (trip_url N profile ([o] ++ stops ++ [d])) = Raised cause ->
     optimize P N HAS_ROUTER req
     = Raise (HTTPException 500
                ("Optimize failed: " +:+ failure_str N cause))).
Proof.
  split; [exact (eta_raises P N HAS_ROUTER)|].
  split; [exact (route_raises P N HAS_ROUTER)|].
  split; [exact (optimize_raises P N HAS_ROUTER)|].
  split; [|split].
  - intros req cause o d Hr Hu. apply eta_raises. split; [exact Hr|].
    exists cause. split; [|reflexivity]. now apply osrm_route_unreachable.
  - intros req cause o d stops profile Hr Hu. apply route_raises.
    split; [exact Hr|]. exists cause. split; [|reflexivity].
    fold o d stops profile. destruct stops as [|s stops'].
    + left. split; [reflexivity|]. now apply osrm_route_unreachable.
    + right. split; [discriminate|].
      apply osrm_trip_unreachable; [discriminate | exact Hu].
  - intros req cause o d stops profile Hr Hu. apply optimize_raises.
    split; [exact Hr|]. exists cause. split; [|reflexivity]. left.
    apply osrm_trip_unreachable; [discriminate | exact Hu].
Qed.

Lemma no_route_raises :
  _osrm_route (replies no_route) (_mode_to_osrm "walk") (pair_of manila)
    (pair_of baguio)
  = Raised (Failure "IndexError" (Index 0) (JList [])).
Proof. vm_compute. reflexivity. Qed.

Lemma routing_failures_witness :
  eta test_platform unreachable None
    {| eta_origin := manila; eta_destination := baguio;
       eta_mode := "car"; departAt := None |}
  = Raise (HTTPException 500 "ETA failed: <urlopen error timed out>") /\
  route test_platform (replies no_route)
    (Some (fixed_router (VInt 90)))
    {| route_origin := manila; route_destination := baguio;
       route_mode := "walk"; route_stops := None |}
  = Raise (HTTPException 500 "Route failed: IndexError") /\
  optimize test_platform unreachable None
    {| optimize_origin := manila; optimize_destination := baguio;
       optimize_stops := [manila]; optimize_mode := "car" |}
  = Raise (HTTPException 500 "Optimize failed: <urlopen error timed out>").
Proof.
  destruct (routing_failures test_platform unreachable None)
    as (_ & _ & _ & Heta & _ & Hopt).
  destruct (routing_failures test_platform (replies no_route)
              (Some (fixed_router (VInt 90)))) as (_ & Hroute & _).
  split; [|split].
  - exact (Heta {| eta_origin := manila; eta_destination := baguio;
                   eta_mode := "car"; departAt := None |}
             (External "<urlopen error timed out>") eq_refl eq_refl).
  - apply Hroute. split; [reflexivity|].
    exists (Failure "IndexError" (Index 0) (JList [])).
    split; [|reflexivity]. left. split; [reflexivity|].
    exact no_route_raises.
  - exact (Hopt {| optimize_origin := manila; optimize_destination := baguio;
                   optimize_stops := [manila]; optimize_mode := "car" |}
             (External "<urlopen error timed out>") eq_refl eq_refl).
Defined.

(** ** The router first, OSRM next *)

Lemma usable_seconds_cases (s : value) :
  usable_seconds s = true <->
  (exists n, s = VInt n /\ 0 <= n) \/
  (exists b, s = VBool b) \/
  (exists f, s = VFloat f /\ fge f pos_zero = true).
Proof.
  split.
  - destruct s as [| | n | b | f |]; cbn; intros H; try discriminate H.
    + left. exists n. split; [reflexivity | lia].
    + right. left. now exists b.
    + right. right. now exists f.
  - intros [(n & -> & Hn) | [(b & ->) | (f & -> & Hf)]]; cbn;
      [lia | reflexivity | exact Hf].
Qed.

Lemma usable_seconds_nonneg (P : platform) (s : value) (f : float) :
  usable_seconds s = true -> float_of_value P s = Ok f ->
  fge f pos_zero = true.
Proof.
  intros Hu Hf. apply usable_seconds_cases in Hu.
  destruct Hu as [(n & -> & Hn) | [(b & ->) | (g & -> & Hg)]].
  - cbn in Hf. unfold float_of_int in Hf.
    destruct (is_inf (float_of_Z n)); [discriminate|]. injection Hf as <-.
    pose proof (float_of_Z_signed n) as Hs.
    replace (n <? 0) with false in Hs by lia.
    now apply signed_nonneg.
  - injection Hf as <-. now destruct b.
  - now injection Hf as <-.
Qed.

(** Extra X17. [/eta] takes the router's word only for a number that is not
    negative: an integer from 0 up, a boolean, or a float at or above 0.0
    (so neither NaN nor a negative number). Such an answer is returned as a
    float, which is never below 0.0, and OSRM is not asked: the network
    plays no part. In every other case (no router, a router that raises, a
    negative number, NaN, [None], a text, an integer too large for a float)
    the answer is the one [/eta] gives without a router. *)
Theorem eta_router_first (P : platform) (N : network) (router : router_ml)
    (req : EtaRequest) :
  let said :=
    ml_eta router (pair_of (eta_origin req)) (pair_of (eta_destination req))
      (eta_mode req) in
  (forall s f, said = Some s -> usable_seconds s = true ->
     float_of_value P s = Ok f ->
     fge f pos_zero = true /\
     forall N', eta P N' (Some router) req = Ok {| seconds := Some f |}) /\
  (said = None \/
   (exists s, said = Some s /\
      (usable_seconds s = false \/
       exists e, float_of_value P s = Raise e)) ->
   eta P N (Some router) req = eta P N None req) /\
  (forall s, usable_seconds s = true <->
     (exists n, s = VInt n /\ 0 <= n) \/
     (exists b, s = VBool b) \/
     (exists f, s = VFloat f /\ fge f pos_zero = true)).
Proof.
  intros said. split; [|split].
  - intros s f Hs Hu Hf. split; [now apply (usable_seconds_nonneg P s)|].
    intros N'. unfold eta, eta_router. fold said. now rewrite Hs, Hu, Hf.
  - intros H. unfold eta, eta_router. fold said.
    destruct H as [-> | (s & -> & [Hu | [e He]])]; [reflexivity | |].
    + now rewrite Hu.
    + rewrite He. now destruct (usable_seconds s).
  - exact usable_seconds_cases.
Qed.

Lemma eta_router_first_witness :
  eta test_platform unreachable (Some (fixed_router (VInt 90)))
    {| eta_origin := manila; eta_destination := baguio;
       eta_mode := "car"; departAt := None |}
  = Ok {| seconds := Some (float_of_Z 90) |} /\
  eta test_platform unreachable (Some (fixed_router (VFloat S754_nan)))
    {| eta_origin := manila; eta_destination := baguio;
       eta_mode := "car"; departAt := None |}
  = eta test_platform unreachable None
      {| eta_origin := manila; eta_destination := baguio;
         eta_mode := "car"; departAt := None |}.
Proof.
  split.
  - pose proof (eta_router_first test_platform unreachable
                  (fixed_router (VInt 90))
                  {| eta_origin := manila; eta_destination := baguio;
                     eta_mode := "car"; departAt := None |}) as [H _].
    destruct (H (VInt 90) (float_of_Z 90) eq_refl eq_refl eq_refl)
      as [_ Hall].
    apply Hall.
  - pose proof (eta_router_first test_platform unreachable
                  (fixed_router (VFloat S754_nan))
                  {| eta_origin := manila; eta_destination := baguio;
                     eta_mode := "car"; departAt := None |}) as (_ & H & _).
    apply H. right. exists (VFloat S754_nan). split; [reflexivity|].
    left. reflexivity.
Defined.
(** ** Which way round a point of the router is *)

Lemma fle_not_nan (x y : float) :
  fle x y = true -> is_nan x = false /\ is_nan y = false.
Proof. destruct x, y; cbn; intros H; try discriminate H; auto. Qed.

Lemma fle_key (x y : float) :
  is_nan x = false -> is_nan y = false ->
  (fle x y = true <-> ~ key_lt (fkey y) (fkey x)).
Proof. intros Hx Hy. exact (fge_key y x Hy Hx). Qed.

Lemma fle_trans (x y z : float) :
  fle x y = true -> fle y z = true -> fle x z = true.
Proof.
  intros Hxy Hyz.
  destruct (fle_not_nan x y Hxy) as [Nx Ny].
  destruct (fle_not_nan y z Hyz) as [_ Nz].
  apply (fle_key x y Nx Ny) in Hxy. apply (fle_key y z Ny Nz) in Hyz.
  apply (fle_key x z Nx Nz).
  unfold key_lt in *.
  destruct (fkey x) as [[x1 x2] x3], (fkey y) as [[y1 y2] y3],
    (fkey z) as [[z1 z2] z3].
  cbn [fst snd] in *. lia.
Qed.

Lemma within_wider (x : float) : within 90 x = true -> within 180 x = true.
Proof.
  unfold within. intros [H1 H2]%andb_prop. apply andb_true_intro. split.
  - apply (fle_trans _ (float_of_Z (- 90))); [|exact H1].
    vm_compute. reflexivity.
  - apply (fle_trans _ (float_of_Z 90)); [exact H2|].
    vm_compute. reflexivity.
Qed.

Lemma lon_lat_within (a b : float) :
  lon_lat (a, b)
  = if within 90 a && within 180 b
    then JList [JFloat b; JFloat a] else JList [JFloat a; JFloat b].
Proof. reflexivity. Qed.

Lemma within_nan (k : Z) (x : float) : is_nan x = true -> within k x = false.
Proof.
  intros H. destruct x; try discriminate H. unfold within.
  apply andb_false_intro2. now destruct (float_of_Z k).
Qed.

(** Extra X18. A point (a, b) of a router geometry is written [[b, a]]
    exactly when [a] lies in [-90, 90] and [b] in [-180, 180], and [[a, b]]
    otherwise, NaN included. Hence a point whose two numbers both lie in
    [-90, 90] is swapped whichever way round it was: a point the router gave
    as (lon, lat) comes out as [[lat, lon]]. Every point of the geometry is
    kept, in its order. *)
Theorem lon_lat_swap (a b : float) :
  (within 90 a = true -> within 180 b = true ->
   lon_lat (a, b) = JList [JFloat b; JFloat a]) /\
  (within 90 a = false \/ within 180 b = false ->
   lon_lat (a, b) = JList [JFloat a; JFloat b]) /\
  (is_nan a = true \/ is_nan b = true ->
   lon_lat (a, b) = JList [JFloat a; JFloat b]) /\
  (within 90 a = true -> within 90 b = true ->
   lon_lat (a, b) = JList [JFloat b; JFloat a] /\
   lon_lat (b, a) = JList [JFloat a; JFloat b]) /\
  (forall P router origin destination mode stops answer,
     route_router P (Some router) origin destination mode stops
     = Some answer ->
     exists geom duration,
       ml_route router origin destination mode
         (match stops with [] => None | _ => Some stops end)
       = Some (geom, duration) /\
       geometry answer = JList (map lon_lat (default [] geom))).
Proof.
  split; [|split; [|split; [|split]]].
  - intros Ha Hb. now rewrite lon_lat_within, Ha, Hb.
  - rewrite lon_lat_within.
    intros [-> | ->]; [reflexivity | now rewrite andb_false_r].
  - rewrite lon_lat_within. intros [H | H].
    + now rewrite (within_nan 90 a H).
    + now rewrite (within_nan 180 b H), andb_false_r.
  - intros Ha Hb. split.
    + now rewrite lon_lat_within, Ha, (within_wider b Hb).
    + now rewrite lon_lat_within, Hb, (within_wider a Ha).
  - intros P router origin destination mode stops answer.
    unfold route_router.
    destruct (ml_route router origin destination mode _)
      as [[geom duration] |]; [|discriminate].
    destruct (optional_float P duration) as [x |]; [|discriminate].
    intros [= <-]. now exists geom, duration.
Qed.

Lemma within_14 : within 90 (float_of_Z 14) = true.
Proof. vm_compute. reflexivity. Qed.

Lemma within_50 : within 90 (float_of_Z 50) = true.
Proof. vm_compute. reflexivity. Qed.

Lemma lon_lat_swap_witness :
  lon_lat (float_of_Z 14, float_of_Z 50)
  = JList [JFloat (float_of_Z 50); JFloat (float_of_Z 14)] /\
  lon_lat (float_of_Z 50, float_of_Z 14)
  = JList [JFloat (float_of_Z 14); JFloat (float_of_Z 50)].
Proof.
  pose proof (lon_lat_swap (float_of_Z 14) (float_of_Z 50))
    as (_ & _ & _ & H & _).
  exact (H within_14 within_50).
Defined.

(** ** The order of the stops when OSRM has no trip *)

Lemma latitude_longitude_as_json (P : platform) (p : float * float) :
  latitude_longitude P (as_json p) = Returned p.
Proof. now destruct p. Qed.

Lemma comprehension_as_json (P : platform) (l : list (float * float)) :
  comprehension (latitude_longitude P) (map as_json l) = Returned l.
Proof.
  induction l as [|p l IH]; [reflexivity|].
  cbn [map comprehension]. rewrite latitude_longitude_as_json, IH.
  reflexivity.
Qed.

(** Extra X19. When no router is loaded and the answer of OSRM holds no trip
    and no waypoint (each missing, null or empty), [/optimize] does not
    fail: it answers the origin, the stops in the order of the request and
    the destination, with an empty geometry and no duration. *)
Theorem optimize_without_trip (P : platform) (N : network)
    (req : OptimizeRequest) (m : gmap string json) :
  let pts :=
    [pair_of (optimize_origin req)]
    ++ map pair_of (optimize_stops req)
    ++ [pair_of (optimize_destination req)] in
  urlopen_json N (trip_url N (_mode_to_osrm (optimize_mode req)) pts)
  = Returned (JObject m) ->
  nothing (m !! "trips") -> nothing (m !! "waypoints") ->
  optimize P N None req
  = Ok {| ordered := pts;
          optimize_geometry := JList [];
          optimize_durationSeconds := None |}.
Proof.
  intros pts H Ht Hw. unfold optimize. cbn [optimize_router]. cbn zeta.
  fold pts.
  rewrite (osrm_trip_data N _ pts (JObject m)); [|discriminate | exact H].
  rewrite !get_object. cbn [and_then].
  rewrite (or_else_nothing _ _ Ht), (or_else_nothing _ _ Hw).
  cbn [item lookup list_lookup and_then or_else truth].
  repeat (rewrite get_empty; cbn [and_then]).
  cbn [and_then float_if_number fst snd].
  rewrite comprehension_as_json. reflexivity.
Qed.

Lemma optimize_without_trip_witness :
  optimize test_platform (replies (JObject ∅)) None
    {| optimize_origin := manila; optimize_destination := baguio;
       optimize_stops := [baguio; manila]; optimize_mode := "walk" |}
  = Ok {| ordered := [pair_of manila; pair_of baguio; pair_of manila;
                      pair_of baguio];
          optimize_geometry := JList [];
          optimize_durationSeconds := None |}.
Proof.
  apply (optimize_without_trip test_platform (replies (JObject ∅))
           {| optimize_origin := manila; optimize_destination := baguio;
              optimize_stops := [baguio; manila]; optimize_mode := "walk" |}
           ∅).
  - reflexivity.
  - left. apply lookup_empty.
  - left. apply lookup_empty.
Defined.
(** * The columns of a sheet *)

Lemma has_In (x : string) (l : list string) : has x l = true <-> In x l.
Proof.
  unfold has. rewrite existsb_exists. split.
  - intros (y & Hy & E). apply String.eqb_eq in E. now subst y.
  - intros H. exists x. split; [exact H | apply String.eqb_refl].
Qed.

Lemma assoc_filter (k : string) (keep : string -> bool)
    (m : list (string * string)) :
  keep k = true ->
  assoc k (List.filter (fun kv => keep (fst kv)) m) = assoc k m.
Proof.
  intros Hk. induction m as [|[k' v] m IH]; [reflexivity|].
  cbn [List.filter fst assoc].
  destruct (String.eqb_spec k k') as [<- | Hne].
  - rewrite Hk. cbn [assoc]. now rewrite String.eqb_refl.
  - destruct (keep k'); [|exact IH].
    cbn [assoc]. destruct (String.eqb_spec k k'); [contradiction | exact IH].
Qed.

Lemma rename_actual_map (columns : list string) :
  rename (actual_map columns) columns
  = map (fun c => default c (assoc c rename_map)) columns.
Proof.
  unfold rename, actual_map. apply map_ext_in. intros c Hc.
  rewrite (assoc_filter c (fun k => has k columns)); [reflexivity|].
  now apply has_In.
Qed.

Lemma upper_columns_labels (columns : list value) (r : list string) :
  upper_columns columns = Some r ->
  Forall2 (fun c l => exists s, c = VStr s /\ l = upper (strip s)) columns r.
Proof.
  revert r. induction columns as [|c columns IH]; intros r H.
  - injection H as <-. constructor.
  - cbn [upper_columns] in H. destruct c as [| s | | | |]; try discriminate H.
    destruct (upper_columns columns) as [r' |]; [|discriminate H].
    injection H as <-. constructor; [now exists s | now apply IH].
Qed.

Lemma upper_columns_texts (columns : list value) :
  (exists r, upper_columns columns = Some r) <->
  Forall (fun c => is_str c = true) columns.
Proof.
  induction columns as [|c columns IH].
  - split; [constructor | now exists []].
  - cbn [upper_columns]. split.
    + intros [r H]. destruct c as [| s | | | |]; try discriminate H.
      constructor; [reflexivity|]. apply IH.
      destruct (upper_columns columns) as [r' |]; [now exists r' |].
      discriminate H.
    + intros H. inversion H as [|c' l Hc Hl]. subst.
      destruct c as [| s | | | |]; try discriminate Hc.
      apply IH in Hl. destruct Hl as [r ->]. now eexists.
Qed.

Lemma upper_char_not_lower (c : ascii) : is_lower (upper_char c) = false.
Proof. each_char c; reflexivity. Qed.

(** No text in upper case starts with a small letter. *)
Lemma upper_head_not_lower (s : string) (a : ascii) (t : string) :
  upper s = String a t -> is_lower a = false.
Proof.
  destruct s as [|c s]; [discriminate|]. cbn [upper].
  intros [= <- _]. apply upper_char_not_lower.
Qed.

Lemma assoc_lat (c : string) :
  assoc c rename_map = Some "lat" <-> c = "LATITUDE".
Proof.
  split; [|now intros ->]. unfold rename_map. cbn [assoc].
  repeat match goal with
  | |- context [String.eqb c ?k] =>
      destruct (String.eqb_spec c k); [subst c; try discriminate; auto|]
  end.
  discriminate.
Qed.

Lemma assoc_lng (c : string) :
  assoc c rename_map = Some "lng" <-> c = "LONGITUDE".
Proof.
  split; [|now intros ->]. unfold rename_map. cbn [assoc].
  repeat match goal with
  | |- context [String.eqb c ?k] =>
      destruct (String.eqb_spec c k); [subst c; try discriminate; auto|]
  end.
  discriminate.
Qed.

Lemma label_lat (s : string) :
  label_of s = "lat" <-> upper (strip s) = "LATITUDE".
Proof.
  unfold label_of. destruct (assoc (upper (strip s)) rename_map) as [v|] eqn:E.
  - cbn. rewrite <- assoc_lat, E. split; congruence.
  - cbn. split.
    + intros H. apply upper_head_not_lower in H. discriminate H.
    + intros H. rewrite H in E. discriminate E.
Qed.

Lemma label_lng (s : string) :
  label_of s = "lng" <-> upper (strip s) = "LONGITUDE".
Proof.
  unfold label_of. destruct (assoc (upper (strip s)) rename_map) as [v|] eqn:E.
  - cbn. rewrite <- assoc_lng, E. split; congruence.
  - cbn. split.
    + intros H. apply upper_head_not_lower in H. discriminate H.
    + intros H. rewrite H in E. discriminate E.
Qed.

Lemma sheet_columns_labels (columns : list value) (r : list string) :
  sheet_columns columns = Some r ->
  Forall2 (fun c l => exists s, c = VStr s /\ l = label_of s) columns r.
Proof.
  unfold sheet_columns.
  destruct (upper_columns columns) as [up |] eqn:E; [|discriminate].
  cbn zeta. rewrite rename_actual_map.
  destruct (negb _ || negb _); [discriminate|]. intros [= <-].
  apply upper_columns_labels in E. clear -E.
  induction E as [|c u columns up (s & -> & ->) _ IH]; cbn [map];
    constructor; [now exists s | exact IH].
Qed.

Lemma Forall2_In_r {A B : Type} (R : A -> B -> Prop) (l : list A)
    (r : list B) (y : B) :
  Forall2 R l r -> In y r -> exists x, In x l /\ R x y.
Proof.
  induction 1 as [|x y' l r Hxy _ IH]; [intros []|].
  intros [<- | Hy].
  - exists x. split; [now left | exact Hxy].
  - destruct (IH Hy) as (x' & Hx' & Hr). exists x'.
    split; [now right | exact Hr].
Qed.

Lemma Forall2_In_l {A B : Type} (R : A -> B -> Prop) (l : list A)
    (r : list B) (x : A) :
  Forall2 R l r -> In x l -> exists y, In y r /\ R x y.
Proof.
  induction 1 as [|x' y l r Hxy _ IH]; [intros []|].
  intros [<- | Hx].
  - exists y. split; [now left | exact Hxy].
  - destruct (IH Hx) as (y' & Hy' & Hr). exists y'.
    split; [now right | exact Hr].
Qed.

(** Extra X20. A sheet passes the check of its columns exactly when every
    column label is a text (of ASCII characters), one of them reads
    [LATITUDE] and one reads
    [LONGITUDE] once trimmed and put in upper case. The headers may thus be
    in any letter case with blanks around them, but a sheet whose coordinate
    columns are already headed [lat] and [lng] is given up. *)
Theorem sheet_columns_kept (columns : list value) :
  (exists r, sheet_columns columns = Some r) <->
  Forall (fun c => is_str c = true) columns /\
  (exists s, In (VStr s) columns /\ upper (strip s) = "LATITUDE") /\
  (exists s, In (VStr s) columns /\ upper (strip s) = "LONGITUDE").
Proof.
  split.
  - intros [r H]. pose proof (sheet_columns_labels columns r H) as Hl.
    unfold sheet_columns in H.
    destruct (upper_columns columns) as [up |] eqn:E; [|discriminate].
    cbn zeta in H.
    destruct (has "lat" _) eqn:Hlat; [|discriminate].
    destruct (has "lng" _) eqn:Hlng; [|discriminate].
    injection H as H. rewrite H in Hlat, Hlng.
    split; [apply upper_columns_texts; now exists up | split].
    + apply has_In in Hlat.
      destruct (Forall2_In_r _ _ _ _ Hl Hlat) as (c & Hc & s & -> & Hs).
      exists s. split; [exact Hc | now apply label_lat].
    + apply has_In in Hlng.
      destruct (Forall2_In_r _ _ _ _ Hl Hlng) as (c & Hc & s & -> & Hs).
      exists s. split; [exact Hc | now apply label_lng].
  - intros (Ht & (s1 & H1 & E1) & (s2 & H2 & E2)).
    apply upper_columns_texts in Ht. destruct Ht as [up Hup].
    unfold sheet_columns. rewrite Hup. cbn zeta. rewrite rename_actual_map.
    pose proof (upper_columns_labels columns up Hup) as Hl.
    assert (Hlat : has "lat" (map (fun c => default c (assoc c rename_map)) up)
                   = true).
    { apply has_In, in_map_iff.
      destruct (Forall2_In_l _ _ _ _ Hl H1) as (u & Hu & s & [= <-] & ->).
      exists (upper (strip s1)). split; [|exact Hu]. now rewrite E1. }
    assert (Hlng : has "lng" (map (fun c => default c (assoc c rename_map)) up)
                   = true).
    { apply has_In, in_map_iff.
      destruct (Forall2_In_l _ _ _ _ Hl H2) as (u & Hu & s & [= <-] & ->).
      exists (upper (strip s2)). split; [|exact Hu]. now rewrite E2. }
    rewrite Hlat, Hlng. now eexists.
Qed.

Lemma sheet_columns_kept_witness :
  (exists r, sheet_columns [VStr " Latitude"; VStr "longitude "; VStr "Name"]
             = Some r) /\
  ~ (exists r, sheet_columns [VStr "lat"; VStr "lng"] = Some r).
Proof.
  split.
  - apply (sheet_columns_kept [VStr " Latitude"; VStr "longitude ";
                               VStr "Name"]).
    split; [repeat constructor|]. split.
    + exists " Latitude". split; [now left | reflexivity].
    + exists "longitude ". split; [right; now left | reflexivity].
  - intros H.
    apply (sheet_columns_kept [VStr "lat"; VStr "lng"]) in H.
    destruct H as (_ & (s & [E | [E | []]] & Hs) & _);
      injection E as <-; discriminate Hs.
Defined.

(** Extra X21. In a sheet that passes the check no column is dropped or
    merged: it
    has as many labels as before, in the same order, and the label of a
    header is the internal name of [rename_map] when the header, trimmed
    and put in upper case, is one of its thirteen keys, and the header
    trimmed and in upper case otherwise. Two headers that differ by case or
    blanks only end with the same label. *)
Theorem sheet_columns_renamed (columns : list value) (r : list string) :
  sheet_columns columns = Some r ->
  length r = length columns /\
  Forall2 (fun c l => exists s, c = VStr s /\ l = label_of s) columns r /\
  (forall s k v, In (k, v) rename_map -> upper (strip s) = k ->
     label_of s = v) /\
  (forall s, assoc (upper (strip s)) rename_map = None ->
     label_of s = upper (strip s)) /\
  (forall s t, upper (strip s) = upper (strip t) -> label_of s = label_of t).
Proof.
  intros H. pose proof (sheet_columns_labels columns r H) as Hl.
  split; [symmetry; now apply (Forall2_length _ _ _ Hl) | split; [exact Hl|]].
  split; [|split].
  - intros s k v Hin Hk. unfold label_of. rewrite Hk.
    unfold rename_map in Hin. cbn [In] in Hin.
    repeat (destruct Hin as [[= <- <-] | Hin]; [reflexivity|]).
    destruct Hin.
  - intros s E. unfold label_of. now rewrite E.
  - intros s t E. unfold label_of. now rewrite E.
Qed.

Lemma sheet_columns_renamed_witness :
  label_of "  Parking Name " = "name" /\
  label_of "pwd/sc discount" = "discount_raw" /\
  label_of "lat" = "LAT".
Proof.
  destruct (sheet_columns_renamed
              [VStr " Latitude"; VStr "longitude "; VStr "Name"]
              ["lat"; "lng"; "NAME"] eq_refl)
    as (_ & _ & Hkey & Hnone & _).
  split; [|split].
  - apply (Hkey _ "PARKING NAME"); [now left | reflexivity].
  - apply (Hkey _ "PWD/SC DISCOUNT"); [|reflexivity].
    do 11 right. now left.
  - apply (Hnone "lat"). reflexivity.
Defined.
(** ** [/eta] and [/route] on the same journey *)

Lemma route_without_stops (P : platform) (N : network) (o d : LatLon)
    (mode : string) (stops : option (list LatLon)) :
  stops = None \/ stops = Some [] ->
  route P N None {| route_origin := o; route_destination := d;
                    route_mode := mode; route_stops := stops |}
  = match _osrm_route N (_mode_to_osrm mode) (pair_of o) (pair_of d) with
    | Returned (coords, duration) =>
        Ok {| geometry := coords; durationSeconds := duration |}
    | Raised e =>
        Raise (HTTPException 500 ("Route failed: " +:+ failure_str N e))
    end.
Proof. intros [-> | ->]; reflexivity. Qed.

(** Extra X22. Without a router, [/route] for a journey without stops
    ([stops] missing or empty) asks OSRM the very request [/eta] asks for
    the same origin, destination and mode. For one answer of the server the
    two endpoints therefore agree: both succeed, and the seconds of the one
    are the duration of the other, or both fail with status 500 on the same
    cause, each under its own prefix. *)
Theorem eta_route_agree (P : platform) (N : network) (o d : LatLon)
    (mode : string) (depart : option string)
    (stops : option (list LatLon)) :
  stops = None \/ stops = Some [] ->
  match eta P N None {| eta_origin := o; eta_destination := d;
                        eta_mode := mode; departAt := depart |},
        route P N None {| route_origin := o; route_destination := d;
                          route_mode := mode; route_stops := stops |}
  with
  | Ok a, Ok b => seconds a = durationSeconds b
  | Raise e1, Raise e2 =>
      exists cause,
        e1 = HTTPException 500 ("ETA failed: " +:+ failure_str N cause) /\
        e2 = HTTPException 500 ("Route failed: " +:+ failure_str N cause)
  | _, _ => False
  end.
Proof.
  intros Hs. rewrite (route_without_stops P N o d mode stops Hs).
  unfold eta. cbn [eta_router eta_origin eta_destination eta_mode].
  cbn zeta.
  destruct (_osrm_route N (_mode_to_osrm mode) (pair_of o) (pair_of d))
    as [[coords duration] | cause].
  - reflexivity.
  - exists cause. split; reflexivity.
Qed.

Lemma eta_route_agree_witness :
  match eta test_platform (replies one_route) None
          {| eta_origin := manila; eta_destination := baguio;
             eta_mode := "car"; departAt := None |},
        route test_platform (replies one_route) None
          {| route_origin := manila; route_destination := baguio;
             route_mode := "car"; route_stops := Some [] |}
  with
  | Ok a, Ok b => seconds a = durationSeconds b
  | Raise e1, Raise e2 =>
      exists cause,
        e1 = HTTPException 500
               ("ETA failed: " +:+ failure_str (replies one_route) cause) /\
        e2 = HTTPException 500
               ("Route failed: " +:+ failure_str (replies one_route) cause)
  | _, _ => False
  end.
Proof.
  apply (eta_route_agree test_platform (replies one_route) manila baguio
           "car" None (Some [])).
  right. reflexivity.
Defined.
(** * The batch handed to the scoring function *)

Lemma np_array_row_of (P : platform) (req : ParkingRequest)
    (p : gmap string value) (dist rate : float) :
  map np_float (row_of P req p dist rate) =
  [ dist;
    float_of_Z (compute_open_now P (dict_get p "opening" VNone)
                  (dict_get p "closing" VNone) (time_of_day req));
    float_of_Z (yn_to_int (raw_field p "cctvs_raw" "CCTVS"));
    float_of_Z (yn_to_int (raw_field p "guards_raw" "GUARDS"));
    rate;
    float_of_Z (discount_to_int (raw_field p "discount_raw" "PWD/SC DISCOUNT"));
    float_of_Z (yn_to_int (raw_field p "street_raw" "STREET PARKING")) ].
Proof. reflexivity. Qed.

Lemma readable_row (P : platform) (req : ParkingRequest) (idx : nat)
    (p : gmap string value) (row : list num) (i : info) :
  feature_row P req idx p = Ok (Some (row, i)) -> readable P p = true.
Proof.
  intros H. unfold readable.
  destruct (feature_row_inv P req idx p row i H) as (lat & lng & _ & _ & E & _).
  now rewrite E.
Qed.

Lemma readable_skip (P : platform) (req : ParkingRequest) (idx : nat)
    (p : gmap string value) :
  feature_row P req idx p = Ok None -> readable P p = false.
Proof.
  intros H. apply feature_row_skip in H as [e E]. unfold readable.
  now rewrite E.
Qed.

(** The loop puts one row and one display record per readable record, in
    the order of the catalog. *)
Lemma build_rows_batch (P : platform) (req : ParkingRequest)
    (ps : list (gmap string value)) :
  forall idx rows infos,
  build_rows P req idx ps = Ok (rows, infos) ->
  Forall2 (fun p ri =>
             exists k, feature_row P req k p = Ok (Some ri))
    (List.filter (readable P) ps) (zip rows infos) /\
  length rows = length infos.
Proof.
  induction ps as [|p ps IH]; intros idx rows infos H.
  - injection H as <- <-. split; [constructor | reflexivity].
  - cbn [build_rows] in H.
    destruct (feature_row P req idx p) as [r | e] eqn:Er; [|discriminate].
    cbn [bind] in H.
    destruct (build_rows P req (S idx) ps) as [[rows' infos'] | e] eqn:Eb;
      [|discriminate].
    cbn [bind fst snd] in H. destruct (IH _ _ _ Eb) as [IH1 IH2].
    cbn [List.filter]. destruct r as [[row i] |]; injection H as <- <-.
    + rewrite (readable_row P req idx p row i Er). cbn [zip zip_with].
      split; [|cbn [length]; now rewrite IH2].
      constructor; [now exists idx | exact IH1].
    + rewrite (readable_skip P req idx p Er). split; assumption.
Qed.

(** Claim C3. The feature vector has exactly 7 numbers in the order
    [distance_km, open_now, cctvs, guards, initial_rate, pwd_discount,
    street_parking], whichever raw fields of the record are missing. This
    holds of the row the loop makes for one record, each number computed by
    its own helper from its own raw field; of the batch handed to the
    scoring function, which has one row of these 7 floats for every record
    of the catalog with readable coordinates and no other row, in the order
    of the catalog; and the scoring function is called on this batch: what
    [recommend] answers is what the scoring function makes of it. *)
Theorem feature_row_seven (P : platform) (req : ParkingRequest) :
  (forall idx p row i,
     feature_row P req idx p = Ok (Some (row, i)) ->
     length row = 7%nat /\
     exists lat lng dist rate,
       coordinates P p = Ok (lat, lng) /\
       haversine_km P (user_lat req) (user_lng req) lat lng = Ok dist /\
       rate_to_float P (raw_field p "initial_rate_raw" "INITIAL RATE")
       = Ok rate /\
       row =
       [ NFloat dist;
         NInt (compute_open_now P (dict_get p "opening" VNone)
                 (dict_get p "closing" VNone) (time_of_day req));
         NInt (yn_to_int (raw_field p "cctvs_raw" "CCTVS"));
         NInt (yn_to_int (raw_field p "guards_raw" "GUARDS"));
         NFloat rate;
         NInt (discount_to_int (raw_field p "discount_raw" "PWD/SC DISCOUNT"));
         NInt (yn_to_int (raw_field p "street_raw" "STREET PARKING")) ]) /\
  (forall idx ps rows infos,
     build_rows P req idx ps = Ok (rows, infos) ->
     length rows = length infos /\
     Forall (fun x => length x = 7%nat) (np_array rows) /\
     Forall2
       (fun p x =>
          exists lat lng dist rate,
            coordinates P p = Ok (lat, lng) /\
            haversine_km P (user_lat req) (user_lng req) lat lng = Ok dist /\
            rate_to_float P (raw_field p "initial_rate_raw" "INITIAL RATE")
            = Ok rate /\
            x =
            [ dist;
              float_of_Z (compute_open_now P (dict_get p "opening" VNone)
                            (dict_get p "closing" VNone) (time_of_day req));
              float_of_Z (yn_to_int (raw_field p "cctvs_raw" "CCTVS"));
              float_of_Z (yn_to_int (raw_field p "guards_raw" "GUARDS"));
              rate;
              float_of_Z
                (discount_to_int (raw_field p "discount_raw" "PWD/SC DISCOUNT"));
              float_of_Z (yn_to_int (raw_field p "street_raw" "STREET PARKING"))
            ])
       (List.filter (readable P) ps) (np_array rows)) /\
  (forall model cat top_k rows infos,
     build_rows P req 0 cat = Ok (rows, infos) -> rows <> [] ->
     recommend P (Some model) cat req top_k =
     match model (np_array rows) with
     | Ok scores =>
         Ok {| user_location := (user_lat req, user_lng req, time_of_day req);
               recommendations := slice_to (ranked infos scores) top_k |}
     | Raise e =>
         Raise (HTTPException 500 ("Model prediction failed: " +:+ exn_str e))
     end).
Proof.
  split; [|split].
  - intros idx p row i H.
    destruct (feature_row_inv P req idx p row i H)
      as (lat & lng & dist & rate & Hc & Hd & Hr & -> & _).
    split; [reflexivity|]. exists lat, lng, dist, rate. auto.
  - intros idx ps rows infos H.
    destruct (build_rows_batch P req ps idx rows infos H) as [Hall Hlen].
    split; [exact Hlen|].
    assert (Hrows :
      Forall2
        (fun p x =>
           exists lat lng dist rate,
             coordinates P p = Ok (lat, lng) /\
             haversine_km P (user_lat req) (user_lng req) lat lng = Ok dist /\
             rate_to_float P (raw_field p "initial_rate_raw" "INITIAL RATE")
             = Ok rate /\
             x = map np_float (row_of P req p dist rate))
        (List.filter (readable P) ps) (np_array rows)).
    { clear H. revert infos Hall Hlen. generalize (List.filter (readable P) ps).
      induction rows as [|row rows IH]; intros l infos Hall Hlen.
      - cbn [zip zip_with] in Hall. inversion Hall. constructor.
      - destruct infos as [|i infos]; [discriminate Hlen|].
        cbn [zip zip_with] in Hall.
        inversion Hall as [|p ri l' z' [k Hk] Hrest]; subst.
        cbn [np_array map]. constructor.
        + destruct (feature_row_inv P req k p row i Hk)
            as (lat & lng & dist & rate & Hc & Hd & Hr & -> & _).
          now exists lat, lng, dist, rate.
        + apply (IH l' infos Hrest). now injection Hlen. }
    split.
    + clear -Hrows. induction Hrows as [|p x l r (lat & lng & dist & rate & _ & _ & _ & ->) _ IH];
        constructor; [reflexivity | exact IH].
    + eapply Forall2_impl; [exact Hrows|].
      intros p x (lat & lng & dist & rate & Hc & Hd & Hr & ->).
      exists lat, lng, dist, rate. now rewrite np_array_row_of.
  - intros model cat top_k rows infos Hb Hne.
    destruct (model (np_array rows)) as [scores | e] eqn:Em.
    + apply recommend_Ok. exists model, rows, infos, scores.
      repeat split; try assumption. intros ->. cbn in Hb.
      injection Hb as <- _. now contradiction Hne.
    + apply recommend_Raise. right; right; right; right.
      exists model, rows, infos, e. repeat split; try assumption.
      intros ->. cbn in Hb. injection Hb as <- _. now contradiction Hne.
Qed.

Lemma bare_catalog_rows :
  exists rows infos,
    build_rows test_platform test_request 0 [bare_facility] = Ok (rows, infos) /\
    rows <> [] /\
    List.filter (readable test_platform) [bare_facility] = [bare_facility].
Proof.
  assert (Hr : readable test_platform bare_facility = true)
    by (vm_compute; reflexivity).
  eexists _, _. split; [vm_compute; reflexivity|].
  split; [discriminate|]. cbn [List.filter]. now rewrite Hr.
Qed.

Lemma feature_row_seven_witness :
  exists rows infos x,
    build_rows test_platform test_request 0 [bare_facility] = Ok (rows, infos) /\
    np_array rows = [x] /\
    length x = 7%nat /\
    recommend test_platform (Some test_model) [bare_facility] test_request 5
    = match test_model [x] with
      | Ok scores =>
          Ok {| user_location :=
                  (user_lat test_request, user_lng test_request,
                   time_of_day test_request);
                recommendations := slice_to (ranked infos scores) 5 |}
      | Raise e =>
          Raise (HTTPException 500
                   ("Model prediction failed: " +:+ exn_str e))
      end.
Proof.
  destruct bare_catalog_rows as (rows & infos & Hb & Hne & Hf).
  destruct (feature_row_seven test_platform test_request)
    as (_ & Hbatch & Hcall).
  destruct (Hbatch 0%nat [bare_facility] rows infos Hb) as (_ & H7 & Hall).
  rewrite Hf in Hall.
  inversion Hall as [|p x l r Hx Hrest Hp Hr]. subst.
  inversion Hrest. subst.
  exists rows, infos, x. split; [exact Hb|]. split; [now symmetry|].
  split.
  - rewrite <- Hr in H7. now inversion H7.
  - rewrite Hr. exact (Hcall test_model [bare_facility] 5 rows infos Hb Hne).
Defined.

(** * Ranking with a score that is NaN *)

Section SortKept.

Context {A : Type}.
Variable key : A -> float.

Lemma insert_by_key_last (x : A) (l : list A) :
  Forall (fun y => flt (key x) (key y) = false) l ->
  insert_by_key key x l = l ++ [x].
Proof.
  induction 1 as [|y l Hy _ IH]; [reflexivity|].
  cbn [insert_by_key]. rewrite Hy. cbn [app]. now rewrite IH.
Qed.

Lemma stable_sort_app (l1 l2 : list A) :
  stable_sort key (l1 ++ l2)
  = fold_left (fun acc x => insert_by_key key x acc) l2 (stable_sort key l1).
Proof. unfold stable_sort. apply fold_left_app. Qed.

(** A list in which no element is below an element listed after it is left
    as it is by the descending sort. *)
Lemma list_sort_kept (l : list A) :
  StronglySorted (fun x y => flt (key x) (key y) = false) l ->
  list_sort key true l = l.
Proof.
  unfold list_sort. intros H.
  assert (E : stable_sort key (rev l) = rev l).
  { induction H as [|x l Hs IH Hx]; [reflexivity|].
    cbn [rev]. rewrite stable_sort_app, IH. cbn [fold_left].
    apply insert_by_key_last. apply List.Forall_forall. intros y Hy.
    rewrite List.Forall_forall in Hx. apply Hx. now apply in_rev. }
  rewrite E. apply rev_involutive.
Qed.

End SortKept.


(** * The domain of the distance *)




















